(** * Valis AI backend: session/task lifecycle and rate-limited broadcast

    A shallow embedding of the three stateful cores of the backend,

      - [core/autonomous_intelligence.py]  (module [Autonomous]),
      - [core/chat_modes.py]               (module [ChatModes]),
      - [core/global_chat.py]              (module [GlobalChat]),

    and of the session registry and retry loop of
    [core/codeact_engine.py] (module [CodeAct]), followed by the properties
    established about them.

    Conventions of the embedding.
      - A Python method of an object with mutable attributes is a function
        from the object's state to a result and the new state.
      - A Python exception escaping a method is the [Raise] outcome; the
        state travels with it, since Python does not roll back.
      - Readings of [time.time()] are integers ([Z]) handed to the operation
        by its caller; values of [uuid.uuid4()] are strings handed in the
        same way.  An operation is handed one reading, which stands for
        every reading the source takes during that call; [send_message_at]
        is [send_message] with its three readings kept apart.
      - Calls to the OpenAI client are external: the reply (or the failure)
        of each call is an argument of the operation that performs it.  A
        reply that parses is a record with the keys the caller reads; what
        the source does with other JSON (a [KeyError] or [TypeError] where a
        key is read) is outside the embedding: a parsed reply in a
        statement below is a complete one.
      - A Python [str] is the [string] of its UTF-8 encoding; [len] is
        [py_len], the number of code points, a slice [s[:n]] is [str_take]
        and [in] is [str_contains].
        [str.lower()] is a table of the Unicode database: it is an argument
        ([lower]) of the operations that call it, known on ASCII text, where
        it is [str_lower].
      - Python [float] is the binary64 [float] of [PrimFloat], with the same
        rounding. *)

From Stdlib Require Import ZArith String Ascii List Floats.
From stdpp Require Import gmap strings list pretty.

Local Open Scope string_scope.
Local Open Scope nat_scope.
Local Open Scope list_scope.
Set Warnings "-inexact-float".

(** ** Outcomes of Python calls *)

Inductive exn : Type :=
| KeyError (key : string)
| ValueError (value : string)
| IndexError
| APIError (msg : string).

Inductive outcome (A : Type) : Type :=
| Return (a : A)
| Raise (e : exn).
Arguments Return {A} a.
Arguments Raise {A} e.

(** A handler result: the dictionary [{'error': msg}] or a payload. *)
Inductive response (A : Type) : Type :=
| Err (error : string)
| Ok (payload : A).
Arguments Err {A} error.
Arguments Ok {A} payload.

(** ** Python list and dict helpers *)

(** [l[-n:]]: the last [n] elements; [l[-0:]] is the whole list. *)
Definition slice_last {A : Type} (n : nat) (l : list A) : list A :=
  match n with
  | O => l
  | S _ => drop (List.length l - n) l
  end.

Arguments slice_last {A} n l : simpl never.

(** [len(s)]: the code points of a string, that is the bytes of its UTF-8
    encoding that are not continuation bytes (10xxxxxx). *)
Definition is_continuation (c : ascii) : bool :=
  let n := nat_of_ascii c in (128 <=? n) && (n <? 192).

Fixpoint py_len (s : string) : nat :=
  match s with
  | EmptyString => 0
  | String c s' => (if is_continuation c then 0 else 1) + py_len s'
  end.

(** [s[:n]] on strings: the first [n] code points, each with its
    continuation bytes. *)
Fixpoint str_take (n : nat) (s : string) : string :=
  match s with
  | EmptyString => EmptyString
  | String c s' =>
      if is_continuation c then String c (str_take n s')
      else match n with
           | O => EmptyString
           | S n' => String c (str_take n' s')
           end
  end.

Arguments str_take n s : simpl never.

(** Insertion-ordered dictionaries, for the places where the source iterates
    over [dict.values()]. *)
Fixpoint odict_get {V : Type} (k : string) (d : list (string * V)) : option V :=
  match d with
  | [] => None
  | (k', v) :: d' => if String.eqb k k' then Some v else odict_get k d'
  end.

Fixpoint odict_set {V : Type} (k : string) (v : V) (d : list (string * V))
  : list (string * V) :=
  match d with
  | [] => [(k, v)]
  | (k', v') :: d' =>
      if String.eqb k k' then (k', v) :: d' else (k', v') :: odict_set k v d'
  end.

(** [needle in haystack] on strings. *)
Fixpoint str_contains (needle haystack : string) : bool :=
  String.prefix needle haystack
  || match haystack with
     | EmptyString => false
     | String _ rest => str_contains needle rest
     end.

(** [c * n] for a one-character string [c]. *)
Fixpoint str_repeat (c : ascii) (n : nat) : string :=
  match n with
  | O => EmptyString
  | S n' => String c (str_repeat c n')
  end.


(** [str.lower()] on ASCII text: the letters A-Z are mapped to a-z. *)
Definition ascii_lower (c : ascii) : ascii :=
  let n := nat_of_ascii c in
  if (65 <=? n) && (n <=? 90) then ascii_of_nat (n + 32) else c.

Fixpoint str_lower (s : string) : string :=
  match s with
  | EmptyString => EmptyString
  | String c s' => String (ascii_lower c) (str_lower s')
  end.


(** * core/autonomous_intelligence.py *)

Module Autonomous.

Inductive TaskType : Type :=
| WEBSITE_CREATION | PRESENTATION | IMAGE_GENERATION | VIDEO_CREATION
| API_DEVELOPMENT | FULL_STACK_APP | DATA_ANALYSIS | AUTOMATION | GENERAL_CHAT.

Inductive ExecutionStatus : Type :=
| PLANNING | EXECUTING | TESTING | DEPLOYING | COMPLETED | ERROR.

#[global] Instance ExecutionStatus_eq_dec : EqDecision ExecutionStatus.
Proof. solve_decision. Defined.

(** [TaskType(value)]: the member with that value, [ValueError] otherwise. *)
Definition TaskType_of_value (v : string) : outcome TaskType :=
  if String.eqb v "website_creation" then Return WEBSITE_CREATION
  else if String.eqb v "presentation" then Return PRESENTATION
  else if String.eqb v "image_generation" then Return IMAGE_GENERATION
  else if String.eqb v "video_creation" then Return VIDEO_CREATION
  else if String.eqb v "api_development" then Return API_DEVELOPMENT
  else if String.eqb v "full_stack_app" then Return FULL_STACK_APP
  else if String.eqb v "data_analysis" then Return DATA_ANALYSIS
  else if String.eqb v "automation" then Return AUTOMATION
  else if String.eqb v "general_chat" then Return GENERAL_CHAT
  else Raise (ValueError v).

(** The analysis dictionary, as the JSON schema of the prompt lays it out. *)
Record Analysis : Type := mkAnalysis {
  task_type : string;
  complexity : string;
  confidence : float;
  a_description : string;
  technologies : list string;
  a_steps : list string;
  estimated_time : string;
  deliverables : list string
}.

(** What the classifier call of [analyze_intent] can do: anything raised
    inside the [try] block (the request, the access to the reply, or
    [json.loads]), or a parsed analysis.  A parsed analysis is taken to be
    complete: a JSON object laid out as the prompt asks, with every key of
    [Analysis] present and of the type shown.  (The source returns whatever
    [json.loads] gives; on an object that lacks "task_type", "description"
    or "steps" [create_task] raises [KeyError] where it reads the key.) *)
Inductive intent_reply : Type :=
| IntentFails (e : string)
| IntentJson (a : Analysis).

(** What a generation call of an executor can do: the request raises, or it
    returns a reply whose content cannot be read, or it returns content. *)
Inductive completion : Type :=
| CallRaises (e : string)
| Malformed (e : string)
| Content (text : string).

(** Values stored in [task.results] and in [self.memory]. *)
Inductive value : Type :=
| VStr (s : string)
| VAnalysis (a : Analysis).

Record Task : Type := mkTask {
  id : string;
  type : TaskType;
  description : string;
  status : ExecutionStatus;
  progress : Z;
  steps : list string;
  current_step : Z;
  results : gmap string value;
  created_at : Z;
  updated_at : Z
}.

Record state : Type := mkState {
  active_tasks : gmap string Task;
  memory : gmap string value
}.

(** [AutonomousIntelligence.__init__] *)
Definition init : state := mkState ∅ ∅.

Definition set_status (st : ExecutionStatus) (t : Task) : Task :=
  mkTask (id t) (type t) (description t) st (progress t) (steps t)
         (current_step t) (results t) (created_at t) (updated_at t).

Definition set_progress (p : Z) (t : Task) : Task :=
  mkTask (id t) (type t) (description t) (status t) p (steps t)
         (current_step t) (results t) (created_at t) (updated_at t).

Definition set_current_step (n : Z) (t : Task) : Task :=
  mkTask (id t) (type t) (description t) (status t) (progress t) (steps t)
         n (results t) (created_at t) (updated_at t).

Definition set_updated_at (now : Z) (t : Task) : Task :=
  mkTask (id t) (type t) (description t) (status t) (progress t) (steps t)
         (current_step t) (results t) (created_at t) now.

Definition set_result (k : string) (v : value) (t : Task) : Task :=
  mkTask (id t) (type t) (description t) (status t) (progress t) (steps t)
         (current_step t) (<[k := v]> (results t)) (created_at t) (updated_at t).

(** [analyze_intent] *)
Definition analyze_intent (reply : intent_reply) (user_input : string) : Analysis :=
  match reply with
  | IntentJson analysis => analysis
  | IntentFails _ =>
      mkAnalysis "general_chat" "simple" 0.5%float
                 ("General request: " +:+ user_input) []
                 ["Process request"; "Generate response"]
                 "1 minute" ["AI response"]
  end.

(** [create_task] *)
Definition create_task (now : Z) (fresh_uuid : string) (reply : intent_reply)
  (user_input : string) (s : state) : outcome string * state :=
  let analysis := analyze_intent reply user_input in
  match TaskType_of_value (task_type analysis) with
  | Raise e => (Raise e, s)
  | Return ty =>
      let task :=
        mkTask fresh_uuid ty (a_description analysis) PLANNING 0
               (a_steps analysis) 0
               (<["user_input" := VStr user_input]>
                  (<["analysis" := VAnalysis analysis]> ∅))
               now now in
      (Return fresh_uuid,
       mkState (<[fresh_uuid := task]> (active_tasks s)) (memory s))
  end.

(** The reply dictionary of a successful executor. *)
Record Execution : Type := mkExecution {
  ex_task_id : string;
  ex_status : ExecutionStatus;
  ex_progress : Z;
  ex_results : gmap string value
}.

Definition success (t : Task) : response Execution * Task :=
  (Ok (mkExecution (id t) (status t) (progress t) (results t)), t).

(** The [except] clause shared by the executors. *)
Definition failed (e : string) (t : Task) : response Execution * Task :=
  (Err e, set_result "error" (VStr e) (set_status ERROR t)).

(** [_execute_website_creation] *)
Definition _execute_website_creation (now : Z) (c : completion) (t : Task)
  : response Execution * Task :=
  match c with
  | CallRaises e => failed e t
  | Malformed e =>
      failed e (set_updated_at now
                  (set_status TESTING (set_current_step 2 (set_progress 50 t))))
  | Content text =>
      let t1 := set_updated_at now
                  (set_status TESTING (set_current_step 2 (set_progress 50 t))) in
      let t2 := set_result "status" (VStr "Website generated successfully")
                  (set_result "generated_content" (VStr text) t1) in
      let t3 := set_status COMPLETED (set_progress 100 t2) in
      success (set_result "deployment_url"
                 (VStr ("https://valis-ai-" +:+ str_take 8 (id t) +:+ ".vercel.app"))
                 t3)
  end.

(** [_execute_presentation_creation] *)
Definition _execute_presentation_creation (c : completion) (t : Task)
  : response Execution * Task :=
  match c with
  | CallRaises e => failed e t
  | Malformed e => failed e (set_status COMPLETED (set_progress 100 t))
  | Content text =>
      success (set_result "status" (VStr "Presentation created successfully")
                 (set_result "presentation_content" (VStr text)
                    (set_status COMPLETED (set_progress 100 t))))
  end.

(** [_execute_image_generation] *)
Definition _execute_image_generation (c : completion) (t : Task)
  : response Execution * Task :=
  match c with
  | CallRaises e => failed e t
  | Malformed e => failed e (set_status COMPLETED (set_progress 100 t))
  | Content url =>
      success (set_result "status" (VStr "Image generated successfully")
                 (set_result "image_url" (VStr url)
                    (set_status COMPLETED (set_progress 100 t))))
  end.

(** [_execute_api_development] *)
Definition _execute_api_development (c : completion) (t : Task)
  : response Execution * Task :=
  match c with
  | CallRaises e => failed e t
  | Malformed e => failed e (set_status COMPLETED (set_progress 100 t))
  | Content text =>
      success (set_result "api_url"
                 (VStr ("https://api-valis-" +:+ str_take 8 (id t) +:+ ".vercel.app"))
                 (set_result "status" (VStr "API created successfully")
                    (set_result "api_code" (VStr text)
                       (set_status COMPLETED (set_progress 100 t)))))
  end.

(** [_execute_fullstack_development] *)
Definition _execute_fullstack_development (c : completion) (t : Task)
  : response Execution * Task :=
  match c with
  | CallRaises e => failed e t
  | Malformed e => failed e (set_status COMPLETED (set_progress 100 t))
  | Content text =>
      success (set_result "backend_url"
                 (VStr ("https://api-valis-" +:+ str_take 8 (id t) +:+ ".vercel.app"))
                 (set_result "frontend_url"
                    (VStr ("https://app-valis-" +:+ str_take 8 (id t) +:+ ".vercel.app"))
                    (set_result "status"
                       (VStr "Full-stack application created successfully")
                       (set_result "application_code" (VStr text)
                          (set_status COMPLETED (set_progress 100 t))))))
  end.

(** [_execute_general_response]: [task.results["user_input"]] is read inside
    the [try], before the request is made. *)
Definition _execute_general_response (c : completion) (t : Task)
  : response Execution * Task :=
  match results t !! "user_input" with
  | None => failed "'user_input'" t
  | Some _ =>
      match c with
      | CallRaises e => failed e t
      | Malformed e => failed e (set_status COMPLETED (set_progress 100 t))
      | Content text =>
          success (set_result "status" (VStr "Response generated successfully")
                     (set_result "response" (VStr text)
                        (set_status COMPLETED (set_progress 100 t))))
      end
  end.

(** The [if]/[elif] chain of [execute_task] over [task.type]. *)
Definition dispatch (now : Z) (c : completion) (t : Task)
  : response Execution * Task :=
  match type t with
  | WEBSITE_CREATION => _execute_website_creation now c t
  | PRESENTATION => _execute_presentation_creation c t
  | IMAGE_GENERATION => _execute_image_generation c t
  | API_DEVELOPMENT => _execute_api_development c t
  | FULL_STACK_APP => _execute_fullstack_development c t
  | _ => _execute_general_response c t
  end.

(** [execute_task] *)
Definition execute_task (now : Z) (c : completion) (task_id : string) (s : state)
  : response Execution * state :=
  match active_tasks s !! task_id with
  | None => (Err "Task not found", s)
  | Some task =>
      let task1 := set_updated_at now (set_status EXECUTING task) in
      let '(r, task2) := dispatch now c task1 in
      (r, mkState (<[task_id := task2]> (active_tasks s)) (memory s))
  end.

(** The reply dictionary of [get_task_status]. *)
Record TaskStatus : Type := mkTaskStatus {
  ts_task_id : string;
  ts_type : TaskType;
  ts_description : string;
  ts_status : ExecutionStatus;
  ts_progress : Z;
  ts_current_step : Z;
  ts_total_steps : nat;
  ts_results : gmap string value
}.

(** [get_task_status] *)
Definition get_task_status (task_id : string) (s : state) : response TaskStatus :=
  match active_tasks s !! task_id with
  | None => Err "Task not found"
  | Some task =>
      Ok (mkTaskStatus (id task) (type task) (description task) (status task)
            (progress task) (current_step task) (List.length (steps task))
            (results task))
  end.

(** [update_memory] and [get_memory] *)
Definition update_memory (k : string) (v : value) (s : state) : state :=
  mkState (active_tasks s) (<[k := v]> (memory s)).

Definition get_memory (k : string) (s : state) : option value := memory s !! k.

(** The key of [task.results] under which an executor stores what the
    generation call returned. *)
Definition content_key (ty : TaskType) : string :=
  match ty with
  | WEBSITE_CREATION => "generated_content"
  | PRESENTATION => "presentation_content"
  | IMAGE_GENERATION => "image_url"
  | API_DEVELOPMENT => "api_code"
  | FULL_STACK_APP => "application_code"
  | _ => "response"
  end.

(** What holds of every task of a running registry. *)
Definition task_ok (t : Task) : Prop :=
  (0 ≤ progress t ≤ 100)%Z ∧ is_Some (results t !! "user_input").

(** ** The operations as a transition system.  [uuid.uuid4()] yields an id
    that is not in use, which is the side condition on [OpCreate]. *)
Inductive op : Type :=
| OpCreate (now : Z) (fresh_uuid : string) (reply : intent_reply) (user_input : string)
| OpExecute (now : Z) (c : completion) (task_id : string)
| OpRemember (k : string) (v : value).

Definition step (o : op) (s : state) : state :=
  match o with
  | OpCreate now u reply input => (create_task now u reply input s).2
  | OpExecute now c tid => (execute_task now c tid s).2
  | OpRemember k v => update_memory k v s
  end.

Definition enabled (o : op) (s : state) : Prop :=
  match o with
  | OpCreate _ u _ _ => active_tasks s !! u = None
  | _ => True
  end.

Inductive reachable : state → Prop :=
| reachable_init : reachable init
| reachable_step o s : reachable s → enabled o s → reachable (step o s).

(** [task.type.value] *)
Definition TaskType_value (ty : TaskType) : string :=
  match ty with
  | WEBSITE_CREATION => "website_creation"
  | PRESENTATION => "presentation"
  | IMAGE_GENERATION => "image_generation"
  | VIDEO_CREATION => "video_creation"
  | API_DEVELOPMENT => "api_development"
  | FULL_STACK_APP => "full_stack_app"
  | DATA_ANALYSIS => "data_analysis"
  | AUTOMATION => "automation"
  | GENERAL_CHAT => "general_chat"
  end.

(** A run of operations, oldest first. *)
Definition run (ops : list op) (s : state) : state := foldl (λ s o, step o s) s ops.

(** The value last stored under [k] by the [update_memory] calls of a run,
    [d] when there is none. *)
Definition last_remembered (k : string) (ops : list op) (d : option value)
  : option value :=
  foldl (λ acc o,
           match o with
           | OpRemember k' v => if decide (k' = k) then Some v else acc
           | _ => acc
           end) d ops.

(** The statuses a task is left in between calls. *)
Definition at_rest (t : Task) : Prop :=
  (status t = PLANNING ∧ progress t = 0%Z ∧ current_step t = 0%Z)
  ∨ (status t = COMPLETED ∧ progress t = 100%Z)
  ∨ (status t = ERROR ∧ is_Some (results t !! "error")
     ∧ (progress t = 0 ∨ progress t = 50 ∨ progress t = 100)%Z).

End Autonomous.

(** * core/codeact_engine.py (sessions and the autonomous loop) *)

Module CodeAct.

(** What executing a piece of code does, as [execute_code] sees it: [exec]
    returns, with what was printed; or an [Exception] is raised, which
    [execute_code] catches, with its text (and what was written to stderr);
    or something that is not an [Exception] is raised ([SystemExit] from
    [sys.exit()], [KeyboardInterrupt]), which [except Exception] lets
    through.  The interpreter's variables and imports belong to the outside
    world. *)
Inductive run_outcome : Type :=
| Ran (output : string)
| Failed (error : string)
| Exits (what : string).

(** What leaves a method of the engine early: a [KeyError] of its own
    lookups, or what the executed code raised and nobody caught. *)
Inductive escape : Type :=
| Lookup (e : exn)
| Uncaught (what : string).

Inductive result (A : Type) : Type :=
| Finished (a : A)
| Escaped (e : escape).
Arguments Finished {A} a.
Arguments Escaped {A} e.

(** The result dictionary of [execute_code], reduced to the keys read by
    this repository. *)
Record ExecutionRecord : Type := mkExecutionRecord {
  er_session_id : string;
  er_execution_count : nat;
  er_code : string;
  er_context : string;
  er_success : bool;
  er_output : string;
  er_error : string;
  er_timestamp : Z
}.

Record CodeSession : Type := mkCodeSession {
  execution_count : nat;
  cs_created_at : Z;
  cs_last_activity : Z
}.

Record state : Type := mkState {
  sessions : gmap string CodeSession;
  execution_history : gmap string (list ExecutionRecord)
}.

Definition init : state := mkState ∅ ∅.

(** [not session_id] *)
Definition falsy (x : option string) : bool :=
  match x with
  | None | Some "" => true
  | Some _ => false
  end.

(** [create_session] *)
Definition create_session (now : Z) (fresh_uuid : string)
  (session_id : option string) (s : state) : string * state :=
  let sid := if falsy session_id then fresh_uuid else default fresh_uuid session_id in
  (sid,
   mkState (<[sid := mkCodeSession 0 now now]> (sessions s))
           (<[sid := []]> (execution_history s))).

(** [cleanup_session] *)
Definition cleanup_session (sid : string) (s : state) : bool * state :=
  (true, mkState (delete sid (sessions s)) (delete sid (execution_history s))).

(** [execute_code] *)
Definition execute_code (now : Z) (fresh_uuid : string) (o : run_outcome)
  (session_id code ctx : string) (s : state) : result ExecutionRecord * state :=
  let '(sid, s1) :=
    match sessions s !! session_id with
    | Some _ => (session_id, s)
    | None => create_session now fresh_uuid (Some session_id) s
    end in
  match sessions s1 !! sid with
  | None => (Escaped (Lookup (KeyError sid)), s1)
  | Some session =>
      let session' :=
        mkCodeSession (S (execution_count session)) (cs_created_at session) now in
      let s2 := mkState (<[sid := session']> (sessions s1)) (execution_history s1) in
      let record success output error :=
        mkExecutionRecord sid (execution_count session') code ctx
                          success output error now in
      let append result :=
        match execution_history s2 !! sid with
        | None => (Escaped (Lookup (KeyError sid)), s2)
        | Some history =>
            (Finished result,
             mkState (sessions s2)
                     (<[sid := history ++ [result]]> (execution_history s2)))
        end in
      match o with
      | Ran output => append (record true output "")
      | Failed error => append (record false "" error)
      | Exits what => (Escaped (Uncaught what), s2)
      end
  end.

Definition newline : string := String (ascii_of_nat 10) EmptyString.

(** The text appended to the task description after a failed attempt. *)
Definition retry_note (error : string) : string :=
  newline +:+ newline +:+ "Previous attempt failed with error: " +:+ error
  +:+ newline +:+ "Please fix the error and try again.".

Definition nonempty (x : string) : bool := negb (String.eqb x "").

(** The body of the [for] loop of [execute_task_autonomously], for the [n]
    iterations that remain from iteration [i] on.  [world i description]
    is the code the model generates at iteration [i] for that description,
    and what executing it does. *)
Fixpoint attempts (world : nat → string → string * run_outcome)
  (now : Z) (fresh_uuid sid : string) (max_iterations : Z)
  (n i : nat) (task_description : string) (results : list ExecutionRecord)
  (s : state) : result (string * list ExecutionRecord) * state :=
  match n with
  | O => (Finished (task_description, results), s)
  | S n' =>
      let '(code, o) := world i task_description in
      match execute_code now fresh_uuid o sid code
              ("Autonomous execution - " +:+ task_description) s with
      | (Escaped e, s1) => (Escaped e, s1)
      | (Finished r, s1) =>
          let results1 := results ++ [r] in
          if er_success r && negb (nonempty (er_error r)) then
            (Finished (task_description, results1), s1)
          else
            let task_description1 :=
              if nonempty (er_error r) && (Z.of_nat i <? max_iterations - 1)%Z
              then task_description +:+ retry_note (er_error r)
              else task_description in
            attempts world now fresh_uuid sid max_iterations n' (S i)
                     task_description1 results1 s1
      end
  end.

(** The dictionary returned by [execute_task_autonomously]. *)
Record AutonomousResult : Type := mkAutonomousResult {
  ar_session_id : string;
  ar_task_description : string;
  ar_iterations : nat;
  ar_results : list ExecutionRecord;
  ar_final_success : bool;
  ar_final_output : string;
  ar_final_error : string
}.

(** [execute_task_autonomously] *)
Definition execute_task_autonomously (world : nat → string → string * run_outcome)
  (now : Z) (session_uuid exec_uuid : string) (task_description : string)
  (session_id : option string) (max_iterations : Z) (s : state)
  : result AutonomousResult * state :=
  let '(sid, s1) :=
    if falsy session_id then create_session now session_uuid None s
    else (default session_uuid session_id, s) in
  match attempts world now exec_uuid sid max_iterations
                 (Z.to_nat max_iterations) 0 task_description [] s1 with
  | (Escaped e, s2) => (Escaped e, s2)
  | (Finished (description, results), s2) =>
      (Finished (mkAutonomousResult sid description (List.length results) results
                   (default false (er_success <$> last results))
                   (default "" (er_output <$> last results))
                   (default "" (er_error <$> last results))),
       s2)
  end.

(** The answer of [get_session_info] for a known session, reduced to the
    keys that depend on this module's own state. *)
Record SessionReport : Type := mkSessionReport {
  sr_session_id : string;
  sr_created_at : Z;
  sr_last_activity : Z;
  sr_execution_count : nat;
  sr_execution_history_count : nat;
  sr_recent_executions : list ExecutionRecord
}.

(** [get_session_info] *)
Definition get_session_info (sid : string) (s : state) : response SessionReport :=
  match sessions s !! sid with
  | None => Err "Session not found"
  | Some session =>
      let history := default [] (execution_history s !! sid) in
      Ok (mkSessionReport sid (cs_created_at session) (cs_last_activity session)
            (execution_count session) (List.length history)
            (match history with [] => [] | _ => slice_last 5 history end))
  end.

(** The notes that the failed attempts [results], numbered from [i] on,
    add to the task description: one for each attempt but the last allowed
    one that left an error text. *)
Fixpoint notes (max_iterations : Z) (i : nat) (results : list ExecutionRecord)
  : string :=
  match results with
  | [] => ""
  | r :: rest =>
      (if nonempty (er_error r) && (Z.of_nat i <? max_iterations - 1)%Z
       then retry_note (er_error r) else "")
      +:+ notes max_iterations (S i) rest
  end.


(** Every session has its history list. *)
Definition paired (s : state) : Prop :=
  ∀ sid, is_Some (sessions s !! sid) → is_Some (execution_history s !! sid).

End CodeAct.

(** * core/chat_modes.py *)

Module ChatModes.

Inductive ChatMode : Type := ADAPTIVE | AGENT | CHAT | CUSTOM.

#[global] Instance ChatMode_eq_dec : EqDecision ChatMode.
Proof. solve_decision. Defined.

(** [mode.value] *)
Definition value (m : ChatMode) : string :=
  match m with
  | ADAPTIVE => "adaptive" | AGENT => "agent" | CHAT => "chat" | CUSTOM => "custom"
  end.

(** [ChatMode(value)] *)
Definition ChatMode_of_value (v : string) : outcome ChatMode :=
  if String.eqb v "adaptive" then Return ADAPTIVE
  else if String.eqb v "agent" then Return AGENT
  else if String.eqb v "chat" then Return CHAT
  else if String.eqb v "custom" then Return CUSTOM
  else Raise (ValueError v).

(** The dictionary returned by [execute_task_autonomously], reduced to the
    keys this module reads. *)
Record ExecutionResult : Type := mkExecutionResult {
  final_success : bool;
  final_output : string;
  final_error : string
}.

(** An entry of [session['context']]. *)
Record ContextEntry : Type := mkContextEntry {
  ce_role : string;
  ce_content : string;
  ce_timestamp : Z;
  ce_mode : string;
  ce_execution_result : option ExecutionResult;
  ce_task_id : option string
}.

(** An entry of [session['task_history']]. *)
Record HistoryEntry : Type := mkHistoryEntry {
  he_task_id : string;
  he_message : string;
  he_execution_result : ExecutionResult;
  he_timestamp : Z
}.

Record Preferences : Type := mkPreferences {
  auto_execute : bool;
  show_code : bool;
  verbose_output : bool;
  safety_checks : bool
}.

Record Session : Type := mkSession {
  session_id : string;
  user_id : option string;
  mode : ChatMode;
  created_at : Z;
  last_activity : Z;
  message_count : nat;
  context : list ContextEntry;
  workspace_id : option string;
  task_history : list HistoryEntry;
  preferences : Preferences
}.

(** The manager: its sessions and its own [AutonomousIntelligence]. *)
Record state : Type := mkState {
  active_sessions : gmap string Session;
  autonomous_ai : Autonomous.state
}.

Definition init : state := mkState ∅ Autonomous.init.

(** The analysis dictionary of [_analyze_message_intent]: the fallback builds
    it with these four keys, and a reply of the classifier that parses is
    taken to be complete, that is a JSON object with the four keys, a string
    under "recommended_mode" and a number under "confidence".  (The source
    returns whatever [json.loads] gives; on an object that lacks a key
    [_process_adaptive_mode] raises [KeyError] where it reads the key.) *)
Record IntentAnalysis : Type := mkIntentAnalysis {
  intent : string;
  recommended_mode : string;
  confidence : float;
  reasoning : string
}.

(** What the outside world contributes to one call of [process_message]:
    the clock, the uuid of a session created on the way, the classifier's
    parsed reply ([None] when anything in its [try] block raises), the chat
    completion ([None] when that call raises), and, for agent mode, the
    workspace handed out by the code engine, the uuid and the classifier
    reply of [create_task], and the result of the autonomous execution.
    [lower] is [str.lower]. *)
Record Collaborators : Type := mkCollaborators {
  lower : string → string;
  clock : Z;
  session_uuid : string;
  classifier : option IntentAnalysis;
  chat_completion : option string;
  workspace_uuid : string;
  task_uuid : string;
  task_classifier : Autonomous.intent_reply;
  execution : ExecutionResult
}.

(** The [adaptive_analysis] entry of a reply; the key
    [clarification_needed] is present in the low-confidence branch only. *)
Record AdaptiveAnalysis : Type := mkAdaptiveAnalysis {
  detected_intent : string;
  aa_recommended_mode : string;
  aa_confidence : float;
  aa_reasoning : string;
  mode_switched : bool;
  clarification_needed : option bool
}.

(** The reply dictionary of [process_message]. *)
Record Reply : Type := mkReply {
  r_session_id : string;
  r_mode : string;
  r_message : string;
  r_suggestions : list string;
  r_execution_result : option ExecutionResult;
  r_task_id : option string;
  r_workspace_id : option string;
  r_timestamp : Z;
  adaptive_analysis : option AdaptiveAnalysis
}.

Definition set_mode (m : ChatMode) (x : Session) : Session :=
  mkSession (session_id x) (user_id x) m (created_at x) (last_activity x)
            (message_count x) (context x) (workspace_id x) (task_history x)
            (preferences x).

Definition append_context (e : ContextEntry) (x : Session) : Session :=
  mkSession (session_id x) (user_id x) (mode x) (created_at x) (last_activity x)
            (message_count x) (context x ++ [e]) (workspace_id x)
            (task_history x) (preferences x).

Definition set_workspace_id (w : option string) (x : Session) : Session :=
  mkSession (session_id x) (user_id x) (mode x) (created_at x) (last_activity x)
            (message_count x) (context x) w (task_history x) (preferences x).

Definition append_task_history (h : HistoryEntry) (x : Session) : Session :=
  mkSession (session_id x) (user_id x) (mode x) (created_at x) (last_activity x)
            (message_count x) (context x) (workspace_id x)
            (task_history x ++ [h]) (preferences x).

Definition set_adaptive_analysis (a : AdaptiveAnalysis) (r : Reply) : Reply :=
  mkReply (r_session_id r) (r_mode r) (r_message r) (r_suggestions r)
          (r_execution_result r) (r_task_id r) (r_workspace_id r)
          (r_timestamp r) (Some a).

(** [create_chat_session] *)
Definition create_chat_session (now : Z) (fresh_uuid : string) (m : ChatMode)
  (uid : option string) (s : state) : string * state :=
  (fresh_uuid,
   mkState (<[fresh_uuid :=
               mkSession fresh_uuid uid m now now 0 [] None []
                         (mkPreferences true true false true)]>
              (active_sessions s))
           (autonomous_ai s)).

(** The two keyword lists of the fallback analysis. *)
Definition agent_keywords : list string :=
  [ "create"; "build"; "make"; "develop"; "code"; "program"; "deploy";
    "website"; "app"; "application"; "api"; "database"; "script";
    "automate"; "generate"; "implement"; "execute"; "run" ].

Definition chat_keywords : list string :=
  [ "what"; "how"; "why"; "explain"; "tell me"; "describe"; "help";
    "question"; "understand"; "learn"; "know"; "think"; "opinion" ].

(** [sum(1 for keyword in keywords if keyword in message_lower)] *)
Definition keyword_score (keywords : list string) (message_lower : string) : nat :=
  List.length (List.filter (λ kw, str_contains kw message_lower) keywords).

(** [min(0.8, 0.5 + score * 0.1)] in binary64 arithmetic. *)
Definition float_of_nat (n : nat) : float :=
  PrimFloat.of_uint63 (Uint63.of_Z (Z.of_nat n)).

Definition float_min (a b : float) : float :=
  if PrimFloat.ltb b a then b else a.

Definition fallback_confidence (score : nat) : float :=
  float_min 0.8%float (0.5 + float_of_nat score * 0.1)%float.

(** [reasoning] of the fallback embeds the score in decimal. *)
Definition fallback_analysis (lower : string → string) (message : string)
  : IntentAnalysis :=
  let message_lower := lower message in
  let agent_score := keyword_score agent_keywords message_lower in
  let chat_score := keyword_score chat_keywords message_lower in
  if chat_score <? agent_score then
    mkIntentAnalysis "Task execution request" "agent"
      (fallback_confidence agent_score)
      ("Message contains " +:+ pretty agent_score +:+ " execution-related keywords")
  else
    mkIntentAnalysis "Conversational inquiry" "chat"
      (fallback_confidence chat_score)
      ("Message contains " +:+ pretty chat_score +:+ " conversational keywords").

(** [_analyze_message_intent] *)
Definition _analyze_message_intent (c : Collaborators)
  (message : string) (ctx : list ContextEntry) : IntentAnalysis :=
  match classifier c with
  | Some analysis => analysis
  | None => fallback_analysis (lower c) message
  end.

(** [_generate_chat_response] *)
Definition _generate_chat_response (completion : option string) : string :=
  match completion with
  | Some text => text
  | None => "I apologize, but I encountered an error while processing your message. Please try again."
  end.

(** [_generate_suggestions] *)
Definition _generate_suggestions (lower : string → string) (message : string)
  : list string :=
  let message_lower := lower message in
  let any words := existsb (λ w, str_contains w message_lower) words in
  take 3
    ((if any ["website"; "web"; "site"] then
        [ "Would you like me to create a website for you?";
          "I can help you build a landing page";
          "Need help with web development?" ] else [])
     ++ (if any ["app"; "application"; "mobile"] then
        [ "I can help you build an application";
          "Would you like to create a mobile app?";
          "Need assistance with app development?" ] else [])
     ++ (if any ["code"; "program"; "script"] then
        [ "I can write and execute code for you";
          "Would you like me to create a script?";
          "Need help with programming?" ] else [])).

(** [_process_chat_mode] *)
Definition _process_chat_mode (c : Collaborators) (session : Session)
  (message : string) : Reply * Session :=
  let ai_response := _generate_chat_response (chat_completion c) in
  let session' :=
    append_context (mkContextEntry "assistant" ai_response (clock c) "chat"
                                   None None) session in
  (mkReply (session_id session') "chat" ai_response
           (_generate_suggestions (lower c) message) None None None (clock c) None,
   session').

(** [_process_custom_mode] *)
Definition _process_custom_mode (c : Collaborators) (session : Session)
  (message : string) : Reply * Session :=
  _process_chat_mode c session message.

(** [_generate_agent_response] *)
Definition _generate_agent_response (message : string) (r : ExecutionResult)
  : string :=
  if final_success r then
    "âœ… I've successfully completed your request! " +:+ final_output r
  else
    "I encountered some challenges while working on your request. "
      +:+ final_error r.

(** [_process_agent_mode]: the session and the task registry are both
    updated; when [create_task] raises, the workspace binding made before it
    stays. *)
Definition _process_agent_mode (c : Collaborators) (session : Session)
  (message : string) (ai : Autonomous.state)
  : outcome Reply * Session * Autonomous.state :=
  let session1 :=
    match workspace_id session with
    | None | Some "" => set_workspace_id (Some (workspace_uuid c)) session
    | Some _ => session
    end in
  match Autonomous.create_task (clock c) (task_uuid c) (task_classifier c)
                               message ai with
  | (Raise e, ai') => (Raise e, session1, ai')
  | (Return task_id, ai') =>
      let execution_result := execution c in
      let ai_response := _generate_agent_response message execution_result in
      let session2 :=
        append_context
          (mkContextEntry "assistant" ai_response (clock c) "agent"
                          (Some execution_result) (Some task_id)) session1 in
      let session3 :=
        append_task_history
          (mkHistoryEntry task_id message execution_result (clock c)) session2 in
      (Return (mkReply (session_id session3) "agent" ai_response []
                       (Some execution_result) (Some task_id)
                       (workspace_id session3) (clock c) None),
       session3, ai')
  end.

(** [_process_adaptive_mode] *)
Definition _process_adaptive_mode (c : Collaborators) (session : Session)
  (message : string) (ai : Autonomous.state)
  : outcome Reply * Session * Autonomous.state :=
  let analysis := _analyze_message_intent c message (context session) in
  if PrimFloat.ltb 0.7%float (confidence analysis) then
    match ChatMode_of_value (recommended_mode analysis) with
    | Raise e => (Raise e, session, ai)
    | Return m =>
        let session1 := set_mode m session in
        let info :=
          mkAdaptiveAnalysis (intent analysis) (recommended_mode analysis)
                             (confidence analysis) (reasoning analysis)
                             true None in
        if String.eqb (recommended_mode analysis) "agent" then
          match _process_agent_mode c session1 message ai with
          | (Raise e, session2, ai') => (Raise e, session2, ai')
          | (Return result, session2, ai') =>
              (Return (set_adaptive_analysis info result), session2, ai')
          end
        else
          let '(result, session2) := _process_chat_mode c session1 message in
          (Return (set_adaptive_analysis info result), session2, ai)
    end
  else
    let '(result, session1) := _process_chat_mode c session message in
    (Return (set_adaptive_analysis
               (mkAdaptiveAnalysis (intent analysis) (recommended_mode analysis)
                                   (confidence analysis) (reasoning analysis)
                                   false (Some true))
               result),
     session1, ai).

(** [process_message].  The session dictionary is mutated in place, so
    whatever has been done to it is stored even when the call raises. *)
Definition process_message (c : Collaborators) (sid : string) (message : string)
  (m : option ChatMode) (s : state) : outcome Reply * state :=
  let '(sid1, s1) :=
    match active_sessions s !! sid with
    | Some _ => (sid, s)
    | None => create_chat_session (clock c) (session_uuid c) (default ADAPTIVE m) None s
    end in
  match active_sessions s1 !! sid1 with
  | None => (Raise (KeyError sid1), s1)
  | Some session =>
      let session1 :=
        mkSession (session_id session) (user_id session)
                  (default (mode session) m)
                  (created_at session) (clock c) (S (message_count session))
                  (context session) (workspace_id session)
                  (task_history session) (preferences session) in
      let current_mode := mode session1 in
      let session2 :=
        append_context (mkContextEntry "user" message (clock c)
                                       (value current_mode) None None) session1 in
      let '(r, session3, ai') :=
        match current_mode with
        | ADAPTIVE => _process_adaptive_mode c session2 message (autonomous_ai s1)
        | AGENT => _process_agent_mode c session2 message (autonomous_ai s1)
        | CHAT =>
            let '(result, x) := _process_chat_mode c session2 message in
            (Return result, x, autonomous_ai s1)
        | CUSTOM =>
            let '(result, x) := _process_custom_mode c session2 message in
            (Return result, x, autonomous_ai s1)
        end in
      (r, mkState (<[sid1 := session3]> (active_sessions s1)) ai')
  end.

(** [switch_mode] *)
Definition switch_mode (now : Z) (sid : string) (new_mode : ChatMode) (s : state)
  : response (string * string) * state :=
  match active_sessions s !! sid with
  | None => (Err "Session not found", s)
  | Some session =>
      (Ok (value (mode session), value new_mode),
       mkState (<[sid :=
                   mkSession (session_id session) (user_id session) new_mode
                             (created_at session) now (message_count session)
                             (context session) (workspace_id session)
                             (task_history session) (preferences session)]>
                  (active_sessions s))
               (autonomous_ai s))
  end.

(** How a mode handler may change the session it is given: identity,
    counters and creation time stay, the context grows at the end. *)
Definition extends (x x' : Session) : Prop :=
  session_id x' = session_id x
  ∧ message_count x' = message_count x
  ∧ created_at x' = created_at x
  ∧ ∃ extra, context x' = context x ++ extra.

(** What a mode handler may answer for the session with id [sid], the
    classifier replies being complete: a reply carrying that id, or the
    [ValueError] of an enumeration lookup. *)
Definition answers (sid : string) (r : outcome Reply) : Prop :=
  (∃ reply, r = Return reply ∧ r_session_id reply = sid)
  ∨ (∃ v, r = Raise (ValueError v)).

(** The reply dictionary of [get_session_info]. *)
Record SessionInfo : Type := mkSessionInfo {
  si_session_id : string;
  si_mode : string;
  si_created_at : Z;
  si_last_activity : Z;
  si_message_count : nat;
  si_workspace_id : option string;
  si_task_count : nat;
  si_preferences : Preferences
}.

(** [get_session_info] *)
Definition get_session_info (sid : string) (s : state) : response SessionInfo :=
  match active_sessions s !! sid with
  | None => Err "Session not found"
  | Some session =>
      Ok (mkSessionInfo sid (value (mode session)) (created_at session)
            (last_activity session) (message_count session)
            (workspace_id session) (List.length (task_history session))
            (preferences session))
  end.

(** [cleanup_session]; the code engine is the one of [self.codeact_engine]. *)
Definition cleanup_session (sid : string) (s : state) (engine : CodeAct.state)
  : bool * state * CodeAct.state :=
  match active_sessions s !! sid with
  | Some session =>
      let engine' :=
        if CodeAct.falsy (workspace_id session) then engine
        else (CodeAct.cleanup_session (default "" (workspace_id session)) engine).2 in
      (true, mkState (delete sid (active_sessions s)) (autonomous_ai s), engine')
  | None => (false, s, engine)
  end.

(** A series of [process_message] calls on one session id. *)
Fixpoint process_all (sid : string)
  (calls : list (Collaborators * string * option ChatMode)) (s : state) : state :=
  match calls with
  | [] => s
  | (c, message, m) :: rest =>
      process_all sid rest (process_message c sid message m s).2
  end.

End ChatModes.

(** * core/global_chat.py *)

Module GlobalChat.

Inductive UserRole : Type :=
| GUEST | USER | CREATOR | FOUNDER | MODERATOR | ADMIN.

#[global] Instance UserRole_eq_dec : EqDecision UserRole.
Proof. solve_decision. Defined.

Inductive MessageType : Type :=
| TEXT | IMAGE | FILE | CODE | SYSTEM | ANNOUNCEMENT.

Record ChatUser : Type := mkChatUser {
  user_id : string;
  username : string;
  display_name : string;
  role : UserRole;
  avatar_url : string;
  status : string;
  joined_at : Z;
  last_seen : Z;
  message_count : nat;
  reputation : Z
}.

Record ChatMessage : Type := mkChatMessage {
  message_id : string;
  msg_user_id : string;
  msg_username : string;
  content : string;
  message_type : MessageType;
  msg_channel_id : string;
  timestamp : Z;
  edited_at : option Z;
  reply_to : option string;
  reactions : option (gmap string (list string));
  attachments : list string
}.

(** A channel is a dict in the source; [required_role] is an optional key. *)
Record Channel : Type := mkChannel {
  channel_id : string;
  name : string;
  description : string;
  type : string;
  required_role : option UserRole;
  created_by : string;
  created_at : Z;
  member_count : nat;
  ch_message_count : nat;
  rules : list string
}.

Record Limits : Type := mkLimits {
  messages_per_minute : Z;
  characters_per_message : Z
}.

(** [self.rate_limits] *)
Definition rate_limits (r : UserRole) : Limits :=
  match r with
  | GUEST => mkLimits 5 500
  | USER => mkLimits 10 1000
  | CREATOR => mkLimits 20 2000
  | FOUNDER => mkLimits 50 5000
  | MODERATOR => mkLimits 100 10000
  | ADMIN => mkLimits 1000 50000
  end.

(** [self.max_messages_per_channel] *)
Definition max_messages_per_channel : nat := 1000.

Record state : Type := mkState {
  users : gmap string ChatUser;
  channels : gmap string Channel;
  messages : list (string * list ChatMessage);
  active_connections : gmap string (gset string);
  user_connections : gmap string string;
  user_message_history : gmap string (list Z)
}.

Definition set_users (f : gmap string ChatUser → gmap string ChatUser) (s : state) : state :=
  mkState (f (users s)) (channels s) (messages s) (active_connections s)
          (user_connections s) (user_message_history s).

Definition set_channels (f : gmap string Channel → gmap string Channel) (s : state) : state :=
  mkState (users s) (f (channels s)) (messages s) (active_connections s)
          (user_connections s) (user_message_history s).

Definition set_messages
  (f : list (string * list ChatMessage) → list (string * list ChatMessage))
  (s : state) : state :=
  mkState (users s) (channels s) (f (messages s)) (active_connections s)
          (user_connections s) (user_message_history s).

Definition set_active_connections
  (f : gmap string (gset string) → gmap string (gset string)) (s : state) : state :=
  mkState (users s) (channels s) (messages s) (f (active_connections s))
          (user_connections s) (user_message_history s).

Definition set_user_message_history
  (f : gmap string (list Z) → gmap string (list Z)) (s : state) : state :=
  mkState (users s) (channels s) (messages s) (active_connections s)
          (user_connections s) (f (user_message_history s)).

(** [_initialize_default_channels] *)
Definition default_channels (now : Z) : list Channel :=
  [ mkChannel "general" "General" "General discussion about Valis AI"
      "public" None "system" now 0 0
      [ "Be respectful to all community members";
        "No spam or excessive self-promotion";
        "Keep discussions relevant to AI and technology";
        "Use appropriate language" ];
    mkChannel "creators" "Creators Hub" "For creators building with Valis AI"
      "public" None "system" now 0 0
      [ "Share your creations and get feedback";
        "Collaborate on projects";
        "Help other creators" ];
    mkChannel "founders" "Founders Circle"
      "Exclusive channel for founders and entrepreneurs"
      "restricted" (Some FOUNDER) "system" now 0 0
      [ "Business strategy discussions";
        "Networking and partnerships";
        "Exclusive founder insights" ];
    mkChannel "support" "Support" "Get help with Valis AI"
      "public" None "system" now 0 0
      [ "Ask questions about using Valis AI";
        "Report bugs and issues";
        "Get technical support" ];
    mkChannel "announcements" "Announcements" "Official Valis AI announcements"
      "read_only" None "system" now 0 0
      [ "Official announcements only";
        "Product updates and news";
        "Community events" ] ].

Definition _initialize_default_channels (now : Z) (s : state) : state :=
  foldl (λ s ch,
           set_active_connections (<[channel_id ch := ∅]>)
             (set_messages (odict_set (channel_id ch) [])
                (set_channels (<[channel_id ch := ch]>) s)))
        s (default_channels now).

(** [GlobalChatSystem.__init__] *)
Definition init (now : Z) : state :=
  _initialize_default_channels now (mkState ∅ ∅ [] ∅ ∅ ∅).

(** [register_user] *)
Definition register_user (now : Z) (uid uname dname : string) (r : UserRole)
  (s : state) : ChatUser * state :=
  let chat_user := mkChatUser uid uname dname r "" "online" now now 0 0 in
  (chat_user,
   set_user_message_history (<[uid := []]>) (set_users (<[uid := chat_user]>) s)).

(** [_has_role_or_higher] *)
Definition role_hierarchy : list UserRole :=
  [GUEST; USER; CREATOR; FOUNDER; MODERATOR; ADMIN].

Fixpoint list_index (r : UserRole) (l : list UserRole) : option nat :=
  match l with
  | [] => None
  | x :: l' => if decide (x = r) then Some 0 else S <$> list_index r l'
  end.

Definition _has_role_or_higher (user_role required : UserRole) : bool :=
  match list_index user_role role_hierarchy, list_index required role_hierarchy with
  | Some user_level, Some required_level => required_level <=? user_level
  | _, _ => false
  end.

(** The role order of the specification, GUEST < USER < CREATOR < FOUNDER <
    MODERATOR < ADMIN, as ranks; [_has_role_or_higher] is compared with it
    below. *)
Definition role_rank (r : UserRole) : nat :=
  match r with
  | GUEST => 0 | USER => 1 | CREATOR => 2
  | FOUNDER => 3 | MODERATOR => 4 | ADMIN => 5
  end.

(** [_can_user_send_message] *)
Definition _can_user_send_message (user : ChatUser) (channel : Channel) : bool :=
  if String.eqb (type channel) "read_only" then
    bool_decide (role user ∈ [MODERATOR; ADMIN])
  else if String.eqb (type channel) "restricted" then
    _has_role_or_higher (role user) (default USER (required_role channel))
  else true.

(** [_can_user_join_channel] *)
Definition _can_user_join_channel (user : ChatUser) (channel : Channel) : bool :=
  if String.eqb (type channel) "restricted" then
    _has_role_or_higher (role user) (default USER (required_role channel))
  else true.

(** [_check_rate_limit].  The pruned window is stored before either check. *)
Definition _check_rate_limit (now : Z) (uid : string) (text : string) (s : state)
  : outcome bool * state :=
  match users s !! uid with
  | None => (Raise (KeyError uid), s)
  | Some user =>
      let limits := rate_limits (role user) in
      match user_message_history s !! uid with
      | None => (Raise (KeyError uid), s)
      | Some history =>
          let recent := filter (λ msg_time, (now - msg_time < 60)%Z) history in
          let s1 := set_user_message_history (<[uid := recent]>) s in
          if (messages_per_minute limits <=? Z.of_nat (List.length recent))%Z then
            (Return false, s1)
          else if (characters_per_message limits <? Z.of_nat (py_len text))%Z then
            (Return false, s1)
          else
            (Return true, set_user_message_history (<[uid := recent ++ [now]]>) s1)
      end
  end.

(** [_broadcast_message], [_broadcast_user_status], [_broadcast_reaction_update]:
    the loop bodies are [pass], so nothing is delivered and no connection is
    ever discarded. *)
Definition _broadcast (s : state) : state := s.

(** [self.messages[channel_id].append(message)] followed by the cut back to
    the last [max_messages_per_channel] entries. *)
Definition stored_after (stored : list ChatMessage) (m : ChatMessage)
  : list ChatMessage :=
  let appended := stored ++ [m] in
  if max_messages_per_channel <? List.length appended
  then slice_last max_messages_per_channel appended
  else appended.

(** [send_message].  The source reads the clock three times: in
    [_check_rate_limit], for the timestamp of the message, which is also the
    time of the reply, and for [last_seen]. *)
Definition send_message_at (checked_at sent_at seen_at : Z) (fresh_uuid : string)
  (uid cid text : string) (mt : MessageType) (reply : option string) (s : state)
  : outcome (response (string * Z)) * state :=
  match users s !! uid with
  | None => (Return (Err "User not found"), s)
  | Some user =>
  match channels s !! cid with
  | None => (Return (Err "Channel not found"), s)
  | Some channel =>
  if negb (_can_user_send_message user channel) then
    (Return (Err "Permission denied"), s)
  else
  match _check_rate_limit checked_at uid text s with
  | (Raise e, s1) => (Raise e, s1)
  | (Return false, s1) => (Return (Err "Rate limit exceeded"), s1)
  | (Return true, s1) =>
      let message :=
        mkChatMessage fresh_uuid uid (username user) text mt cid sent_at
                      None reply (Some ∅) [] in
      match odict_get cid (messages s1) with
      | None => (Raise (KeyError cid), s1)
      | Some stored =>
          let s2 := set_messages (odict_set cid (stored_after stored message)) s1 in
          let user' :=
            mkChatUser (user_id user) (username user) (display_name user)
                       (role user) (avatar_url user) (status user)
                       (joined_at user) seen_at (S (message_count user))
                       (reputation user) in
          let channel' :=
            mkChannel (channel_id channel) (name channel) (description channel)
                      (type channel) (required_role channel) (created_by channel)
                      (created_at channel) (member_count channel)
                      (S (ch_message_count channel)) (rules channel) in
          let s3 := set_channels (<[cid := channel']>)
                      (set_users (<[uid := user']>) s2) in
          (Return (Ok (fresh_uuid, sent_at)), _broadcast s3)
      end
  end
  end
  end.

(** [send_message] with one reading [now] standing for the three. *)
Definition send_message (now : Z) (fresh_uuid : string)
  (uid cid text : string) (mt : MessageType) (reply : option string) (s : state)
  : outcome (response (string * Z)) * state :=
  send_message_at now now now fresh_uuid uid cid text mt reply s.

(** [connect_user].  The read-only projections ['channels'] and
    ['online_users'] of the reply are left out of the payload. *)
Definition connect_user (now : Z) (uid ws : string) (s : state)
  : outcome (response (string * string)) * state :=
  match users s !! uid with
  | None => (Return (Err "User not registered"), s)
  | Some user =>
      let user' :=
        mkChatUser (user_id user) (username user) (display_name user)
                   (role user) (avatar_url user) "online"
                   (joined_at user) now (message_count user) (reputation user) in
      let s1 := set_users (<[uid := user']>) s in
      let s2 := mkState (users s1) (channels s1) (messages s1)
                        (active_connections s1)
                        (<[ws := uid]> (user_connections s1))
                        (user_message_history s1) in
      match active_connections s2 !! "general" with
      | None => (Raise (KeyError "general"), s2)
      | Some conns =>
          let s3 := set_active_connections (<["general" := {[ws]} ∪ conns]>) s2 in
          (Return (Ok (uid, username user)), _broadcast s3)
      end
  end.

(** [disconnect_user] *)
Definition disconnect_user (now : Z) (ws : string) (s : state)
  : response string * state :=
  match user_connections s !! ws with
  | None => (Err "Connection not found", s)
  | Some uid =>
      let s1 :=
        match users s !! uid with
        | Some user =>
            set_users (<[uid :=
              mkChatUser (user_id user) (username user) (display_name user)
                         (role user) (avatar_url user) "offline"
                         (joined_at user) now (message_count user)
                         (reputation user)]>) s
        | None => s
        end in
      let s2 := set_active_connections (fmap (λ conns, conns ∖ {[ws]})) s1 in
      let s3 := mkState (users s2) (channels s2) (messages s2)
                        (active_connections s2)
                        (delete ws (user_connections s2))
                        (user_message_history s2) in
      (Ok uid, _broadcast s3)
  end.

(** [join_channel]: the payload is the channel record and
    [self.messages[channel_id][-50:]]. *)
Definition join_channel (uid cid ws : string) (s : state)
  : outcome (response (Channel * list ChatMessage)) * state :=
  match users s !! uid with
  | None => (Return (Err "User not found"), s)
  | Some user =>
  match channels s !! cid with
  | None => (Return (Err "Channel not found"), s)
  | Some channel =>
  if negb (_can_user_join_channel user channel) then
    (Return (Err "Permission denied"), s)
  else
  match active_connections s !! cid with
  | None => (Raise (KeyError cid), s)
  | Some conns =>
      let s1 := set_active_connections (<[cid := {[ws]} ∪ conns]>) s in
      match odict_get cid (messages s1) with
      | None => (Raise (KeyError cid), s1)
      | Some stored => (Return (Ok (channel, slice_last 50 stored)), s1)
      end
  end
  end
  end.

(** [leave_channel] *)
Definition leave_channel (uid cid ws : string) (s : state) : string * state :=
  (cid,
   match active_connections s !! cid with
   | Some conns => set_active_connections (<[cid := conns ∖ {[ws]}]>) s
   | None => s
   end).

(** [_find_message]: the first message with the given id, channels in
    insertion order.  Next to the message the model returns where it sits
    (position of the channel, index in its list), which stands for the
    identity of the Python object that [add_reaction] then mutates. *)
Fixpoint find_in_channel (mid : string) (l : list ChatMessage)
  : option (nat * ChatMessage) :=
  match l with
  | [] => None
  | m :: l' =>
      if String.eqb (message_id m) mid then Some (0, m)
      else prod_map S id <$> find_in_channel mid l'
  end.

Fixpoint find_in_channels (mid : string) (d : list (string * list ChatMessage))
  : option (nat * nat * ChatMessage) :=
  match d with
  | [] => None
  | (_, l) :: d' =>
      match find_in_channel mid l with
      | Some (i, m) => Some (0, i, m)
      | None => prod_map (prod_map S id) id <$> find_in_channels mid d'
      end
  end.

Definition _find_message (mid : string) (s : state)
  : option (nat * nat * ChatMessage) :=
  find_in_channels mid (messages s).

Definition set_reactions (r : gmap string (list string)) (m : ChatMessage)
  : ChatMessage :=
  mkChatMessage (message_id m) (msg_user_id m) (msg_username m) (content m)
                (message_type m) (msg_channel_id m) (timestamp m) (edited_at m)
                (reply_to m) (Some r) (attachments m).

(** Writing through the reference returned by [_find_message]. *)
Definition store_message (c i : nat) (m : ChatMessage)
  (d : list (string * list ChatMessage)) : list (string * list ChatMessage) :=
  alter (λ kv, (kv.1, <[i := m]> kv.2)) c d.

(** The three mutations of [add_reaction] on the reactions dictionary. *)
Definition react (uid emoji : string) (r0 : option (gmap string (list string)))
  : gmap string (list string) :=
  let r1 := default ∅ r0 in
  let r2 := match r1 !! emoji with
            | None => <[emoji := []]> r1
            | Some _ => r1
            end in
  let reactors := default [] (r2 !! emoji) in
  if bool_decide (uid ∈ reactors) then r2
  else <[emoji := reactors ++ [uid]]> r2.

(** [add_reaction] *)
Definition add_reaction (uid mid emoji : string) (s : state)
  : response (string * string) * state :=
  match _find_message mid s with
  | None => (Err "Message not found", s)
  | Some (c, i, message) =>
      let message' := set_reactions (react uid emoji (reactions message)) message in
      (Ok (mid, emoji), _broadcast (set_messages (store_message c i message') s))
  end.

(** ** The operations as a labelled transition system *)

Inductive op : Type :=
| OpRegister (now : Z) (uid uname dname : string) (r : UserRole)
| OpConnect (now : Z) (uid ws : string)
| OpDisconnect (now : Z) (ws : string)
| OpSend (now : Z) (fresh_uuid uid cid text : string) (mt : MessageType)
         (reply : option string)
| OpJoin (uid cid ws : string)
| OpLeave (uid cid ws : string)
| OpReact (uid mid emoji : string).

Definition step (o : op) (s : state) : state :=
  match o with
  | OpRegister now uid uname dname r => (register_user now uid uname dname r s).2
  | OpConnect now uid ws => (connect_user now uid ws s).2
  | OpDisconnect now ws => (disconnect_user now ws s).2
  | OpSend now u uid cid text mt reply => (send_message now u uid cid text mt reply s).2
  | OpJoin uid cid ws => (join_channel uid cid ws s).2
  | OpLeave uid cid ws => (leave_channel uid cid ws s).2
  | OpReact uid mid emoji => (add_reaction uid mid emoji s).2
  end.

(** The states of a running system: [init] followed by any calls. *)
Definition run (ops : list op) (s : state) : state := foldl (λ s o, step o s) s ops.

Definition reachable (s : state) : Prop := ∃ t0 ops, s = run ops (init t0).

(** [check_all now uid texts s]: one [_check_rate_limit] call per text, at
    the given clock readings, collecting the verdicts. *)
Fixpoint check_all (uid : string) (attempts : list (Z * string)) (s : state)
  : list (outcome bool) * state :=
  match attempts with
  | [] => ([], s)
  | (now, text) :: rest =>
      let '(r, s1) := _check_rate_limit now uid text s in
      let '(rs, s2) := check_all uid rest s1 in
      (r :: rs, s2)
  end.

(** ** Consistency of the registries

    What [__init__] establishes and every operation keeps: each channel has
    its message list and its connection set, each user has a window, no
    channel stores more than [max_messages_per_channel] messages, and no
    user appears twice under one emoji. *)
Definition reactions_ok (m : ChatMessage) : Prop :=
  ∀ r emoji reactors,
    reactions m = Some r → r !! emoji = Some reactors → NoDup reactors.

Record wf (s : state) : Prop := mkWf {
  wf_channels : ∀ cid, is_Some (channels s !! cid) →
      is_Some (active_connections s !! cid) ∧ is_Some (odict_get cid (messages s));
  wf_users : ∀ uid, is_Some (users s !! uid) →
      is_Some (user_message_history s !! uid);
  wf_messages : Forall (λ kv, List.length kv.2 ≤ max_messages_per_channel
                              ∧ Forall reactions_ok kv.2) (messages s)
}.

(** A request to [send_message] on a given channel. *)
Record send_request : Type := mkSendRequest {
  req_now : Z;
  req_uuid : string;
  req_user : string;
  req_text : string;
  req_type : MessageType;
  req_reply : option string
}.

(** The message object [send_message] builds for a request. *)
Definition message_of (cid : string) (uname : string) (q : send_request)
  : ChatMessage :=
  mkChatMessage (req_uuid q) (req_user q) uname (req_text q) (req_type q) cid
                (req_now q) None (req_reply q) (Some ∅) [].

(** A run of sends on one channel that all answer ['status': 'sent']; the
    result is the messages sent, oldest first, and the final state. *)
Fixpoint send_all (cid : string) (reqs : list send_request) (s : state)
  : option (list ChatMessage * state) :=
  match reqs with
  | [] => Some ([], s)
  | q :: rest =>
      match send_message (req_now q) (req_uuid q) (req_user q) cid (req_text q)
                         (req_type q) (req_reply q) s with
      | (Return (Ok _), s1) =>
          match users s !! req_user q, send_all cid rest s1 with
          | Some user, Some (sent, s2) =>
              Some (message_of cid (username user) q :: sent, s2)
          | _, _ => None
          end
      | _ => None
      end
  end.

(** [n] requests of one user on a channel, one per time unit from [t0] on,
    with the decimal numerals as message ids and texts. *)
Definition numbered_requests (uid : string) (t0 : Z) (n : nat)
  : list send_request :=
  (λ i, mkSendRequest (t0 + Z.of_nat i) (pretty i) uid (pretty i) TEXT None)
    <$> seq 0 n.

(** [_check_rate_limit] seen from the caller's window: the verdict and the
    window that is stored. *)
Definition window_check (limits : Limits) (now : Z) (message_length : nat)
  (window : list Z) : bool * list Z :=
  let recent := filter (λ t, (now - t < 60)%Z) window in
  if decide (messages_per_minute limits ≤ Z.of_nat (List.length recent))%Z
  then (false, recent)
  else if decide (characters_per_message limits < Z.of_nat message_length)%Z
  then (false, recent)
  else (true, recent ++ [now]).


(** [message_type.value] *)
Definition MessageType_value (mt : MessageType) : string :=
  match mt with
  | TEXT => "text" | IMAGE => "image" | FILE => "file"
  | CODE => "code" | SYSTEM => "system" | ANNOUNCEMENT => "announcement"
  end.

(** The dictionary built by [_message_to_dict]. *)
Record MessageDict : Type := mkMessageDict {
  md_message_id : string;
  md_user_id : string;
  md_username : string;
  md_content : string;
  md_message_type : string;
  md_channel_id : string;
  md_timestamp : Z;
  md_edited_at : option Z;
  md_reply_to : option string;
  md_reactions : gmap string (list string);
  md_attachments : list string
}.

(** [_message_to_dict] *)
Definition _message_to_dict (m : ChatMessage) : MessageDict :=
  mkMessageDict (message_id m) (msg_user_id m) (msg_username m) (content m)
                (MessageType_value (message_type m)) (msg_channel_id m)
                (timestamp m) (edited_at m) (reply_to m)
                (default ∅ (reactions m)) (attachments m).

(** [l[-n:]] for an integer [n] that is not zero: the last [n] elements for
    a positive [n], and [l[k:]] for [n = -k]. *)
Definition slice_from (n : Z) (l : list ChatMessage) : list ChatMessage :=
  if (0 <? n)%Z then drop (List.length l - Z.to_nat n) l
  else drop (Z.to_nat (- n)) l.

(** [get_channel_messages]; [limit] and [before] are tested for truth, so
    a limit of 0 and a bound of 0 count as absent. *)
Definition get_channel_messages (cid : string) (limit : Z) (before : option Z)
  (s : state) : list MessageDict :=
  match odict_get cid (messages s) with
  | None => []
  | Some stored =>
      let selected :=
        match before with
        | Some b => if (b =? 0)%Z then stored
                    else filter (λ msg, (timestamp msg < b)%Z) stored
        | None => stored
        end in
      let recent := if (limit =? 0)%Z then selected else slice_from limit selected in
      _message_to_dict <$> recent
  end.

(** The counters of [get_chat_stats]. *)
Record ChatStats : Type := mkChatStats {
  total_users : nat;
  online_users : nat;
  total_channels : nat;
  total_messages : nat
}.

(** [get_chat_stats], without the per-channel list. *)
Definition get_chat_stats (s : state) : ChatStats :=
  mkChatStats (size (users s))
              (size (filter (λ kv, status kv.2 = "online") (users s)))
              (size (channels s))
              (sum_list (List.length <$> (messages s).*2)).

(** An entry of the list built by [_get_user_channels]. *)
Record ChannelSummary : Type := mkChannelSummary {
  sum_name : string;
  sum_description : string;
  sum_type : string;
  sum_member_count : nat;
  sum_message_count : nat
}.

(** [_get_user_channels]; the list, one entry per channel id, is given as
    the map from the channel ids to the entries. *)
Definition _get_user_channels (uid : string) (s : state)
  : outcome (gmap string ChannelSummary) :=
  match users s !! uid with
  | None => Raise (KeyError uid)
  | Some user =>
      Return (map_imap
                (λ cid channel,
                   if _can_user_join_channel user channel then
                     Some (mkChannelSummary (name channel) (description channel)
                             (type channel)
                             (size (default ∅ (active_connections s !! cid)))
                             (ch_message_count channel))
                   else None)
                (channels s))
  end.

(** The ids of the channels created by [__init__]. *)
Definition default_channel_ids : list string :=
  ["general"; "creators"; "founders"; "support"; "announcements"].

(** What no operation changes about the channels: which ones exist, under
    which keys the messages are kept, and each channel's type and required
    role. *)
Record static (t0 : Z) (s : state) : Prop := mkStatic {
  static_keys : (messages s).*1 = default_channel_ids;
  static_channels : ∀ cid,
      option_Forall2 (λ ch ch0, channel_id ch = cid ∧ type ch = type ch0
                                ∧ required_role ch = required_role ch0)
                     (channels s !! cid) (channels (init t0) !! cid)
}.

(** Stored messages sit under their own channel id, and no window is longer
    than the quota of its user's role. *)
Record tidy (s : state) : Prop := mkTidy {
  tidy_channel : Forall (λ kv, Forall (λ m, msg_channel_id m = kv.1) kv.2)
                        (messages s);
  tidy_quota : ∀ uid user window,
      users s !! uid = Some user → user_message_history s !! uid = Some window →
      (Z.of_nat (List.length window) ≤ messages_per_minute (rate_limits (role user)))%Z
}.

End GlobalChat.

(** * Properties of core/global_chat.py *)

Section RateLimiter.
Import GlobalChat.

Lemma set_history_twice f g s :
  set_user_message_history f (set_user_message_history g s)
  = set_user_message_history (f ∘ g) s.
Proof. reflexivity. Qed.

Lemma set_history_insert_id uid (h : list Z) s :
  user_message_history s !! uid = Some h →
  set_user_message_history (<[uid := h]>) s = s.
Proof.
  intros Hh. destruct s as [us cs ms ac uc hist]; unfold set_user_message_history; simpl in *.
  f_equal. by apply insert_id.
Qed.

(** Each call of [_check_rate_limit] on a registered user is one step of
    [window_check] on that user's window. *)
Lemma check_rate_limit_window now uid text s user h :
  users s !! uid = Some user →
  user_message_history s !! uid = Some h →
  _check_rate_limit now uid text s
  = (Return (window_check (rate_limits (role user)) now (py_len text) h).1,
     set_user_message_history
       (<[uid := (window_check (rate_limits (role user)) now (py_len text) h).2]>) s).
Proof.
  intros Hu Hh. unfold _check_rate_limit, window_check. rewrite Hu, Hh.
  destruct (Z.leb_spec (messages_per_minute (rate_limits (role user)))
              (Z.of_nat (List.length (filter (λ t, (now - t < 60)%Z) h)))) as [Hc|Hc].
  - rewrite decide_True by lia. reflexivity.
  - rewrite (decide_False (P := (_ ≤ _)%Z)) by lia.
    destruct (Z.ltb_spec (characters_per_message (rate_limits (role user)))
                (Z.of_nat (py_len text))) as [Hl|Hl].
    + rewrite decide_True by lia. reflexivity.
    + rewrite decide_False by lia. simpl.
      rewrite set_history_twice. unfold set_user_message_history; simpl.
      by rewrite insert_insert_eq.
Qed.

Lemma limits_positive r : (1 ≤ messages_per_minute (rate_limits r))%Z.
Proof. destruct r; simpl; lia. Qed.

Lemma filter_keeps_all (now : Z) (h : list Z) :
  (∀ t, t ∈ h → (now - t < 60)%Z) →
  filter (λ t, (now - t < 60)%Z) h = h.
Proof.
  induction h as [|x h IH]; intros Hall; [done|].
  rewrite filter_cons_True by (apply Hall; left).
  f_equal. apply IH. intros t Ht. apply Hall. by right.
Qed.










(** [len] counts characters, not bytes: 300 times the two-byte letter
    e-acute is within the 500 characters of a GUEST. *)
Example rate_limit_counts_characters :
  let s0 := (register_user 0 "u1" "ann" "Ann" GUEST (init 0)).2 in
  let text := String.concat "" (replicate 300 "é") in
  String.length text = 600
  ∧ py_len text = 300
  ∧ (_check_rate_limit 0 "u1" text s0).1 = Return true.
Proof. vm_compute. done. Qed.

(** A rejected call still stores the pruned window: a GUEST with one
    timestamp at time 0 sends 501 characters at time 100; the call answers
    [False] and the window [[0]] has become empty. *)
Lemma rejection_changes_window_counterexample :
  let s0 := (register_user 0 "u1" "ann" "Ann" GUEST (init 0)).2 in
  let s1 := (_check_rate_limit 0 "u1" "hello" s0).2 in
  let long := str_repeat "x" 501 in
  user_message_history s1 !! "u1" = Some [0%Z]
  ∧ (_check_rate_limit 100 "u1" long s1).1 = Return false
  ∧ user_message_history (_check_rate_limit 100 "u1" long s1).2 !! "u1" = Some []
  ∧ (_check_rate_limit 100 "u1" long s1).2 ≠ s1.
Proof.
  intros s0 s1 long.
  assert (H1 : user_message_history s1 !! "u1" = Some [0%Z]) by (vm_compute; reflexivity).
  assert (H3 : user_message_history (_check_rate_limit 100 "u1" long s1).2 !! "u1"
               = Some []) by (vm_compute; reflexivity).
  split; [exact H1|]. split; [vm_compute; reflexivity|]. split; [exact H3|].
  intros Heq. rewrite Heq, H1 in H3. discriminate.
Qed.

(** C8 (as amended).  A call of [_check_rate_limit] that answers [False]
    records no timestamp.  Its only effect is that the caller's window has
    been pruned of the timestamps aged 60 or more; users, channels, messages,
    connections and the windows of the other users are as before, and when
    nothing in the window had expired the whole state is unchanged. *)
Theorem rejection_only_prunes now uid text s s' :
  _check_rate_limit now uid text s = (Return false, s') →
  ∃ h : list Z,
    user_message_history s !! uid = Some h
    ∧ s' = set_user_message_history
             (<[uid := filter (λ t, (now - t < 60)%Z) h]>) s
    ∧ filter (λ t, (now - t < 60)%Z) h `sublist_of` h
    ∧ ((∀ t, t ∈ h → (now - t < 60)%Z) → s' = s).
Proof.
  unfold _check_rate_limit. intros Hcall.
  destruct (users s !! uid) as [user|]; [|discriminate].
  destruct (user_message_history s !! uid) as [h|] eqn:Hh; [|discriminate].
  exists h. split; [done|].
  assert (Hs' : s' = set_user_message_history
                       (<[uid := filter (λ t, (now - t < 60)%Z) h]>) s).
  { repeat case_match; congruence. }
  split; [done|]. split.
  - apply sublist_filter.
  - intros Hall. rewrite Hs', filter_keeps_all by done.
    by apply set_history_insert_id.
Qed.

Lemma rejection_only_prunes_witness :
  let s0 := (register_user 0 "u1" "ann" "Ann" GUEST (init 0)).2 in
  let s1 := (_check_rate_limit 0 "u1" "hello" s0).2 in
  let long := str_repeat "x" 501 in
  ∃ h : list Z,
    user_message_history s1 !! "u1" = Some h
    ∧ (_check_rate_limit 100 "u1" long s1).2
      = set_user_message_history
          (<["u1" := filter (λ t, (100 - t < 60)%Z) h]>) s1.
Proof.
  intros s0 s1 long.
  destruct (rejection_only_prunes 100 "u1" long s1
              (_check_rate_limit 100 "u1" long s1).2) as (h & Hh & Hs' & _).
  - vm_compute. reflexivity.
  - exists h. split; [exact Hh | exact Hs'].
Defined.

(** C10.  [register_user] does not look at what is stored: whatever the
    state, afterwards the id maps to the freshly built record (the supplied
    role, [message_count] 0, [reputation] 0) and to an empty window, so the
    verdict of the next rate check depends on the length of the text, in
    characters, alone. *)
Theorem register_user_resets now uid uname dname r s now' text :
  let s' := (register_user now uid uname dname r s).2 in
  users s' !! uid = Some (mkChatUser uid uname dname r "" "online" now now 0 0)
  ∧ (register_user now uid uname dname r s).1
    = mkChatUser uid uname dname r "" "online" now now 0 0
  ∧ message_count (register_user now uid uname dname r s).1 = 0
  ∧ reputation (register_user now uid uname dname r s).1 = 0%Z
  ∧ role (register_user now uid uname dname r s).1 = r
  ∧ user_message_history s' !! uid = Some []
  ∧ (_check_rate_limit now' uid text s').1
    = Return (bool_decide (Z.of_nat (py_len text)
                           ≤ characters_per_message (rate_limits r))%Z).
Proof.
  intros s'.
  assert (Hu : users s' !! uid
               = Some (mkChatUser uid uname dname r "" "online" now now 0 0))
    by (subst s'; simpl; apply lookup_insert_eq).
  assert (Hh : user_message_history s' !! uid = Some [])
    by (subst s'; simpl; apply lookup_insert_eq).
  repeat split; try done.
  rewrite (check_rate_limit_window _ _ _ _ _ _ Hu Hh). simpl.
  unfold window_check. rewrite filter_nil. simpl.
  pose proof (limits_positive r).
  rewrite (decide_False (P := (_ ≤ _)%Z)) by lia.
  case_decide; case_bool_decide; (done || lia).
Qed.

(** Re-registration forgets an exhausted window: a GUEST who has used up the
    five messages of the minute is accepted again right after registering a
    second time. *)
Example register_user_clears_exhausted_window :
  let s0 := (register_user 0 "u1" "ann" "Ann" GUEST (init 0)).2 in
  let s1 := (check_all "u1" [(0, "a"); (1, "b"); (2, "c"); (3, "d"); (4, "e")]%Z s0).2 in
  let s2 := (register_user 5 "u1" "ann" "Ann" CREATOR s1).2 in
  message_count <$> users s2 !! "u1" = Some 0
  ∧ role <$> users s2 !! "u1" = Some CREATOR
  ∧ (_check_rate_limit 5 "u1" "f" s1).1 = Return false
  ∧ (_check_rate_limit 5 "u1" "f" s2).1 = Return true.
Proof. vm_compute. done. Qed.

End RateLimiter.

(** ** Ordered dictionaries and slices *)

Section Odict.
Context {V : Type}.
Implicit Types (d : list (string * V)) (k : string) (v : V).

Lemma odict_get_set_eq k v d : odict_get k (odict_set k v d) = Some v.
Proof.
  induction d as [|[k' v'] d IH]; simpl.
  - by rewrite String.eqb_refl.
  - destruct (String.eqb k k') eqn:E; simpl; rewrite E; [done | exact IH].
Qed.

Lemma odict_get_set_ne k k' v d :
  k ≠ k' → odict_get k' (odict_set k v d) = odict_get k' d.
Proof.
  intros Hne. induction d as [|[k0 v0] d IH]; simpl.
  - destruct (String.eqb_spec k' k); [congruence | done].
  - destruct (String.eqb_spec k k0) as [->|Hk]; simpl.
    + destruct (String.eqb_spec k' k0); [congruence | done].
    + by rewrite IH.
Qed.

Lemma odict_get_set_is_Some k k' v d :
  is_Some (odict_get k' d) → is_Some (odict_get k' (odict_set k v d)).
Proof.
  destruct (decide (k = k')) as [->|Hne].
  - rewrite odict_get_set_eq. eauto.
  - by rewrite odict_get_set_ne.
Qed.

Lemma odict_set_Forall (P : string * V → Prop) k v d :
  (∀ k0, P (k0, v)) → Forall P d → Forall P (odict_set k v d).
Proof.
  intros Hv. induction 1 as [|[k' v'] d Hx Hd IH]; simpl.
  - by constructor.
  - destruct (String.eqb k k'); constructor; auto.
Qed.

Lemma odict_get_elem k v d : odict_get k d = Some v → (k, v) ∈ d.
Proof.
  induction d as [|[k' v'] d IH]; simpl; [done|].
  destruct (String.eqb_spec k k') as [->|Hne].
  - intros [= ->]. left.
  - intros H. right. auto.
Qed.

End Odict.

Lemma slice_last_length {A} n (l : list A) : 0 < n → List.length (slice_last n l) ≤ n.
Proof. destruct n; [lia|]. intros _. unfold slice_last. rewrite length_drop. lia. Qed.

Lemma slice_last_short {A} n (l : list A) : List.length l ≤ n → slice_last n l = l.
Proof.
  destruct n; [done|]. intros H. unfold slice_last.
  by replace (List.length l - S n) with 0 by lia.
Qed.

Lemma slice_last_app_slice {A} n (l x : list A) :
  0 < n → slice_last n (slice_last n l ++ x) = slice_last n (l ++ x).
Proof.
  intros Hn. destruct (decide (List.length l ≤ n)) as [Hle|Hgt].
  { by rewrite (slice_last_short n l). }
  destruct n as [|n]; [lia|]. unfold slice_last.
  rewrite !length_app, length_drop.
  replace (List.length l - (List.length l - S n) + List.length x - S n)
    with (List.length x) by lia.
  replace (List.length l + List.length x - S n)
    with ((List.length l - S n) + List.length x) by lia.
  rewrite <- drop_drop. f_equal.
  rewrite drop_app_le by lia. done.
Qed.

Lemma slice_last_sublist {A} n (l : list A) : slice_last n l `sublist_of` l.
Proof. destruct n; [done|]. apply sublist_drop. Qed.

(** ** The registries stay consistent *)

Section Registries.
Import GlobalChat.

Lemma wf_init t0 : wf (init t0).
Proof.
  split.
  - intros cid [ch Hch]. unfold init, _initialize_default_channels in *. simpl in *.
    repeat (apply lookup_insert_Some in Hch as [[<- _]|[_ Hch]];
            [split; vm_compute; eauto|]).
    by rewrite lookup_empty in Hch.
  - intros uid [u Hu]. simpl in Hu. by rewrite lookup_empty in Hu.
  - unfold init. simpl. repeat constructor; simpl; lia.
Qed.

Lemma wf_set_history f s :
  (∀ uid, is_Some (users s !! uid) → is_Some (f (user_message_history s) !! uid)) →
  wf s → wf (set_user_message_history f s).
Proof. intros Hf [H1 H2 H3]. split; simpl; auto. Qed.

Lemma wf_set_active f s :
  (∀ cid, is_Some (active_connections s !! cid) →
          is_Some (f (active_connections s) !! cid)) →
  wf s → wf (set_active_connections f s).
Proof.
  intros Hf [H1 H2 H3]. split; simpl; auto.
  intros cid Hc. destruct (H1 cid Hc). auto.
Qed.

Lemma wf_touch_user uid u s :
  is_Some (users s !! uid) → wf s → wf (set_users (<[uid := u]>) s).
Proof.
  intros Hu [H1 H2 H3]. split; simpl; auto.
  intros uid' Hu'. destruct (decide (uid = uid')) as [<-|Hne]; [auto|].
  rewrite lookup_insert_ne in Hu' by done. auto.
Qed.

Lemma wf_touch_channel cid ch s :
  is_Some (channels s !! cid) → wf s → wf (set_channels (<[cid := ch]>) s).
Proof.
  intros Hc [H1 H2 H3]. split; simpl; auto.
  intros cid' Hc'. destruct (decide (cid = cid')) as [<-|Hne]; [auto|].
  rewrite lookup_insert_ne in Hc' by done. auto.
Qed.

Lemma insert_preserves_is_Some {V} (m : gmap string V) k v k' :
  is_Some (m !! k') → is_Some (<[k := v]> m !! k').
Proof.
  intros H. destruct (decide (k = k')) as [->|Hne].
  - rewrite lookup_insert_eq. eauto.
  - by rewrite lookup_insert_ne.
Qed.

Lemma wf_check_rate_limit now uid text s :
  wf s → wf (_check_rate_limit now uid text s).2.
Proof.
  intros Hwf. unfold _check_rate_limit.
  destruct (users s !! uid) as [user|]; [|done].
  destruct (user_message_history s !! uid) as [h|]; [|done].
  repeat case_match; simpl;
    repeat (apply wf_set_history;
            [intros uid' Hu'; apply insert_preserves_is_Some; simpl;
             try apply insert_preserves_is_Some; by apply Hwf|]); done.
Qed.

Lemma slice_last_Forall {A} (P : A → Prop) n (l : list A) :
  Forall P l → Forall P (slice_last n l).
Proof. destruct n; [done|]. apply Forall_drop. Qed.

Lemma new_message_reactions_ok cid uname q :
  reactions_ok (message_of cid uname q).
Proof. intros r emoji reactors [= <-] H. by rewrite lookup_empty in H. Qed.

Lemma stored_after_slice stored m :
  stored_after stored m = slice_last max_messages_per_channel (stored ++ [m]).
Proof.
  unfold stored_after. destruct (Nat.ltb_spec max_messages_per_channel
                                   (List.length (stored ++ [m]))); [done|].
  by rewrite slice_last_short.
Qed.

Lemma stored_after_length stored m :
  List.length (stored_after stored m) ≤ max_messages_per_channel.
Proof.
  rewrite stored_after_slice. apply slice_last_length.
  unfold max_messages_per_channel. lia.
Qed.

Lemma wf_store_channel cid kept s :
  List.length kept ≤ max_messages_per_channel → Forall reactions_ok kept →
  wf s → wf (set_messages (odict_set cid kept) s).
Proof.
  intros Hlen Hok [H1 H2 H3]. split; simpl; auto.
  - intros cid' Hc. destruct (H1 cid' Hc). split; [done|].
    by apply odict_get_set_is_Some.
  - apply odict_set_Forall; [by intros|done].
Qed.

(** The outcome of a successful [send_message], spelled out. *)
Lemma send_message_sent now fresh uid cid text mt reply s v s' :
  send_message now fresh uid cid text mt reply s = (Return (Ok v), s') →
  ∃ user channel s1 stored,
    users s !! uid = Some user ∧ channels s !! cid = Some channel
    ∧ _can_user_send_message user channel = true
    ∧ _check_rate_limit now uid text s = (Return true, s1)
    ∧ odict_get cid (messages s1) = Some stored
    ∧ v = (fresh, now)
    ∧ messages s'
      = odict_set cid
          (stored_after stored
             (message_of cid (username user)
                (mkSendRequest now fresh uid text mt reply)))
          (messages s1)
    ∧ user_message_history s' = user_message_history s1
    ∧ active_connections s' = active_connections s1.
Proof.
  unfold send_message, send_message_at. intros H.
  destruct (users s !! uid) as [user|]; [|by inversion H].
  destruct (channels s !! cid) as [channel|]; [|by inversion H].
  destruct (_can_user_send_message user channel) eqn:Hperm; [|by inversion H].
  simpl in H.
  destruct (_check_rate_limit now uid text s) as [[[|]|e] s1] eqn:Hcheck;
    try by inversion H.
  destruct (odict_get cid (messages s1)) as [stored|] eqn:Hst; [|by inversion H].
  inversion H; subst; clear H.
  exists user, channel, s1, stored. by repeat split.
Qed.

Lemma check_rate_limit_frame now uid text s :
  users (_check_rate_limit now uid text s).2 = users s
  ∧ channels (_check_rate_limit now uid text s).2 = channels s
  ∧ messages (_check_rate_limit now uid text s).2 = messages s
  ∧ active_connections (_check_rate_limit now uid text s).2 = active_connections s
  ∧ user_connections (_check_rate_limit now uid text s).2 = user_connections s.
Proof. unfold _check_rate_limit. by repeat case_match. Qed.

Lemma wf_send_message now fresh uid cid text mt reply s :
  wf s → wf (send_message now fresh uid cid text mt reply s).2.
Proof.
  intros Hwf. unfold send_message, send_message_at.
  destruct (users s !! uid) as [user|] eqn:Hu; [|done].
  destruct (channels s !! cid) as [channel|] eqn:Hc; [|done].
  destruct (_can_user_send_message user channel); [|done]. simpl.
  pose proof (wf_check_rate_limit now uid text s Hwf) as Hwf1.
  destruct (check_rate_limit_frame now uid text s) as (Fu & Fc & Fm & _).
  destruct (_check_rate_limit now uid text s) as [[[|]|e] s1]; simpl in *; try done.
  destruct (odict_get cid (messages s1)) as [stored|] eqn:Hst; [|done].
  cbn [snd]. unfold _broadcast.
  apply wf_touch_channel; [simpl; rewrite Fc; eauto|].
  apply wf_touch_user; [simpl; rewrite Fu; eauto|].
  apply (wf_store_channel cid
           (stored_after stored
              (message_of cid (username user)
                 (mkSendRequest now fresh uid text mt reply)))); [| |done].
  - apply stored_after_length.
  - rewrite stored_after_slice. apply slice_last_Forall.
    apply Forall_app. split.
    + pose proof (wf_messages _ Hwf1) as Hall.
      rewrite Forall_forall in Hall.
      by destruct (Hall _ (odict_get_elem _ _ _ Hst)).
    + repeat constructor. apply new_message_reactions_ok.
Qed.

Lemma wf_register_user now uid uname dname r s :
  wf s → wf (register_user now uid uname dname r s).2.
Proof.
  intros [H1 H2 H3]. split; simpl; auto.
  intros uid' Hu. destruct (decide (uid = uid')) as [<-|Hne].
  - rewrite lookup_insert_eq. eauto.
  - rewrite lookup_insert_ne in Hu by done. rewrite lookup_insert_ne by done. auto.
Qed.

Lemma touched_user_is_Some {V} (m : gmap string V) uid v uid' :
  is_Some (m !! uid) → is_Some (<[uid := v]> m !! uid') → is_Some (m !! uid').
Proof.
  intros Hu H. destruct (decide (uid = uid')) as [<-|Hne]; [done|].
  by rewrite lookup_insert_ne in H.
Qed.

Lemma wf_connect_user now uid ws s : wf s → wf (connect_user now uid ws s).2.
Proof.
  intros [H1 H2 H3]. unfold connect_user.
  destruct (users s !! uid) as [user|] eqn:Hu; [|by split]. simpl.
  destruct (active_connections s !! "general") eqn:Hg; split; simpl; auto.
  - intros cid Hc. destruct (H1 cid Hc). split; [|done].
    by apply insert_preserves_is_Some.
  - intros uid' Hu'. apply H2. eapply touched_user_is_Some; eauto.
  - intros uid' Hu'. apply H2. eapply touched_user_is_Some; eauto.
Qed.

Lemma wf_disconnect_user now ws s : wf s → wf (disconnect_user now ws s).2.
Proof.
  intros [H1 H2 H3]. unfold disconnect_user.
  destruct (user_connections s !! ws) as [uid|]; [|by split]. cbn [snd].
  unfold _broadcast.
  destruct (users s !! uid) as [user|] eqn:Hu; split; simpl; auto.
  - intros cid Hc. destruct (H1 cid Hc) as [[x Hx] ?]. split; [|done].
    rewrite lookup_fmap, Hx. simpl. eauto.
  - intros uid' Hu'. apply H2. eapply touched_user_is_Some; eauto.
  - intros cid Hc. destruct (H1 cid Hc) as [[x Hx] ?]. split; [|done].
    rewrite lookup_fmap, Hx. simpl. eauto.
Qed.

Lemma wf_join_channel uid cid ws s : wf s → wf (join_channel uid cid ws s).2.
Proof.
  intros Hwf. unfold join_channel.
  repeat case_match; try done; cbn [snd];
    (apply wf_set_active; [intros ?; apply insert_preserves_is_Some | done]).
Qed.

Lemma wf_leave_channel uid cid ws s : wf s → wf (leave_channel uid cid ws s).2.
Proof.
  intros Hwf. unfold leave_channel. cbn [snd].
  case_match; [|done].
  apply wf_set_active; [intros ?; apply insert_preserves_is_Some | done].
Qed.

(** After [add_reaction]'s three steps the user is listed under the emoji,
    and only once if no list had duplicates before. *)
Lemma react_lookup uid emoji r0 :
  ∃ reactors, react uid emoji r0 !! emoji = Some reactors ∧ uid ∈ reactors.
Proof.
  unfold react. set (r1 := default ∅ r0).
  destruct (r1 !! emoji) as [us|] eqn:He; simpl.
  - rewrite He. simpl. case_bool_decide as Hin.
    + exists us. by rewrite He.
    + exists (us ++ [uid]). rewrite lookup_insert_eq. split; [done|].
      apply elem_of_app. right. left.
  - rewrite lookup_insert_eq. simpl.
    exists [uid]. rewrite lookup_insert_eq. split; [done|left].
Qed.

Lemma react_NoDup uid emoji r0 :
  (∀ r e us, r0 = Some r → r !! e = Some us → NoDup us) →
  ∀ e us, react uid emoji r0 !! e = Some us → NoDup us.
Proof.
  intros Hok e us. unfold react.
  assert (Hr1 : ∀ e us, default ∅ r0 !! e = Some us → NoDup us).
  { destruct r0 as [r|]; simpl; [eauto|]. intros ??. by rewrite lookup_empty. }
  revert Hr1. generalize (default ∅ r0). intros r1 Hr1.
  destruct (r1 !! emoji) as [us0|] eqn:He; simpl.
  - rewrite He. simpl. case_bool_decide as Hin; [apply Hr1|].
    destruct (decide (emoji = e)) as [<-|Hne].
    + rewrite lookup_insert_eq. intros [= <-].
      apply NoDup_app. split; [eauto|]. split; [|apply NoDup_singleton].
      intros x Hx Hx'. apply list_elem_of_singleton in Hx'. by subst.
    + rewrite lookup_insert_ne by done. apply Hr1.
  - rewrite lookup_insert_eq. simpl.
    rewrite insert_insert_eq.
    destruct (decide (emoji = e)) as [<-|Hne].
    + rewrite lookup_insert_eq. intros [= <-]. apply NoDup_singleton.
    + rewrite lookup_insert_ne by done. apply Hr1.
Qed.

Lemma react_idempotent uid emoji r0 :
  react uid emoji (Some (react uid emoji r0)) = react uid emoji r0.
Proof.
  destruct (react_lookup uid emoji r0) as (us & Hus & Hin).
  unfold react at 1. simpl. rewrite Hus. simpl. rewrite Hus. simpl.
  by rewrite bool_decide_true.
Qed.

Lemma find_in_channel_lookup mid l i m :
  find_in_channel mid l = Some (i, m) → l !! i = Some m ∧ message_id m = mid.
Proof.
  revert i. induction l as [|x l IH]; intros i; simpl; [done|].
  destruct (String.eqb_spec (message_id x) mid) as [Heq|Hne].
  - by intros [= <- <-].
  - destruct (find_in_channel mid l) as [[j y]|]; [|done].
    intros [= <- <-]. simpl. by apply IH.
Qed.

Lemma find_in_channels_lookup mid d c i m :
  find_in_channels mid d = Some (c, i, m) →
  ∃ k l, d !! c = Some (k, l) ∧ l !! i = Some m ∧ message_id m = mid.
Proof.
  revert c. induction d as [|[k l] d IH]; intros c; simpl; [done|].
  destruct (find_in_channel mid l) as [[j y]|] eqn:Hl.
  - intros [= <- <- <-]. exists k, l. split; [done|].
    by apply find_in_channel_lookup.
  - destruct (find_in_channels mid d) as [[[c' j] y]|]; [|done].
    intros [= <- <- <-]. simpl. by apply IH.
Qed.

Lemma wf_add_reaction uid mid emoji s : wf s → wf (add_reaction uid mid emoji s).2.
Proof.
  intros Hwf. unfold add_reaction, _find_message.
  destruct (find_in_channels mid (messages s)) as [[[c i] m]|] eqn:Hfind; [|done].
  cbn [snd]. unfold _broadcast.
  destruct (find_in_channels_lookup _ _ _ _ _ Hfind) as (k & l & Hc & Hi & _).
  destruct Hwf as [H1 H2 H3]. split; simpl; auto.
  - intros cid Hcid. destruct (H1 cid Hcid) as [Ha [stored Hm]]. split; [done|].
    clear -Hm. unfold store_message. revert c.
    induction (messages s) as [|[k0 l0] d IH]; intros c; [done|].
    destruct c as [|c]; simpl in *.
    + destruct (String.eqb cid k0); eauto.
    + destruct (String.eqb cid k0); eauto.
  - unfold store_message. apply Forall_alter; [done|].
    intros [k' l'] Hlook [Hlen Hok]. simpl. rewrite length_insert. split; [done|].
    apply Forall_insert; [done|].
    rewrite Hc in Hlook. injection Hlook as <- <-.
    pose proof (Forall_lookup_1 _ _ _ _ Hok Hi) as Hm.
    intros r e us [= <-]. apply react_NoDup. intros r' e' us' Hr'. by apply Hm.
Qed.

Lemma wf_step o s : wf s → wf (step o s).
Proof.
  intros Hwf. destruct o; cbn [step].
  - by apply wf_register_user.
  - by apply wf_connect_user.
  - by apply wf_disconnect_user.
  - by apply wf_send_message.
  - by apply wf_join_channel.
  - by apply wf_leave_channel.
  - by apply wf_add_reaction.
Qed.

Lemma wf_run ops : ∀ s, wf s → wf (run ops s).
Proof.
  induction ops as [|o ops IH]; intros s Hwf; [done|].
  simpl. apply IH. by apply wf_step.
Qed.

Lemma reachable_wf s : reachable s → wf s.
Proof. intros (t0 & ops & ->). apply wf_run, wf_init. Qed.

End Registries.

(** ** Permissions *)

Section Permissions.
Import GlobalChat.

Lemma has_role_or_higher_rank u r :
  _has_role_or_higher u r = (role_rank r <=? role_rank u).
Proof. by destruct u, r. Qed.

Lemma can_send_read_only user channel :
  type channel = "read_only" →
  _can_user_send_message user channel
  = (role_rank MODERATOR <=? role_rank (role user)).
Proof.
  intros Ht. unfold _can_user_send_message. rewrite Ht. simpl.
  by destruct (role user).
Qed.

Lemma can_join_unrestricted user channel :
  type channel ≠ "restricted" → _can_user_join_channel user channel = true.
Proof.
  intros Ht. unfold _can_user_join_channel.
  by destruct (String.eqb_spec (type channel) "restricted").
Qed.

Lemma can_join_restricted user channel :
  type channel = "restricted" →
  _can_user_join_channel user channel
  = (role_rank (default USER (required_role channel)) <=? role_rank (role user)).
Proof.
  intros Ht. unfold _can_user_join_channel. rewrite Ht. simpl.
  apply has_role_or_higher_rank.
Qed.

(** In a consistent state [join_channel] is decided by the permission check
    alone. *)
Lemma join_channel_result uid cid ws s user channel :
  wf s → users s !! uid = Some user → channels s !! cid = Some channel →
  (_can_user_join_channel user channel = true →
   ∃ stored, odict_get cid (messages s) = Some stored
     ∧ (join_channel uid cid ws s).1 = Return (Ok (channel, slice_last 50 stored)))
  ∧ (_can_user_join_channel user channel = false →
     join_channel uid cid ws s = (Return (Err "Permission denied"), s)).
Proof.
  intros Hwf Hu Hc. unfold join_channel. rewrite Hu, Hc.
  destruct (wf_channels _ Hwf cid) as [[conns Hconns] [stored Hst]]; [eauto|].
  split; intros ->; simpl; [|done].
  rewrite Hconns. simpl. rewrite Hst. eauto.
Qed.

(** C5.  For a registered user and an existing channel of a running system:
    on a read-only channel [send_message] answers 'Permission denied'
    exactly when the role ranks below MODERATOR, a role from MODERATOR up
    whose message passes the rate limiter gets it sent, and [join_channel]
    succeeds whatever the role; on a restricted channel [join_channel]
    succeeds exactly when the role ranks at least as high as the channel's
    required role (USER when the channel names none), and answers
    'Permission denied' otherwise. *)
Theorem channel_permissions s uid user cid channel :
  reachable s →
  users s !! uid = Some user →
  channels s !! cid = Some channel →
  (type channel = "read_only" →
     (∀ now fresh text mt reply,
        (send_message now fresh uid cid text mt reply s).1
        = Return (Err "Permission denied")
        ↔ role_rank (role user) < role_rank MODERATOR)
     ∧ (∀ now fresh text mt reply,
          role_rank MODERATOR ≤ role_rank (role user) →
          (_check_rate_limit now uid text s).1 = Return true →
          (send_message now fresh uid cid text mt reply s).1
          = Return (Ok (fresh, now)))
     ∧ (∀ ws, ∃ recent,
          (join_channel uid cid ws s).1 = Return (Ok (channel, recent))))
  ∧ (type channel = "restricted" →
     ∀ ws,
       ((∃ recent, (join_channel uid cid ws s).1 = Return (Ok (channel, recent)))
        ↔ role_rank (default USER (required_role channel)) ≤ role_rank (role user))
       ∧ (role_rank (role user) < role_rank (default USER (required_role channel)) →
          join_channel uid cid ws s = (Return (Err "Permission denied"), s))).
Proof.
  intros Hreach Hu Hc. pose proof (reachable_wf _ Hreach) as Hwf.
  split; intros Ht.
  - change (role_rank MODERATOR) with 4.
    assert (Hsend : _can_user_send_message user channel
                    = (4 <=? role_rank (role user)))
      by exact (can_send_read_only _ _ Ht).
    split; [|split].
    + intros now fresh text mt reply. unfold send_message, send_message_at. rewrite Hu, Hc.
      rewrite Hsend.
      destruct (Nat.leb_spec 4 (role_rank (role user))) as [Hle|Hlt];
        simpl; [|split; [intros _; exact Hlt | done]].
      split; [|lia]. intros Hres. exfalso.
      destruct (_check_rate_limit now uid text s) as [[[|]|e] s1]; simpl in Hres;
        try discriminate.
      destruct (odict_get cid (messages s1)); discriminate.
    + intros now fresh text mt reply Hrank Hcheck. unfold send_message, send_message_at.
      rewrite Hu, Hc, Hsend.
      destruct (Nat.leb_spec 4 (role_rank (role user))); [|lia].
      simpl.
      destruct (check_rate_limit_frame now uid text s) as (_ & _ & Fm & _).
      destruct (_check_rate_limit now uid text s) as [r s1]; simpl in *. subst r.
      destruct (wf_channels _ Hwf cid) as [_ [stored Hst]]; [eauto|].
      rewrite Fm, Hst. done.
    + intros ws.
      destruct (join_channel_result uid cid ws s user channel Hwf Hu Hc) as [Hyes _].
      destruct Hyes as (stored & _ & Hres).
      { apply can_join_unrestricted. by rewrite Ht. }
      eauto.
  - intros ws.
    destruct (join_channel_result uid cid ws s user channel Hwf Hu Hc) as [Hyes Hno].
    rewrite (can_join_restricted _ _ Ht) in Hyes, Hno.
    destruct (Nat.leb_spec (role_rank (default USER (required_role channel)))
                (role_rank (role user))) as [Hle|Hlt].
    + destruct Hyes as (stored & _ & Hres); [done|].
      split; [split; eauto | lia].
    + rewrite Hno by done. split; [|done].
      split; [intros [recent Hres]; discriminate | lia].
Qed.

(** On the bootstrap channel "announcements" a GUEST is refused when sending
    and admitted when joining. *)
Lemma channel_permissions_witness :
  let s := run [OpRegister 0 "g1" "gus" "Gus" GUEST] (init 0) in
  (send_message 1 "m1" "g1" "announcements" "hello" TEXT None s).1
  = Return (Err "Permission denied")
  ∧ ∃ recent,
      (join_channel "g1" "announcements" "ws1" s).1
      = Return (Ok (mkChannel "announcements" "Announcements"
                      "Official Valis AI announcements" "read_only" None
                      "system" 0 0 0
                      [ "Official announcements only";
                        "Product updates and news";
                        "Community events" ], recent)).
Proof.
  intros s.
  destruct (channel_permissions s "g1"
              (mkChatUser "g1" "gus" "Gus" GUEST "" "online" 0 0 0 0)
              "announcements"
              (mkChannel "announcements" "Announcements"
                 "Official Valis AI announcements" "read_only" None
                 "system" 0 0 0
                 [ "Official announcements only";
                   "Product updates and news";
                   "Community events" ])) as [Hro _].
  - exists 0%Z, [OpRegister 0 "g1" "gus" "Gus" GUEST]. reflexivity.
  - reflexivity.
  - reflexivity.
  - destruct Hro as (Hsend & _ & Hjoin); [reflexivity|].
    split; [apply Hsend; simpl; lia | apply Hjoin].
Defined.

(** The same channel accepts the message of an ADMIN, and "founders" admits
    a FOUNDER and refuses a USER. *)
Example announcements_admin_founders_user :
  let s := run [OpRegister 0 "a1" "ada" "Ada" ADMIN;
                OpRegister 0 "f1" "fay" "Fay" FOUNDER;
                OpRegister 0 "u1" "uli" "Uli" USER] (init 0) in
  (send_message 1 "m1" "a1" "announcements" "hello" TEXT None s).1
  = Return (Ok ("m1", 1%Z))
  ∧ (join_channel "u1" "founders" "ws1" s).1 = Return (Err "Permission denied")
  ∧ (join_channel "u1" "announcements" "ws1" s).1
    = (join_channel "a1" "announcements" "ws1" s).1
  ∧ ∃ ch, (join_channel "f1" "founders" "ws2" s).1 = Return (Ok (ch, [])).
Proof. vm_compute. repeat split; eauto. Qed.

End Permissions.

(** ** The per-channel message cap *)

Section MessageCap.
Import GlobalChat.

(** One successful [send_message] appends the new message and keeps the
    last [max_messages_per_channel] entries. *)
Lemma send_message_stored now fresh uid cid text mt reply s v s' stored user :
  send_message now fresh uid cid text mt reply s = (Return (Ok v), s') →
  odict_get cid (messages s) = Some stored →
  users s !! uid = Some user →
  odict_get cid (messages s')
  = Some (slice_last max_messages_per_channel
            (stored ++ [message_of cid (username user)
                          (mkSendRequest now fresh uid text mt reply)])).
Proof.
  intros Hsend Hst Hu.
  destruct (send_message_sent _ _ _ _ _ _ _ _ _ _ Hsend)
    as (user' & channel & s1 & stored' & Hu' & _ & _ & Hcheck & Hst' & _ & Hm & _).
  destruct (check_rate_limit_frame now uid text s) as (_ & _ & Fm & _).
  rewrite Hcheck in Fm. simpl in Fm. rewrite Fm, Hst in Hst'.
  injection Hst' as <-. rewrite Hu in Hu'. injection Hu' as <-.
  rewrite Hm, odict_get_set_eq. by rewrite stored_after_slice.
Qed.

Lemma send_all_stored cid reqs :
  ∀ s sent s' stored,
  send_all cid reqs s = Some (sent, s') →
  odict_get cid (messages s) = Some stored →
  List.length stored ≤ max_messages_per_channel →
  List.length sent = List.length reqs
  ∧ odict_get cid (messages s')
    = Some (slice_last max_messages_per_channel (stored ++ sent)).
Proof.
  induction reqs as [|q rest IH]; intros s sent s' stored Hrun Hst Hlen;
    simpl in Hrun.
  - injection Hrun as <- <-. rewrite app_nil_r. split; [done|].
    by rewrite slice_last_short.
  - destruct (send_message (req_now q) (req_uuid q) (req_user q) cid (req_text q)
                (req_type q) (req_reply q) s) as [[[e|v]|e] s1] eqn:Hsend;
      try discriminate.
    destruct (users s !! req_user q) as [user|] eqn:Hu; [|discriminate].
    destruct (send_all cid rest s1) as [[sent' s2]|] eqn:Hrest; [|discriminate].
    injection Hrun as <- <-.
    pose proof (send_message_stored _ _ _ _ _ _ _ _ _ _ _ _ Hsend Hst Hu) as Hst1.
    destruct q as [now fresh uid text mt reply];
      cbn [req_now req_uuid req_user req_text req_type req_reply] in *.
    destruct (IH _ _ _ _ Hrest Hst1) as [Hlen' Hfinal].
    { apply slice_last_length. unfold max_messages_per_channel. lia. }
    split; [simpl; by rewrite Hlen'|].
    rewrite Hfinal. f_equal.
    rewrite slice_last_app_slice by (unfold max_messages_per_channel; lia).
    by rewrite <- app_assoc.
Qed.

(** C6.  In a running system no channel stores more than 1000 messages.  A
    run of successful sends on a channel leaves the last 1000 of what was
    stored before followed by what was sent; in particular 1001 sends on an
    empty channel leave exactly 1000 messages, the first one sent being the
    one dropped. *)
Theorem channel_keeps_most_recent_1000 s cid stored reqs sent s' :
  reachable s →
  odict_get cid (messages s) = Some stored →
  send_all cid reqs s = Some (sent, s') →
  List.length stored ≤ 1000
  ∧ List.length sent = List.length reqs
  ∧ odict_get cid (messages s') = Some (slice_last 1000 (stored ++ sent))
  ∧ List.length (slice_last 1000 (stored ++ sent)) ≤ 1000
  ∧ (stored = [] → List.length reqs = 1001 →
     odict_get cid (messages s') = Some (drop 1 sent)
     ∧ List.length (drop 1 sent) = 1000).
Proof.
  intros Hreach Hst Hrun.
  assert (Hlen : List.length stored ≤ max_messages_per_channel).
  { pose proof (wf_messages _ (reachable_wf _ Hreach)) as Hall.
    rewrite Forall_forall in Hall.
    by destruct (Hall _ (odict_get_elem _ _ _ Hst)). }
  destruct (send_all_stored _ _ _ _ _ _ Hrun Hst Hlen) as [Hsent Hfinal].
  split; [exact Hlen|]. split; [exact Hsent|]. split; [exact Hfinal|].
  split; [apply slice_last_length; lia|].
  intros -> Hcount. rewrite Hfinal. simpl.
  unfold slice_last, max_messages_per_channel.
  replace (List.length sent - 1000) with 1 by lia.
  split; [done|]. rewrite length_drop. lia.
Qed.

(** An ADMIN sends 1001 messages, one per time unit, to the empty channel
    "general": 1000 are stored, and message "0" is the one that is gone. *)
Lemma channel_keeps_most_recent_1000_witness :
  let s := run [OpRegister 0 "a1" "ada" "Ada" ADMIN] (init 0) in
  ∃ sent s',
    send_all "general" (numbered_requests "a1" 1 1001) s = Some (sent, s')
    ∧ odict_get "general" (messages s') = Some (drop 1 sent)
    ∧ List.length (drop 1 sent) = 1000.
Proof.
  intros s.
  assert (Hsome : bool_decide (is_Some (send_all "general"
                                 (numbered_requests "a1" 1 1001) s)) = true)
    by (vm_compute; reflexivity).
  apply bool_decide_eq_true in Hsome.
  destruct (send_all "general" (numbered_requests "a1" 1 1001) s)
    as [[sent s']|] eqn:Hrun; [|by destruct Hsome].
  exists sent, s'. split; [reflexivity|].
  destruct (channel_keeps_most_recent_1000 s "general" []
              (numbered_requests "a1" 1 1001) sent s')
    as (_ & _ & _ & _ & Hdrop).
  - exists 0%Z, [OpRegister 0 "a1" "ada" "Ada" ADMIN]. reflexivity.
  - reflexivity.
  - exact Hrun.
  - apply Hdrop; [reflexivity | vm_compute; reflexivity].
Defined.

Example general_after_1001_sends :
  let s := run [OpRegister 0 "a1" "ada" "Ada" ADMIN] (init 0) in
  let stored :=
    default []
      (odict_get "general"
         (messages (default s (snd <$> send_all "general"
                                 (numbered_requests "a1" 1 1001) s)))) in
  List.length stored = 1000
  ∧ message_id <$> head stored = Some "1"
  ∧ message_id <$> last stored = Some "1000".
Proof. vm_compute. done. Qed.

End MessageCap.

(** ** Reactions *)

Section Reactions.
Import GlobalChat.

Lemma find_in_channel_insert mid l i m m' :
  find_in_channel mid l = Some (i, m) → message_id m' = mid →
  find_in_channel mid (<[i := m']> l) = Some (i, m').
Proof.
  intros Hfind Hid. revert i Hfind.
  induction l as [|x l IH]; intros i; simpl; [done|].
  destruct (String.eqb_spec (message_id x) mid) as [Heq|Hne].
  - intros [= <- <-]. simpl. rewrite Hid. by rewrite String.eqb_refl.
  - destruct (find_in_channel mid l) as [[j y]|] eqn:Hl; [|done].
    intros [= <- <-]. simpl.
    destruct (String.eqb_spec (message_id x) mid); [done|].
    by rewrite (IH j).
Qed.

Lemma find_in_channels_store mid d c i m m' :
  find_in_channels mid d = Some (c, i, m) → message_id m' = mid →
  find_in_channels mid (store_message c i m' d) = Some (c, i, m').
Proof.
  intros Hfind Hid. revert c Hfind. unfold store_message.
  induction d as [|[k l] d IH]; intros c; simpl; [done|].
  destruct (find_in_channel mid l) as [[j y]|] eqn:Hl.
  - intros [= <- <- <-]. simpl.
    by rewrite (find_in_channel_insert _ _ _ _ _ Hl Hid).
  - destruct (find_in_channels mid d) as [[[c' j] y]|] eqn:Hd; [|done].
    intros [= <- <- <-]. simpl. rewrite Hl.
    specialize (IH c' eq_refl). unfold alter in IH. by rewrite IH.
Qed.

Lemma store_message_twice c i m d :
  store_message c i m (store_message c i m d) = store_message c i m d.
Proof.
  unfold store_message. revert c.
  induction d as [|[k l] d IH]; intros [|c]; simpl; try done.
  - by rewrite list_insert_insert_eq.
  - f_equal. apply IH.
Qed.

Lemma filter_absent (x : string) (l : list string) :
  x ∉ l → filter (λ y, y = x) l = [].
Proof.
  induction l as [|y l IH]; intros Hx; [done|].
  apply not_elem_of_cons in Hx as [Hne Hx].
  rewrite filter_cons_False by congruence. auto.
Qed.

Lemma listed_once (x : string) (l : list string) :
  NoDup l → x ∈ l → List.length (filter (λ y, y = x) l) = 1.
Proof.
  induction 1 as [|y l Hy Hl IH]; intros Hin.
  - by apply elem_of_nil in Hin.
  - apply elem_of_cons in Hin as [->|Hin].
    + rewrite filter_cons_True by done. by rewrite filter_absent.
    + rewrite filter_cons_False by (intros ->; done). auto.
Qed.

(** C7.  In a running system, for a message that exists: [add_reaction]
    answers 'added'; afterwards the user is listed under the emoji exactly
    once; a second call with the same user, message and emoji answers 'added'
    again and leaves the state as the first call left it.  For an unknown
    message id the answer is 'Message not found' and nothing changes. *)
Theorem add_reaction_idempotent s uid mid emoji :
  reachable s →
  (∀ c i m, _find_message mid s = Some (c, i, m) →
     let s1 := (add_reaction uid mid emoji s).2 in
     (add_reaction uid mid emoji s).1 = Ok (mid, emoji)
     ∧ add_reaction uid mid emoji s1 = (Ok (mid, emoji), s1)
     ∧ ∃ m1 r reactors,
         _find_message mid s1 = Some (c, i, m1)
         ∧ reactions m1 = Some r
         ∧ r !! emoji = Some reactors
         ∧ uid ∈ reactors
         ∧ NoDup reactors
         ∧ List.length (filter (λ x, x = uid) reactors) = 1)
  ∧ (_find_message mid s = None →
     add_reaction uid mid emoji s = (Err "Message not found", s)).
Proof.
  intros Hreach. split.
  - intros c i m Hfind s1.
    pose proof (wf_add_reaction uid mid emoji s (reachable_wf _ Hreach)) as Hwf1.
    fold s1 in Hwf1. subst s1.
    unfold add_reaction in *. rewrite Hfind in *. cbn [fst snd] in *.
    unfold _broadcast in *. unfold _find_message in *. simpl.
    set (m1 := set_reactions (react uid emoji (reactions m)) m) in *.
    assert (Hid : message_id m1 = mid).
    { destruct (find_in_channels_lookup _ _ _ _ _ Hfind) as (_ & _ & _ & _ & Hid).
      exact Hid. }
    pose proof (find_in_channels_store _ _ _ _ _ m1 Hfind Hid) as Hfind1.
    rewrite Hfind1. split; [done|]. split.
    + unfold m1 at 2 3. simpl. rewrite react_idempotent. fold m1.
      f_equal. unfold set_messages. simpl. f_equal.
      replace (set_reactions (react uid emoji (reactions m)) m1) with m1
        by (by destruct m).
      apply store_message_twice.
    + destruct (react_lookup uid emoji (reactions m)) as (reactors & Hr & Hin).
      exists m1, (react uid emoji (reactions m)), reactors.
      assert (Hnd : NoDup reactors).
      { destruct (find_in_channels_lookup _ _ _ _ _ Hfind1) as (k & l & Hc & Hi & _).
        pose proof (wf_messages _ Hwf1) as Hall. simpl in Hall.
        pose proof (Forall_lookup_1 _ _ _ _ Hall Hc) as [_ Hok]. simpl in Hok.
        exact (Forall_lookup_1 _ _ _ _ Hok Hi _ _ _ eq_refl Hr). }
      repeat split; try done. by apply listed_once.
  - intros Hnone. unfold add_reaction. by rewrite Hnone.
Qed.

(** One message in "general", one user reacting twice with ":+1:". *)
Lemma add_reaction_idempotent_witness :
  let s := run [OpRegister 0 "u1" "ann" "Ann" USER;
                OpSend 1 "m1" "u1" "general" "hello" TEXT None] (init 0) in
  let s1 := (add_reaction "u1" "m1" ":+1:" s).2 in
  add_reaction "u1" "m1" ":+1:" s1 = (Ok ("m1", ":+1:"), s1)
  ∧ ∃ m1 r,
      _find_message "m1" s1 = Some (0, 0, m1)
      ∧ reactions m1 = Some r ∧ r !! ":+1:" = Some ["u1"].
Proof.
  intros s s1.
  destruct (add_reaction_idempotent s "u1" "m1" ":+1:") as [Hknown _].
  - exists 0%Z, [OpRegister 0 "u1" "ann" "Ann" USER;
                 OpSend 1 "m1" "u1" "general" "hello" TEXT None].
    reflexivity.
  - assert (Hfind : _find_message "m1" s
                    = Some (0, 0, mkChatMessage "m1" "u1" "ann" "hello" TEXT
                                    "general" 1 None None (Some ∅) []))
      by (vm_compute; reflexivity).
    destruct (Hknown _ _ _ Hfind) as (_ & Hagain & _).
    split; [exact Hagain|].
    eexists _, _. split; [vm_compute; reflexivity|].
    split; [reflexivity | vm_compute; reflexivity].
Defined.

Example add_reaction_unknown_message :
  let s := run [OpRegister 0 "u1" "ann" "Ann" USER;
                OpSend 1 "m1" "u1" "general" "hello" TEXT None] (init 0) in
  add_reaction "u1" "m2" ":+1:" s = (Err "Message not found", s).
Proof. vm_compute. reflexivity. Qed.

End Reactions.

(** * Properties of core/autonomous_intelligence.py *)

Section TaskRegistry.
Import Autonomous.

(** C4 (as amended).  When the intent classifier fails, [create_task] does
    not raise: it returns the new id and registers a task of type
    GENERAL_CHAT in status PLANNING with progress 0, step 0 and the two-step
    default plan "Process request", "Generate response".  The other tasks
    and the memory are untouched, and [get_task_status] on the new id reports
    that task. *)
Theorem create_task_fallback now fresh_uuid e user_input s :
  ∃ t,
    create_task now fresh_uuid (IntentFails e) user_input s
    = (Return fresh_uuid, mkState (<[fresh_uuid := t]> (active_tasks s)) (memory s))
    ∧ id t = fresh_uuid
    ∧ type t = GENERAL_CHAT
    ∧ status t = PLANNING
    ∧ progress t = 0%Z
    ∧ current_step t = 0%Z
    ∧ steps t = ["Process request"; "Generate response"]
    ∧ description t = "General request: " +:+ user_input
    ∧ results t !! "user_input" = Some (VStr user_input)
    ∧ (∀ tid, tid ≠ fresh_uuid →
         active_tasks (create_task now fresh_uuid (IntentFails e) user_input s).2
           !! tid
         = active_tasks s !! tid)
    ∧ get_task_status fresh_uuid
        (create_task now fresh_uuid (IntentFails e) user_input s).2
      = Ok (mkTaskStatus fresh_uuid GENERAL_CHAT
              ("General request: " +:+ user_input) PLANNING 0 0 2 (results t)).
Proof.
  eexists. split; [reflexivity|].
  do 8 (split; [reflexivity|]). split.
  - intros tid Hne. simpl. by rewrite lookup_insert_ne.
  - unfold get_task_status. simpl. by rewrite lookup_insert_eq.
Qed.

(** The default plan has two steps, not one. *)
Lemma create_task_default_plan_counterexample :
  let s := (create_task 0 "t1" (IntentFails "timeout") "hello" init).2 in
  (List.length ∘ steps) <$> active_tasks s !! "t1" = Some 2
  ∧ (List.length ∘ steps) <$> active_tasks s !! "t1" ≠ Some 1.
Proof. by vm_compute. Qed.

(** A classifier that answers with a task type outside the enumeration makes
    [create_task] raise. *)
Example create_task_unknown_type_raises :
  create_task 0 "t1"
    (IntentJson (mkAnalysis "chat" "simple" 0.9%float "small talk" []
                            ["Answer"] "1 minute" []))
    "hello" init
  = (Raise (ValueError "chat"), init).
Proof. reflexivity. Qed.

Lemma set_result_task_ok k v t : task_ok t → task_ok (set_result k v t).
Proof.
  intros [Hp [u Hu]]. split; [done|]. simpl.
  destruct (decide (k = "user_input")) as [->|Hne].
  - rewrite lookup_insert_eq. eauto.
  - rewrite lookup_insert_ne by done. eauto.
Qed.

Lemma failed_task_ok e t : task_ok t → task_ok (failed e t).2.
Proof. intros Hok. apply set_result_task_ok. by destruct Hok. Qed.

Lemma done_task_ok t : task_ok t → task_ok (set_status COMPLETED (set_progress 100 t)).
Proof. intros [_ Hu]. split; [simpl; lia | done]. Qed.

(** What one run of an executor leaves behind, whatever the task was
    before: COMPLETED at progress 100 with a success reply, or ERROR with the
    message under the key "error"; nothing is removed from the results. *)
Lemma dispatch_terminal now c t :
  updated_at t = now →
  let r := (dispatch now c t).1 in
  let t' := (dispatch now c t).2 in
  updated_at t' = now
  ∧ type t' = type t
  ∧ dom (results t) ⊆ dom (results t')
  ∧ ((status t' = COMPLETED ∧ progress t' = 100%Z
      ∧ r = Ok (mkExecution (id t) COMPLETED 100 (results t')))
     ∨ (status t' = ERROR ∧ ∃ e, r = Err e ∧ results t' !! "error" = Some (VStr e))).
Proof.
  intros Hnow. unfold dispatch, _execute_general_response.
  destruct (type t) eqn:Hty, c as [e|e|text]; simpl;
    try destruct (results t !! "user_input"); simpl;
    (split; [done|]); (split; [done|]);
    (split; [rewrite ?dom_insert_L; set_solver|]);
    first [ left; by repeat split
          | right; split; [done|]; eexists; split; [done|]; by rewrite lookup_insert_eq ].
Qed.

Lemma dispatch_content now text t :
  is_Some (results t !! "user_input") →
  status (dispatch now (Content text) t).2 = COMPLETED
  ∧ results (dispatch now (Content text) t).2 !! content_key (type t)
    = Some (VStr text).
Proof.
  intros [u Hu]. unfold dispatch, _execute_general_response.
  destruct (type t); simpl; rewrite ?Hu; simpl; split; try done;
    by repeat (rewrite lookup_insert_ne by done); rewrite lookup_insert_eq.
Qed.

Lemma dispatch_task_ok now c t : task_ok t → task_ok (dispatch now c t).2.
Proof.
  intros Hok. assert (Hok' := Hok). destruct Hok' as [Hp [u Hu]].
  unfold dispatch, _execute_general_response.
  destruct (type t), c as [e|e|text]; simpl; rewrite ?Hu;
    repeat first [ apply failed_task_ok | apply set_result_task_ok
                 | apply done_task_ok ];
    try done; split; simpl; (lia || eauto).
Qed.

Lemma execute_task_known now c tid s t :
  active_tasks s !! tid = Some t →
  execute_task now c tid s
  = ((dispatch now c (set_updated_at now (set_status EXECUTING t))).1,
     mkState (<[tid := (dispatch now c
                          (set_updated_at now (set_status EXECUTING t))).2]>
                (active_tasks s))
             (memory s)).
Proof.
  intros Ht. unfold execute_task. rewrite Ht.
  by destruct (dispatch now c (set_updated_at now (set_status EXECUTING t))).
Qed.

Lemma create_task_tasks now u reply input s tid :
  active_tasks s !! u = None → is_Some (active_tasks s !! tid) →
  active_tasks (create_task now u reply input s).2 !! tid = active_tasks s !! tid.
Proof.
  intros Hfresh [t Ht]. unfold create_task.
  destruct (TaskType_of_value _); simpl; [|done].
  rewrite lookup_insert_ne; [done|]. intros ->. congruence.
Qed.

Lemma step_task_ok o s :
  (∀ tid t, active_tasks s !! tid = Some t → task_ok t) →
  ∀ tid t, active_tasks (step o s) !! tid = Some t → task_ok t.
Proof.
  intros Hall tid t. destruct o as [now u reply input|now c tid0|k v]; simpl.
  - unfold create_task. destruct (TaskType_of_value _); simpl; [|apply Hall].
    destruct (decide (u = tid)) as [->|Hne].
    + rewrite lookup_insert_eq. intros [= <-]. split; simpl; [lia|].
      rewrite lookup_insert_eq. eauto.
    + rewrite lookup_insert_ne by done. apply Hall.
  - destruct (active_tasks s !! tid0) as [t0|] eqn:Ht0.
    + rewrite (execute_task_known _ _ _ _ _ Ht0). simpl.
      destruct (decide (tid0 = tid)) as [->|Hne].
      * rewrite lookup_insert_eq. intros [= <-]. apply dispatch_task_ok.
        destruct (Hall _ _ Ht0). by split.
      * rewrite lookup_insert_ne by done. apply Hall.
    + unfold execute_task. rewrite Ht0. apply Hall.
  - apply Hall.
Qed.

Lemma reachable_task_ok s :
  reachable s → ∀ tid t, active_tasks s !! tid = Some t → task_ok t.
Proof.
  induction 1 as [|o s Hreach IH Hen].
  - intros tid t. simpl. by rewrite lookup_empty.
  - by apply step_task_ok.
Qed.

(** Re-running a finished task: a GENERAL_CHAT task is executed to
    COMPLETED, and a second [execute_task] on it answers with success and
    replaces the stored response. *)
Lemma execute_task_completed_counterexample :
  let s0 := (create_task 0 "t1" (IntentFails "timeout") "hello" init).2 in
  let s1 := (execute_task 1 (Content "first answer") "t1" s0).2 in
  let again := execute_task 2 (Content "second answer") "t1" s1 in
  status <$> active_tasks s1 !! "t1" = Some COMPLETED
  ∧ (∃ p, again.1 = Ok p)
  ∧ (again.1 ≠ Err "Task not found")
  ∧ (λ t, results t !! "response") <$> active_tasks s1 !! "t1"
    = Some (Some (VStr "first answer"))
  ∧ (λ t, results t !! "response") <$> active_tasks again.2 !! "t1"
    = Some (Some (VStr "second answer"))
  ∧ again.2 ≠ s1.
Proof.
  intros s0 s1 again.
  assert (H1 : (λ t, results t !! "response") <$> active_tasks s1 !! "t1"
               = Some (Some (VStr "first answer"))) by (vm_compute; reflexivity).
  assert (H2 : (λ t, results t !! "response") <$> active_tasks again.2 !! "t1"
               = Some (Some (VStr "second answer"))) by (vm_compute; reflexivity).
  split; [vm_compute; reflexivity|].
  split; [vm_compute; eauto|].
  split; [vm_compute; discriminate|].
  split; [exact H1|]. split; [exact H2|].
  intros Heq. rewrite Heq, H1 in H2. discriminate.
Qed.

(** C1 (as amended).  In a running registry [execute_task] on an unknown id
    answers 'Task not found' and changes nothing.  On a known id it runs the
    executor of the task's type whatever the status was, COMPLETED and ERROR
    included: the task ends COMPLETED at progress 100 with a success reply,
    or ERROR with the message stored under "error", no result key is lost,
    and when the generation call returns content that content is stored
    anew.  Across every operation, a task whose status afterwards is not
    ERROR has not lost progress. *)
Theorem execute_task_reruns s now c tid :
  reachable s →
  (active_tasks s !! tid = None →
   execute_task now c tid s = (Err "Task not found", s))
  ∧ (∀ t, active_tasks s !! tid = Some t →
       ∃ t', active_tasks (execute_task now c tid s).2 !! tid = Some t'
         ∧ updated_at t' = now
         ∧ ((status t' = COMPLETED ∧ progress t' = 100%Z
             ∧ (progress t ≤ progress t')%Z
             ∧ ∃ p, (execute_task now c tid s).1 = Ok p)
            ∨ (status t' = ERROR
               ∧ ∃ e, (execute_task now c tid s).1 = Err e
                      ∧ results t' !! "error" = Some (VStr e)))
         ∧ dom (results t) ⊆ dom (results t')
         ∧ (∀ text, c = Content text →
              status t' = COMPLETED
              ∧ results t' !! content_key (type t) = Some (VStr text)))
  ∧ (∀ o tid' t t',
       enabled o s →
       active_tasks s !! tid' = Some t →
       active_tasks (step o s) !! tid' = Some t' →
       status t' ≠ ERROR → (progress t ≤ progress t')%Z).
Proof.
  intros Hreach. pose proof (reachable_task_ok _ Hreach) as Hok.
  assert (Hknown : ∀ now c tid t, active_tasks s !! tid = Some t →
     ∃ t', active_tasks (execute_task now c tid s).2 !! tid = Some t'
       ∧ updated_at t' = now
       ∧ ((status t' = COMPLETED ∧ progress t' = 100%Z
           ∧ (progress t ≤ progress t')%Z
           ∧ ∃ p, (execute_task now c tid s).1 = Ok p)
          ∨ (status t' = ERROR
             ∧ ∃ e, (execute_task now c tid s).1 = Err e
                    ∧ results t' !! "error" = Some (VStr e)))
       ∧ dom (results t) ⊆ dom (results t')
       ∧ (∀ text, c = Content text →
            status t' = COMPLETED
            ∧ results t' !! content_key (type t) = Some (VStr text))).
  { clear now c tid. intros now c tid t Ht.
    rewrite (execute_task_known _ _ _ _ _ Ht). cbn [fst snd active_tasks].
    set (t1 := set_updated_at now (set_status EXECUTING t)).
    destruct (Hok _ _ Ht) as [Hp Hu].
    destruct (dispatch_terminal now c t1 eq_refl) as (Hnow & Hty & Hdom & Hend).
    exists (dispatch now c t1).2. rewrite lookup_insert_eq.
    split; [done|]. split; [done|]. split; [|split; [done|]].
    - destruct Hend as [(Hst & Hpr & Hr)|(Hst & e & Hr & He)].
      + left. rewrite Hpr. repeat split; try done; [lia | eauto].
      + right. eauto.
    - intros text ->. by apply (dispatch_content now text t1). }
  split; [|split].
  - intros Hnone. unfold execute_task. by rewrite Hnone.
  - apply Hknown.
  - intros o tid' t t' Hen Ht Ht' Hne.
    destruct o as [now0 u reply input|now0 c0 tid0|k v]; simpl in *.
    + rewrite create_task_tasks in Ht' by eauto. rewrite Ht in Ht'.
      injection Ht' as <-. lia.
    + destruct (decide (tid0 = tid')) as [->|Hdiff].
      * destruct (Hknown now0 c0 tid' t Ht) as (t2 & Ht2 & _ & Hend & _).
        rewrite Ht2 in Ht'. injection Ht' as <-.
        destruct Hend as [(_ & _ & Hle & _)|(Hst & _)]; [done | congruence].
      * destruct (active_tasks s !! tid0) as [t0|] eqn:Ht0.
        -- rewrite (execute_task_known _ _ _ _ _ Ht0) in Ht'. simpl in Ht'.
           rewrite lookup_insert_ne in Ht' by done.
           rewrite Ht in Ht'. injection Ht' as <-. lia.
        -- unfold execute_task in Ht'. rewrite Ht0 in Ht'. simpl in Ht'.
           rewrite Ht in Ht'. injection Ht' as <-. lia.
    + rewrite Ht in Ht'. injection Ht' as <-. lia.
Qed.

(** The theorem at a task that has already completed. *)
Lemma execute_task_reruns_witness :
  let s0 := step (OpCreate 0 "t1" (IntentFails "timeout") "hello") init in
  let s1 := step (OpExecute 1 (Content "first answer") "t1") s0 in
  ∃ t', active_tasks (execute_task 2 (Content "second answer") "t1" s1).2 !! "t1"
        = Some t'
        ∧ status t' = COMPLETED
        ∧ results t' !! "response" = Some (VStr "second answer").
Proof.
  intros s0 s1.
  destruct (execute_task_reruns s1 2 (Content "second answer") "t1")
    as (_ & Hknown & _).
  - apply (reachable_step (OpExecute 1 (Content "first answer") "t1") s0);
      [|exact I].
    apply (reachable_step (OpCreate 0 "t1" (IntentFails "timeout") "hello") init);
      [apply reachable_init | reflexivity].
  - destruct (active_tasks s1 !! "t1") as [t|] eqn:Ht;
      [|vm_compute in Ht; discriminate].
    destruct (Hknown t eq_refl) as (t' & Ht' & _ & _ & _ & Hcontent).
    destruct (Hcontent "second answer" eq_refl) as [Hst Hres].
    exists t'. split; [exact Ht'|]. split; [exact Hst|].
    assert (Hty : type t = GENERAL_CHAT)
      by (vm_compute in Ht; injection Ht as <-; reflexivity).
    rewrite Hty in Hres. exact Hres.
Defined.

End TaskRegistry.

(** * Properties of core/chat_modes.py *)

Section ModeRouter.
Import ChatModes.














(** With a third agent keyword the mode does switch. *)
Example adaptive_routing_three_keywords :
  let c := mkCollaborators str_lower 5 "s2" None None "w1" "t1"
             (Autonomous.IntentFails "unreachable")
             (mkExecutionResult true "done" "") in
  let s0 := (create_chat_session 0 "s1" ADAPTIVE None init).2 in
  let s1 := (process_message c "s1" "build and deploy a website" None s0).2 in
  mode <$> active_sessions s1 !! "s1" = Some AGENT
  ∧ workspace_id <$> active_sessions s1 !! "s1" = Some (Some "w1")
  ∧ is_Some (Autonomous.active_tasks (autonomous_ai s1) !! "t1").
Proof. vm_compute. repeat split; eauto. Qed.

(** ** Messages for unknown sessions *)

Lemma extends_refl x : extends x x.
Proof. repeat split. exists []. by rewrite app_nil_r. Qed.

Lemma extends_append e x : extends x (append_context e x).
Proof. repeat split. by exists [e]. Qed.

Lemma extends_trans x y z : extends x y → extends y z → extends x z.
Proof.
  intros (H1 & H2 & H3 & e1 & H4) (K1 & K2 & K3 & e2 & K4).
  repeat split; try congruence.
  exists (e1 ++ e2). by rewrite K4, H4, app_assoc.
Qed.

Lemma process_chat_mode_extends c x message :
  extends x (_process_chat_mode c x message).2
  ∧ r_session_id (_process_chat_mode c x message).1 = session_id x.
Proof. split; [apply extends_append | reflexivity]. Qed.

Lemma create_task_outcome now u reply input ai :
  (∃ tid, (Autonomous.create_task now u reply input ai).1 = Return tid)
  ∨ (∃ v, (Autonomous.create_task now u reply input ai).1 = Raise (ValueError v)).
Proof.
  unfold Autonomous.create_task.
  assert (Hty : (∃ ty, Autonomous.TaskType_of_value
                         (Autonomous.task_type
                            (Autonomous.analyze_intent reply input)) = Return ty)
                ∨ (∃ v, Autonomous.TaskType_of_value
                          (Autonomous.task_type
                             (Autonomous.analyze_intent reply input))
                        = Raise (ValueError v))).
  { unfold Autonomous.TaskType_of_value.
    repeat (destruct (String.eqb _ _); [left; eauto|]). right. eauto. }
  destruct Hty as [[ty ->]|[v ->]]; simpl; eauto.
Qed.

Lemma process_agent_mode_extends c x message ai :
  extends x (_process_agent_mode c x message ai).1.2
  ∧ answers (session_id x) (_process_agent_mode c x message ai).1.1.
Proof.
  unfold _process_agent_mode.
  set (x1 := match workspace_id x with
             | None | Some "" => set_workspace_id (Some (workspace_uuid c)) x
             | Some _ => x
             end).
  assert (H1 : extends x x1).
  { subst x1. destruct (workspace_id x) as [[|]|]; repeat split;
      exists []; by rewrite app_nil_r. }
  destruct (create_task_outcome (clock c) (task_uuid c) (task_classifier c)
              message ai) as [[tid Hr]|[v Hr]];
    destruct (Autonomous.create_task _ _ _ _ _) as [r ai']; simpl in Hr; subst r;
    simpl.
  - split.
    + eapply extends_trans; [exact H1|].
      destruct H1 as (? & ? & ? & _). repeat split. by eexists [_].
    + left. eexists. split; [reflexivity|]. simpl. by destruct H1.
  - split; [done|]. right. eauto.
Qed.

Lemma chat_mode_outcome v :
  (∃ m, ChatMode_of_value v = Return m) ∨ ChatMode_of_value v = Raise (ValueError v).
Proof. unfold ChatMode_of_value. repeat case_match; eauto. Qed.

Lemma process_adaptive_mode_extends c x message ai :
  extends x (_process_adaptive_mode c x message ai).1.2
  ∧ answers (session_id x) (_process_adaptive_mode c x message ai).1.1.
Proof.
  unfold _process_adaptive_mode.
  destruct (PrimFloat.ltb _ _).
  - destruct (chat_mode_outcome
                (recommended_mode
                   (_analyze_message_intent c message (context x))))
      as [[m ->]| ->]; [|split; [apply extends_refl | right; eauto]].
    destruct (String.eqb _ "agent").
    + destruct (process_agent_mode_extends c (set_mode m x) message ai)
        as [Hext Hans].
      destruct (_process_agent_mode c (set_mode m x) message ai)
        as [[[result|e] x2] ai']; simpl in *.
      * split; [exact Hext|]. left. eexists. split; [reflexivity|].
        destruct Hans as [(reply & [= <-] & Hid)|(v & Hv)]; [done|discriminate].
      * split; [exact Hext|]. exact Hans.
    + simpl. split; [apply (extends_append _ (set_mode m x))|].
      left. eexists. split; reflexivity.
  - simpl. split; [apply extends_append|]. left. eexists. split; reflexivity.
Qed.



Example process_message_unknown_session_reply :
  let c := mkCollaborators str_lower 5 "s-new" None (Some "It is a demo.") "w1" "t1"
             (Autonomous.IntentFails "unreachable")
             (mkExecutionResult true "done" "") in
  let out := process_message c "s-old" "what is this" (Some CHAT) init in
  (match out.1 with
   | Return reply => Some (r_session_id reply, r_mode reply, r_message reply)
   | Raise _ => None
   end) = Some ("s-new", "chat", "It is a demo.")
  ∧ mode <$> active_sessions out.2 !! "s-new" = Some CHAT
  ∧ switch_mode 6 "s-old" AGENT out.2 = (Err "Session not found", out.2).
Proof. vm_compute. done. Qed.

End ModeRouter.


(** * Further properties of core/global_chat.py *)

Section ChatInvariants.
Import GlobalChat.

Lemma odict_set_keys {V} k (v : V) d :
  is_Some (odict_get k d) → (odict_set k v d).*1 = d.*1.
Proof.
  induction d as [|[k' v'] d IH]; simpl; [by intros [? ?]|].
  destruct (String.eqb k k'); simpl; [done|].
  intros H. f_equal. auto.
Qed.

Lemma odict_set_Forall_key {V} (P : string * V → Prop) k v d :
  P (k, v) → Forall P d → Forall P (odict_set k v d).
Proof.
  intros Hv. induction 1 as [|[k' v'] d Hx Hd IH]; simpl.
  - by constructor.
  - destruct (String.eqb_spec k k') as [<-|Hne]; constructor; auto.
Qed.

Lemma store_message_keys c i m d : (store_message c i m d).*1 = d.*1.
Proof.
  unfold store_message. revert c.
  induction d as [|[k l] d IH]; intros [|c]; simpl; try done.
  f_equal. apply IH.
Qed.

(** The five channels of [__init__], looked up by id. *)
Lemma init_channel_lookup t0 cid :
  channels (init t0) !! cid
  = List.find (λ ch, String.eqb (channel_id ch) cid) (default_channels t0).
Proof.
  destruct (decide (cid = "general")) as [->|H1]; [by vm_compute|].
  destruct (decide (cid = "creators")) as [->|H2]; [by vm_compute|].
  destruct (decide (cid = "founders")) as [->|H3]; [by vm_compute|].
  destruct (decide (cid = "support")) as [->|H4]; [by vm_compute|].
  destruct (decide (cid = "announcements")) as [->|H5]; [by vm_compute|].
  assert (E1 : String.eqb "general" cid = false) by (by apply String.eqb_neq).
  assert (E2 : String.eqb "creators" cid = false) by (by apply String.eqb_neq).
  assert (E3 : String.eqb "founders" cid = false) by (by apply String.eqb_neq).
  assert (E4 : String.eqb "support" cid = false) by (by apply String.eqb_neq).
  assert (E5 : String.eqb "announcements" cid = false)
    by (by apply String.eqb_neq).
  trans (@None Channel).
  - unfold init, _initialize_default_channels. simpl.
    rewrite !lookup_insert_ne by done. apply lookup_empty.
  - unfold default_channels, List.find. cbn [channel_id].
    by rewrite E1, E2, E3, E4, E5.
Qed.

Lemma static_init t0 : static t0 (init t0).
Proof.
  split; [reflexivity|].
  intros cid. rewrite init_channel_lookup.
  destruct (List.find _ _) as [ch|] eqn:Hfind; constructor.
  apply List.find_some in Hfind as [_ Heq].
  apply String.eqb_eq in Heq. done.
Qed.

Lemma static_same_channels t0 s s' :
  messages s' = messages s → channels s' = channels s →
  static t0 s → static t0 s'.
Proof. intros Hm Hc [H1 H2]. split; by rewrite ?Hm, ?Hc. Qed.

Lemma static_touch_channel t0 cid ch ch' s :
  channels s !! cid = Some ch →
  channel_id ch' = channel_id ch → type ch' = type ch →
  required_role ch' = required_role ch →
  static t0 s → static t0 (set_channels (<[cid := ch']>) s).
Proof.
  intros Hc E1 E2 E3 [H1 H2]. split; [done|].
  intros cid'. simpl. destruct (decide (cid = cid')) as [<-|Hne].
  - rewrite lookup_insert_eq. specialize (H2 cid). rewrite Hc in H2.
    inversion H2 as [? ch0 (? & ? & ?) Ha Hb|]; subst. constructor.
    repeat split; congruence.
  - rewrite lookup_insert_ne by done. apply H2.
Qed.

Lemma static_set_messages t0 f s :
  (f (messages s)).*1 = (messages s).*1 →
  static t0 s → static t0 (set_messages f s).
Proof. intros Hk [H1 H2]. split; [simpl; congruence | done]. Qed.

Lemma static_send_message t0 now fresh uid cid text mt reply s :
  wf s → static t0 s → static t0 (send_message now fresh uid cid text mt reply s).2.
Proof.
  intros Hwf Hst. unfold send_message, send_message_at.
  destruct (users s !! uid) as [user|] eqn:Hu; [|done].
  destruct (channels s !! cid) as [channel|] eqn:Hc; [|done].
  destruct (_can_user_send_message user channel); [|done]. simpl.
  destruct (check_rate_limit_frame now uid text s) as (Fu & Fc & Fm & _).
  assert (Hst1 : static t0 (_check_rate_limit now uid text s).2)
    by (by apply (static_same_channels t0 s)).
  destruct (_check_rate_limit now uid text s) as [[[|]|e] s1]; simpl in *; try done.
  destruct (odict_get cid (messages s1)) as [stored|] eqn:Hstored; [|done].
  cbn [snd]. unfold _broadcast.
  apply (static_touch_channel t0 cid channel); try done.
  { simpl. by rewrite Fc. }
  apply (static_same_channels t0 (set_messages (odict_set cid
           (stored_after stored
              (mkChatMessage fresh uid (username user) text mt cid now None reply
                             (Some ∅) []))) s1)); [done|done|].
  apply static_set_messages; [|done].
  apply odict_set_keys. eauto.
Qed.

Lemma static_step t0 o s : wf s → static t0 s → static t0 (step o s).
Proof.
  intros Hwf Hst. destruct o; cbn [step].
  - by apply (static_same_channels t0 s).
  - apply (static_same_channels t0 s); [| |done];
      unfold connect_user; by repeat case_match.
  - apply (static_same_channels t0 s); [| |done];
      unfold disconnect_user; by repeat case_match.
  - by apply static_send_message.
  - apply (static_same_channels t0 s); [| |done];
      unfold join_channel; by repeat case_match.
  - apply (static_same_channels t0 s); [| |done];
      unfold leave_channel; by repeat case_match.
  - unfold add_reaction. destruct (_find_message _ _) as [[[c i] m]|]; [|done].
    cbn [snd]. unfold _broadcast. apply static_set_messages; [|done].
    apply store_message_keys.
Qed.

Lemma static_run t0 ops : static t0 (run ops (init t0)) ∧ wf (run ops (init t0)).
Proof.
  unfold run. induction ops as [|o ops IH] using rev_ind.
  - split; [apply static_init | apply wf_init].
  - rewrite foldl_app. simpl. destruct IH as [Hst Hwf].
    split; [by apply static_step | by apply wf_step].
Qed.

(** ** Messages stay in their channel, windows stay within quota *)

Lemma window_check_quota limits now len (h : list Z) :
  (Z.of_nat (List.length h) ≤ messages_per_minute limits)%Z →
  (Z.of_nat (List.length (window_check limits now len h).2)
   ≤ messages_per_minute limits)%Z.
Proof.
  intros Hq. unfold window_check.
  pose proof (length_filter (λ t, (now - t < 60)%Z) h) as Hle.
  repeat case_decide; simpl; rewrite ?length_app; simpl; lia.
Qed.

Lemma tidy_init t0 : tidy (init t0).
Proof.
  split.
  - unfold init. simpl. repeat constructor.
  - intros uid user window Hu. simpl in Hu. by rewrite lookup_empty in Hu.
Qed.

Lemma tidy_check_rate_limit now uid text s :
  tidy s → tidy (_check_rate_limit now uid text s).2.
Proof.
  intros [H1 H2].
  destruct (users s !! uid) as [user|] eqn:Hu;
    [|unfold _check_rate_limit; rewrite Hu; by split].
  destruct (user_message_history s !! uid) as [h|] eqn:Hh;
    [|unfold _check_rate_limit; rewrite Hu, Hh; by split].
  rewrite (check_rate_limit_window _ _ _ _ _ _ Hu Hh). cbn [snd].
  split; [done|]. simpl. intros uid' user' window Hu' Hw.
  destruct (decide (uid = uid')) as [<-|Hne].
  - rewrite lookup_insert_eq in Hw. injection Hw as <-.
    rewrite Hu in Hu'. injection Hu' as <-.
    apply window_check_quota. eauto.
  - rewrite lookup_insert_ne in Hw by done. eauto.
Qed.

(** Replacing a user record by one of the same role. *)
Lemma tidy_touch_user uid user user' s :
  users s !! uid = Some user → role user' = role user →
  tidy s → tidy (set_users (<[uid := user']>) s).
Proof.
  intros Hu Hrole [H1 H2]. split; [done|]. simpl.
  intros uid' u window Hu' Hw. destruct (decide (uid = uid')) as [<-|Hne].
  - rewrite lookup_insert_eq in Hu'. injection Hu' as <-. rewrite Hrole. eauto.
  - rewrite lookup_insert_ne in Hu' by done. eauto.
Qed.

Lemma tidy_touch_user_frame uid user user' s s' :
  users s' = <[uid := user']> (users s) →
  messages s' = messages s →
  user_message_history s' = user_message_history s →
  users s !! uid = Some user → role user' = role user →
  tidy s → tidy s'.
Proof.
  intros E1 E2 E3 Hu Hrole Hti.
  destruct (tidy_touch_user uid user user' s Hu Hrole Hti) as [H1 H2].
  split; rewrite ?E1, ?E2, ?E3; done.
Qed.

Lemma tidy_same s s' :
  messages s' = messages s → users s' = users s →
  user_message_history s' = user_message_history s → tidy s → tidy s'.
Proof. intros E1 E2 E3 [H1 H2]. split; by rewrite ?E1, ?E2, ?E3. Qed.

Lemma tidy_send_message now fresh uid cid text mt reply s :
  tidy s → tidy (send_message now fresh uid cid text mt reply s).2.
Proof.
  intros Hti. unfold send_message, send_message_at.
  destruct (users s !! uid) as [user|] eqn:Hu; [|done].
  destruct (channels s !! cid) as [channel|] eqn:Hc; [|done].
  destruct (_can_user_send_message user channel); [|done]. simpl.
  destruct (check_rate_limit_frame now uid text s) as (Fu & Fc & Fm & _).
  pose proof (tidy_check_rate_limit now uid text s Hti) as Hti1.
  destruct (_check_rate_limit now uid text s) as [[[|]|e] s1]; simpl in *; try done.
  destruct (odict_get cid (messages s1)) as [stored|] eqn:Hstored; [|done].
  cbn [snd]. unfold _broadcast.
  match goal with
  | |- tidy (set_channels ?f ?x) => apply (tidy_same x); [done|done|done|]
  end.
  apply (tidy_touch_user uid user); [simpl; by rewrite Fu | done |].
  destruct Hti1 as [H1 H2]. split; [|done]. simpl.
  apply odict_set_Forall_key; [|done]. simpl.
  rewrite stored_after_slice. apply slice_last_Forall, Forall_app. split.
  - rewrite Forall_forall in H1.
    exact (H1 _ (odict_get_elem _ _ _ Hstored)).
  - by repeat constructor.
Qed.

Lemma tidy_step o s : tidy s → tidy (step o s).
Proof.
  intros Hti. destruct o; cbn [step].
  - destruct Hti as [H1 H2]. split; [done|]. simpl.
    intros uid' u window Hu' Hw. destruct (decide (uid = uid')) as [<-|Hne].
    + rewrite lookup_insert_eq in Hw. injection Hw as <-.
      pose proof (limits_positive (role u)). simpl. lia.
    + rewrite lookup_insert_ne in Hu' by done.
      rewrite lookup_insert_ne in Hw by done. eauto.
  - unfold connect_user. destruct (users s !! uid) as [user|] eqn:Hu; [|done].
    simpl. destruct (active_connections s !! "general"); cbn [snd];
      unfold _broadcast;
      by eapply (tidy_touch_user_frame uid user);
        [reflexivity|reflexivity|reflexivity|exact Hu|reflexivity|].
  - unfold disconnect_user. destruct (user_connections s !! ws) as [uid|]; [|done].
    cbn [snd]. unfold _broadcast.
    destruct (users s !! uid) as [user|] eqn:Hu.
    + by eapply (tidy_touch_user_frame uid user);
        [reflexivity|reflexivity|reflexivity|exact Hu|reflexivity|].
    + by apply (tidy_same s).
  - by apply tidy_send_message.
  - apply (tidy_same s); [| | |done]; unfold join_channel; repeat case_match; done.
  - apply (tidy_same s); [| | |done]; unfold leave_channel; cbn [snd];
      by destruct (active_connections s !! cid).
  - unfold add_reaction, _find_message.
    destruct (find_in_channels mid (messages s)) as [[[c i] m]|] eqn:Hfind; [|done].
    cbn [snd]. unfold _broadcast. destruct Hti as [H1 H2]. split; [|done]. simpl.
    destruct (find_in_channels_lookup _ _ _ _ _ Hfind) as (k0 & l0 & Hc & Hi & _).
    unfold store_message. apply Forall_alter; [done|].
    intros [k l] Hlook Hok. rewrite Hc in Hlook. injection Hlook as <- <-.
    simpl in *. apply Forall_insert; [done|].
    exact (Forall_lookup_1 _ _ _ _ Hok Hi).
Qed.

Lemma tidy_run ops s : tidy s → tidy (run ops s).
Proof.
  revert s. induction ops as [|o ops IH]; intros s Hti; [done|].
  simpl. apply IH. by apply tidy_step.
Qed.

End ChatInvariants.


(** ** What a running chat system guarantees *)

Section ChatGuarantees.
Import GlobalChat.

Lemma reachable_invariants s :
  reachable s → wf s ∧ tidy s ∧ ∃ t0, static t0 s.
Proof.
  intros (t0 & ops & ->). destruct (static_run t0 ops) as [Hst Hwf].
  split; [done|]. split; [apply tidy_run, tidy_init | eauto].
Qed.

(** No rate window ever holds more timestamps than the per-minute quota of
    its user's role. *)
Theorem window_within_quota s uid user window :
  reachable s →
  users s !! uid = Some user →
  user_message_history s !! uid = Some window →
  (Z.of_nat (List.length window) ≤ messages_per_minute (rate_limits (role user)))%Z.
Proof.
  intros Hreach Hu Hw. destruct (reachable_invariants s Hreach) as (_ & Hti & _).
  exact (tidy_quota _ Hti _ _ _ Hu Hw).
Qed.

Lemma window_within_quota_witness :
  let s := run [OpRegister 0 "g1" "gus" "Gus" GUEST;
                OpSend 1 "m1" "g1" "general" "one" TEXT None;
                OpSend 2 "m2" "g1" "general" "two" TEXT None] (init 0) in
  user_message_history s !! "g1" = Some [1; 2]%Z
  ∧ (Z.of_nat (List.length [1; 2]%Z) ≤ 5)%Z.
Proof.
  intros s. split; [vm_compute; reflexivity|].
  apply (window_within_quota s "g1"
           (mkChatUser "g1" "gus" "Gus" GUEST "" "online" 0 2 2 0) [1; 2]%Z).
  - exists 0%Z, [OpRegister 0 "g1" "gus" "Gus" GUEST;
                 OpSend 1 "m1" "g1" "general" "one" TEXT None;
                 OpSend 2 "m2" "g1" "general" "two" TEXT None].
    reflexivity.
  - vm_compute. reflexivity.
  - vm_compute. reflexivity.
Defined.



Lemma sum_list_bound (b : nat) (l : list nat) :
  Forall (λ n, n ≤ b) l → sum_list l ≤ List.length l * b.
Proof. induction 1; simpl; lia. Qed.

(** [get_chat_stats] of a running system: five channels, at most 5000
    stored messages, and no more users online than registered. *)
Theorem chat_stats_bounds s :
  reachable s →
  total_channels (get_chat_stats s) = 5
  ∧ total_messages (get_chat_stats s) ≤ 5000
  ∧ online_users (get_chat_stats s) ≤ total_users (get_chat_stats s).
Proof.
  intros Hreach.
  destruct (reachable_invariants s Hreach) as (Hwf & _ & t0 & Hstat).
  unfold get_chat_stats. cbn [total_channels total_messages online_users total_users].
  split; [|split].
  - assert (Hdom : dom (channels s) = dom (channels (init t0))).
    { apply set_eq. intros cid. rewrite !elem_of_dom.
      pose proof (static_channels _ _ Hstat cid) as H. revert H.
      destruct (channels s !! cid), (channels (init t0) !! cid);
        intros H; inversion H; split; intros [? ?]; eauto; discriminate. }
    rewrite <- (size_dom (channels s)), Hdom, size_dom. reflexivity.
  - pose proof (static_keys _ _ Hstat) as Hkeys.
    assert (Hlen : List.length (messages s) = 5).
    { rewrite <- (length_fmap fst), Hkeys. reflexivity. }
    etrans; [apply (sum_list_bound 1000)|].
    + apply Forall_fmap, Forall_fmap.
      eapply Forall_impl; [apply (wf_messages _ Hwf)|].
      intros [k l] [Hl _]. exact Hl.
    + rewrite !length_fmap, Hlen. lia.
  - apply map_subseteq_size, map_filter_subseteq.
Qed.

Lemma chat_stats_bounds_witness :
  let s := run [OpRegister 0 "u1" "ann" "Ann" USER;
                OpConnect 1 "u1" "ws1";
                OpSend 2 "m1" "u1" "general" "hi" TEXT None] (init 0) in
  get_chat_stats s = mkChatStats 1 1 5 1
  ∧ total_channels (get_chat_stats s) = 5.
Proof.
  intros s. split; [vm_compute; reflexivity|].
  apply (chat_stats_bounds s).
  exists 0%Z, [OpRegister 0 "u1" "ann" "Ann" USER;
               OpConnect 1 "u1" "ws1";
               OpSend 2 "m1" "u1" "general" "hi" TEXT None].
  reflexivity.
Defined.

End ChatGuarantees.


Section ChannelListing.
Import GlobalChat.

Lemma can_join_same_policy user ch ch0 :
  type ch = type ch0 → required_role ch = required_role ch0 →
  _can_user_join_channel user ch = _can_user_join_channel user ch0.
Proof. intros Ht Hr. unfold _can_user_join_channel. by rewrite Ht, Hr. Qed.

(** [_get_user_channels] in a running system: an unregistered id raises
    [KeyError]; a registered user is shown the four open bootstrap channels
    (the read-only one included) and, from FOUNDER up, "founders" as well. *)
Theorem user_channels_listing s uid :
  reachable s →
  (users s !! uid = None → _get_user_channels uid s = Raise (KeyError uid))
  ∧ (∀ user, users s !! uid = Some user →
       ∃ listing,
         _get_user_channels uid s = Return listing
         ∧ ∀ cid, is_Some (listing !! cid)
                  ↔ cid ∈ default_channel_ids
                    ∧ (cid = "founders"
                       → role_rank FOUNDER ≤ role_rank (role user))).
Proof.
  intros Hreach.
  destruct (reachable_invariants s Hreach) as (_ & _ & t0 & Hstat).
  split; [intros Hu; unfold _get_user_channels; by rewrite Hu|].
  intros user Hu. unfold _get_user_channels. rewrite Hu.
  eexists. split; [reflexivity|]. intros cid.
  rewrite map_lookup_imap.
  pose proof (static_channels _ _ Hstat cid) as H.
  rewrite init_channel_lookup in H.
  assert (Hcase : ∀ ch0,
    List.find (λ ch, String.eqb (channel_id ch) cid) (default_channels t0)
    = Some ch0 →
    is_Some (channels s !! cid ≫=
               (λ channel,
                  if _can_user_join_channel user channel
                  then Some (mkChannelSummary (name channel) (description channel)
                               (type channel)
                               (size (default ∅ (active_connections s !! cid)))
                               (ch_message_count channel))
                  else None))
    ↔ _can_user_join_channel user ch0 = true).
  { intros ch0 Hfind. rewrite Hfind in H.
    inversion H as [ch ? (_ & Hty & Hreq) Hs|]; subst. simpl.
    rewrite (can_join_same_policy user ch ch0 Hty Hreq).
    destruct (_can_user_join_channel user ch0); simpl; split; intros Hx;
      eauto; try done. }
  unfold default_channel_ids.
  destruct (decide (cid = "general")) as [->|H1];
    [rewrite (Hcase _ eq_refl); split; [split; [by repeat first [left | right]|done]|done]|].
  destruct (decide (cid = "creators")) as [->|H2];
    [rewrite (Hcase _ eq_refl); split; [split; [by repeat first [left | right]|done]|done]|].
  destruct (decide (cid = "founders")) as [->|H3].
  { rewrite (Hcase _ eq_refl). unfold _can_user_join_channel. simpl.
    rewrite has_role_or_higher_rank. change (role_rank FOUNDER) with 3.
    destruct (Nat.leb_spec 3 (role_rank (role user))) as [Hle|Hlt].
    - split; [split; [by repeat first [left | right]|done]|done].
    - split; [done|]. intros [_ Hr]. specialize (Hr eq_refl). lia. }
  destruct (decide (cid = "support")) as [->|H4];
    [rewrite (Hcase _ eq_refl); split; [split; [by repeat first [left | right]|done]|done]|].
  destruct (decide (cid = "announcements")) as [->|H5];
    [rewrite (Hcase _ eq_refl); split; [split; [by repeat first [left | right]|done]|done]|].
  assert (Hnone : List.find (λ ch, String.eqb (channel_id ch) cid)
                    (default_channels t0) = None).
  { rewrite <- init_channel_lookup.
    unfold init, _initialize_default_channels. simpl.
    rewrite !lookup_insert_ne by done. apply lookup_empty. }
  rewrite Hnone in H. inversion H as [|Hs Hf]. simpl.
  split; [by intros [? ?]|]. intros [Hin _].
  repeat (apply elem_of_cons in Hin as [->|Hin]; [done|]).
  by apply elem_of_nil in Hin.
Qed.

Lemma user_channels_listing_witness :
  let s := run [OpRegister 0 "u1" "ann" "Ann" USER] (init 0) in
  ∃ listing,
    _get_user_channels "u1" s = Return listing
    ∧ is_Some (listing !! "announcements")
    ∧ listing !! "founders" = None.
Proof.
  intros s.
  destruct (user_channels_listing s "u1") as [_ Hknown].
  - exists 0%Z, [OpRegister 0 "u1" "ann" "Ann" USER]. reflexivity.
  - destruct (Hknown (mkChatUser "u1" "ann" "Ann" USER "" "online" 0 0 0 0))
      as (listing & Heq & Hiff); [vm_compute; reflexivity|].
    exists listing. split; [exact Heq|]. split.
    + apply Hiff. split; [by repeat first [left | right] | discriminate].
    + destruct (listing !! "founders") eqn:E; [|reflexivity].
      assert (Hsome : is_Some (listing !! "founders")) by (rewrite E; eauto).
      apply Hiff in Hsome as [_ Hr]. specialize (Hr eq_refl).
      simpl in Hr. lia.
Defined.

End ChannelListing.


(** ** Sending *)

Section Sending.
Import GlobalChat.

(** The checks of [send_message] come in a fixed order (user, channel,
    permission, rate).  A sender without the permission is answered
    'Permission denied' whatever the rate window holds, and the window is
    not even pruned; only a permitted sender reaches the rate check, whose
    refusal is answered 'Rate limit exceeded'.  A refusal stores nothing: no
    message, no count, no change to users or channels; only a rate-limit
    refusal may touch the state at all (the sender's window, which
    [_check_rate_limit] prunes). *)
Theorem send_message_refusals now fresh uid cid text mt reply s :
  (users s !! uid = None →
   send_message now fresh uid cid text mt reply s
   = (Return (Err "User not found"), s))
  ∧ (is_Some (users s !! uid) → channels s !! cid = None →
     send_message now fresh uid cid text mt reply s
     = (Return (Err "Channel not found"), s))
  ∧ (∀ user channel,
       users s !! uid = Some user → channels s !! cid = Some channel →
       _can_user_send_message user channel = false →
       send_message now fresh uid cid text mt reply s
       = (Return (Err "Permission denied"), s))
  ∧ (∀ user channel,
       users s !! uid = Some user → channels s !! cid = Some channel →
       _can_user_send_message user channel = true →
       (_check_rate_limit now uid text s).1 = Return false →
       send_message now fresh uid cid text mt reply s
       = (Return (Err "Rate limit exceeded"),
          (_check_rate_limit now uid text s).2))
  ∧ (∀ e s', send_message now fresh uid cid text mt reply s = (Return (Err e), s') →
       (e = "User not found" ∨ e = "Channel not found"
        ∨ e = "Permission denied" ∨ e = "Rate limit exceeded")
       ∧ (e ≠ "Rate limit exceeded" → s' = s)
       ∧ messages s' = messages s ∧ users s' = users s
       ∧ channels s' = channels s
       ∧ active_connections s' = active_connections s).
Proof.
  unfold send_message, send_message_at. split; [|split; [|split; [|split]]].
  - by intros ->.
  - intros [user ->] ->. done.
  - intros user channel -> -> ->. done.
  - intros user channel -> -> -> Hrate. simpl.
    destruct (_check_rate_limit now uid text s) as [r s1]. simpl in Hrate.
    by subst r.
  - intros e s'.
    destruct (users s !! uid) as [user|]; [|intros [= <- <-]; naive_solver].
    destruct (channels s !! cid) as [channel|]; [|intros [= <- <-]; naive_solver].
    destruct (_can_user_send_message user channel); simpl;
      [|intros [= <- <-]; naive_solver].
    destruct (check_rate_limit_frame now uid text s) as (Fu & Fc & Fm & Fa & _).
    destruct (_check_rate_limit now uid text s) as [[[|]|x] s1]; simpl in *.
    + destruct (odict_get cid (messages s1)); discriminate.
    + intros [= <- <-]. naive_solver.
    + discriminate.
Qed.

(** A GUEST may not write to the read-only channel "announcements": the
    answer is 'Permission denied' and the exhausted window is left as it
    is, stale timestamps included. *)
Example send_message_permission_before_rate :
  let s0 := run [OpRegister 0 "u1" "ann" "Ann" GUEST] (init 0) in
  let s1 := (check_all "u1" [(0, "a"); (1, "b"); (2, "c"); (3, "d"); (4, "e")]%Z
               s0).2 in
  send_message 100 "m1" "u1" "announcements" "hello" TEXT None s1
  = (Return (Err "Permission denied"), s1)
  ∧ user_message_history s1 !! "u1" = Some [0; 1; 2; 3; 4]%Z.
Proof. vm_compute. done. Qed.

Lemma last_slice_last {A} n (l : list A) (x : A) :
  0 < n → last (slice_last n (l ++ [x])) = Some x.
Proof.
  intros Hn. destruct n as [|n]; [lia|]. unfold slice_last.
  rewrite length_app. simpl.
  destruct (decide (List.length l + 1 - S n = 0)) as [->|Hpos].
  - simpl. apply last_snoc.
  - rewrite drop_app_le by lia. apply last_snoc.
Qed.

(** A successful [send_message], with its three clock readings kept apart:
    the reply carries the new id and the time of the message; the stored
    message is the newest of its channel and carries the sender, the text,
    the type and the reply reference as given, with no reaction yet; the
    text is within the sender's character limit; the sender's counter and
    the channel's counter go up by one; [last_seen] is the third reading;
    the sender's window has been pruned at the first reading, which is
    recorded last in it; every other channel, user and window is as
    before. *)
Theorem send_message_effects checked_at sent_at seen_at fresh uid cid text mt
  reply s v s' :
  send_message_at checked_at sent_at seen_at fresh uid cid text mt reply s
  = (Return (Ok v), s') →
  ∃ user channel window stored',
    v = (fresh, sent_at)
    ∧ users s !! uid = Some user
    ∧ channels s !! cid = Some channel
    ∧ user_message_history s !! uid = Some window
    ∧ _can_user_send_message user channel = true
    ∧ (Z.of_nat (py_len text)
       ≤ characters_per_message (rate_limits (role user)))%Z
    ∧ users s' !! uid
      = Some (mkChatUser (user_id user) (username user) (display_name user)
                         (role user) (avatar_url user) (status user)
                         (joined_at user) seen_at (S (message_count user))
                         (reputation user))
    ∧ ch_message_count <$> channels s' !! cid = Some (S (ch_message_count channel))
    ∧ user_message_history s' !! uid
      = Some (filter (λ t, (checked_at - t < 60)%Z) window ++ [checked_at])
    ∧ odict_get cid (messages s') = Some stored'
    ∧ last stored'
      = Some (mkChatMessage fresh uid (username user) text mt cid sent_at None
                            reply (Some ∅) [])
    ∧ (∀ cid', cid' ≠ cid →
         odict_get cid' (messages s') = odict_get cid' (messages s)
         ∧ channels s' !! cid' = channels s !! cid')
    ∧ (∀ uid', uid' ≠ uid →
         users s' !! uid' = users s !! uid'
         ∧ user_message_history s' !! uid' = user_message_history s !! uid')
    ∧ active_connections s' = active_connections s
    ∧ user_connections s' = user_connections s.
Proof.
  intros Hsend. unfold send_message_at in Hsend.
  destruct (users s !! uid) as [user|] eqn:Hu; [|by inversion Hsend].
  destruct (channels s !! cid) as [channel|] eqn:Hc; [|by inversion Hsend].
  destruct (_can_user_send_message user channel) eqn:Hcan; [|by inversion Hsend].
  simpl in Hsend.
  destruct (user_message_history s !! uid) as [window|] eqn:Hw.
  2: { unfold _check_rate_limit in Hsend. rewrite Hu, Hw in Hsend. discriminate. }
  rewrite (check_rate_limit_window _ _ _ _ _ _ Hu Hw) in Hsend.
  unfold window_check in Hsend.
  destruct (decide (messages_per_minute (rate_limits (role user))
                    ≤ Z.of_nat (List.length
                                  (filter (λ t, (checked_at - t < 60)%Z) window)))%Z);
    [discriminate|].
  destruct (decide (characters_per_message (rate_limits (role user))
                    < Z.of_nat (py_len text))%Z) as [|Hlen]; [discriminate|].
  cbn [fst snd set_user_message_history messages] in Hsend.
  destruct (odict_get cid (messages s)) as [stored|] eqn:Hst; [|discriminate].
  injection Hsend as <- <-.
  exists user, channel, window,
    (stored_after stored
       (mkChatMessage fresh uid (username user) text mt cid sent_at None reply
                      (Some ∅) [])).
  unfold _broadcast. simpl.
  rewrite !lookup_insert_eq, odict_get_set_eq, stored_after_slice.
  do 5 (split; [done|]). split; [lia|].
  do 4 (split; [done|]).
  split; [apply last_slice_last; unfold max_messages_per_channel; lia|].
  split; [|split; [|done]].
  - intros cid' Hne. rewrite odict_get_set_ne by done.
    by rewrite lookup_insert_ne.
  - intros uid' Hne. by rewrite !lookup_insert_ne.
Qed.

(** A USER's first message: checked at 7, stamped at 8, seen at 9. *)
Lemma send_message_effects_witness :
  let s := run [OpRegister 0 "u1" "ann" "Ann" USER] (init 0) in
  ∃ s', send_message_at 7 8 9 "m1" "u1" "general" "hello" TEXT None s
        = (Return (Ok ("m1", 8%Z)), s')
        ∧ last_seen <$> users s' !! "u1" = Some 9%Z
        ∧ user_message_history s' !! "u1" = Some [7%Z].
Proof.
  intros s.
  destruct (send_message_at 7 8 9 "m1" "u1" "general" "hello" TEXT None s)
    as [r s'] eqn:Hsend.
  assert (Hr : r = Return (Ok ("m1", 8%Z)))
    by (apply (f_equal fst) in Hsend; vm_compute in Hsend; congruence).
  subst r. exists s'. split; [reflexivity|].
  destruct (send_message_effects _ _ _ _ _ _ _ _ _ _ _ _ Hsend)
    as (user & channel & window & stored' & _ & Hu & _ & Hw & _ & _ & Hu'
        & _ & Hwin & _).
  assert (Hu0 : users s !! "u1"
                = Some (mkChatUser "u1" "ann" "Ann" USER "" "online" 0 0 0 0))
    by (vm_compute; reflexivity).
  assert (Hw0 : user_message_history s !! "u1" = Some [])
    by (vm_compute; reflexivity).
  rewrite Hu0 in Hu. injection Hu as <-.
  rewrite Hw0 in Hw. injection Hw as <-.
  split; [by rewrite Hu' | exact Hwin].
Defined.

End Sending.


(** ** Finding what was sent *)

Section Finding.
Import GlobalChat.

Lemma find_in_channel_None mid l :
  find_in_channel mid l = None ↔ Forall (λ m, message_id m ≠ mid) l.
Proof.
  induction l as [|x l IH]; simpl; [by split; [constructor|]|].
  destruct (String.eqb_spec (message_id x) mid) as [Heq|Hne].
  - split; [done|]. intros H. by inversion H.
  - destruct (find_in_channel mid l) as [[j y]|]; simpl.
    + split; [done|]. intros H. inversion H as [|? ? _ Hl]; subst.
      apply IH in Hl. discriminate.
    + split; [|done]. intros _. constructor; [done|]. by apply IH.
Qed.

Lemma find_in_channels_None mid d :
  find_in_channels mid d = None
  ↔ Forall (λ kv, Forall (λ m, message_id m ≠ mid) kv.2) d.
Proof.
  induction d as [|[k l] d IH]; simpl; [by split; [constructor|]|].
  destruct (find_in_channel mid l) as [[j y]|] eqn:Hl.
  - split; [done|]. intros H. inversion H as [|? ? Hx _]; subst. simpl in Hx.
    apply find_in_channel_None in Hx. congruence.
  - destruct (find_in_channels mid d) as [[[c j] y]|]; simpl.
    + split; [done|]. intros H. inversion H as [|? ? _ Hd]; subst.
      apply IH in Hd. discriminate.
    + split; [|done]. intros _. constructor; [|by apply IH].
      by apply find_in_channel_None.
Qed.

Lemma find_in_channel_snoc mid l m :
  Forall (λ x, message_id x ≠ mid) l → message_id m = mid →
  find_in_channel mid (l ++ [m]) = Some (List.length l, m).
Proof.
  intros Hl Hm. induction Hl as [|x l Hx Hl IH]; simpl.
  - rewrite Hm. by rewrite String.eqb_refl.
  - destruct (String.eqb_spec (message_id x) mid); [done|]. by rewrite IH.
Qed.

Lemma find_in_channels_set mid k v d i m :
  Forall (λ kv, Forall (λ x, message_id x ≠ mid) kv.2) d →
  find_in_channel mid v = Some (i, m) →
  ∃ c, find_in_channels mid (odict_set k v d) = Some (c, i, m).
Proof.
  intros Hd Hv. induction Hd as [|[k' v'] d Hx Hd IH]; simpl.
  - rewrite Hv. eauto.
  - destruct (String.eqb k k'); simpl.
    + rewrite Hv. eauto.
    + apply find_in_channel_None in Hx. simpl in Hx. rewrite Hx.
      destruct IH as [c ->]. simpl. eauto.
Qed.

Lemma slice_last_snoc {A} n (l : list A) (x : A) :
  0 < n → slice_last n (l ++ [x]) = drop (List.length l + 1 - n) l ++ [x].
Proof.
  intros Hn. destruct n as [|n]; [lia|]. unfold slice_last.
  rewrite length_app. simpl. rewrite drop_app_le by lia. done.
Qed.

(** Sending under an id that no stored message carries, and then looking
    that id up: [_find_message] returns the message just sent, so a
    reaction to it is accepted. *)
Theorem send_then_find now fresh uid cid text mt reply s v s' user :
  send_message now fresh uid cid text mt reply s = (Return (Ok v), s') →
  _find_message fresh s = None →
  users s !! uid = Some user →
  (∃ c i, _find_message fresh s'
          = Some (c, i, mkChatMessage fresh uid (username user) text mt cid now
                                      None reply (Some ∅) []))
  ∧ ∀ reactor emoji,
      (add_reaction reactor fresh emoji s').1 = Ok (fresh, emoji).
Proof.
  intros Hsend Hnone Hu.
  destruct (send_message_sent _ _ _ _ _ _ _ _ _ _ Hsend)
    as (user' & channel & s1 & stored & Hu' & _ & _ & Hcheck & Hst & _ & Hm & _).
  rewrite Hu in Hu'. injection Hu' as <-.
  destruct (check_rate_limit_frame now uid text s) as (_ & _ & Fm & _).
  rewrite Hcheck in Fm. simpl in Fm.
  unfold _find_message in *. rewrite Hm, Fm.
  apply find_in_channels_None in Hnone.
  assert (Hstored : Forall (λ x, message_id x ≠ fresh) stored).
  { rewrite Fm in Hst. rewrite Forall_forall in Hnone.
    exact (Hnone _ (odict_get_elem _ _ _ Hst)). }
  assert (Hfound : ∃ c i, find_in_channels fresh
      (odict_set cid
         (stored_after stored
            (message_of cid (username user)
               (mkSendRequest now fresh uid text mt reply))) (messages s))
      = Some (c, i, mkChatMessage fresh uid (username user) text mt cid now
                                  None reply (Some ∅) [])).
  { rewrite stored_after_slice, slice_last_snoc
      by (unfold max_messages_per_channel; lia).
    set (m := message_of cid (username user)
                (mkSendRequest now fresh uid text mt reply)).
    set (kept := drop (List.length stored + 1 - max_messages_per_channel) stored).
    assert (Hkept : Forall (λ x, message_id x ≠ fresh) kept)
      by (by apply Forall_drop).
    pose proof (find_in_channel_snoc fresh kept m Hkept eq_refl) as Hlast.
    destruct (find_in_channels_set fresh cid (kept ++ [m]) (messages s) _ _
                Hnone Hlast) as [c Hc].
    eauto. }
  split; [exact Hfound|].
  intros reactor emoji. unfold add_reaction, _find_message. rewrite Hm, Fm.
  destruct Hfound as (c & i & ->). reflexivity.
Qed.

Lemma send_then_find_witness :
  let s := run [OpRegister 0 "u1" "ann" "Ann" USER] (init 0) in
  let s' := (send_message 7 "m1" "u1" "general" "hello" TEXT None s).2 in
  (add_reaction "u1" "m1" ":+1:" s').1 = Ok ("m1", ":+1:").
Proof.
  intros s s'.
  destruct (send_message 7 "m1" "u1" "general" "hello" TEXT None s)
    as [r s1] eqn:Hsend.
  assert (Hr : r = Return (Ok ("m1", 7%Z)))
    by (apply (f_equal fst) in Hsend; vm_compute in Hsend; congruence).
  subst r.
  destruct (send_then_find _ _ _ _ _ _ _ _ _ _
              (mkChatUser "u1" "ann" "Ann" USER "" "online" 0 0 0 0) Hsend)
    as [_ Hreact].
  - vm_compute. reflexivity.
  - vm_compute. reflexivity.
  - apply Hreact.
Defined.

End Finding.


(** ** Connections and history *)

Section Connections.
Import GlobalChat.

Lemma reachable_general s : reachable s → is_Some (active_connections s !! "general").
Proof.
  intros Hreach.
  destruct (reachable_invariants s Hreach) as (Hwf & _ & t0 & Hstat).
  apply (wf_channels _ Hwf "general").
  pose proof (static_channels _ _ Hstat "general") as H.
  rewrite init_channel_lookup in H. inversion H; eauto.
Qed.

(** [connect_user] in a running system: an unregistered id is refused with
    nothing changed; a registered user is marked online, the socket is
    mapped to the user and put into "general", and no message or window is
    touched. *)
Theorem connect_user_effects s now uid ws :
  reachable s →
  (users s !! uid = None →
   connect_user now uid ws s = (Return (Err "User not registered"), s))
  ∧ (∀ user, users s !! uid = Some user →
       ∃ s' conns,
         connect_user now uid ws s = (Return (Ok (uid, username user)), s')
         ∧ status <$> users s' !! uid = Some "online"
         ∧ role <$> users s' !! uid = Some (role user)
         ∧ user_connections s' !! ws = Some uid
         ∧ active_connections s' !! "general" = Some conns
         ∧ ws ∈ conns
         ∧ messages s' = messages s
         ∧ user_message_history s' = user_message_history s).
Proof.
  intros Hreach. destruct (reachable_general s Hreach) as [conns Hg].
  unfold connect_user. split; [by intros ->|].
  intros user ->. simpl. rewrite Hg.
  eexists _, ({[ws]} ∪ conns). split; [reflexivity|].
  unfold _broadcast. simpl. rewrite !lookup_insert_eq.
  repeat split; try done. set_solver.
Qed.

Lemma connect_user_effects_witness :
  let s := run [OpRegister 0 "u1" "ann" "Ann" USER] (init 0) in
  ∃ s', connect_user 1 "u1" "ws1" s = (Return (Ok ("u1", "ann")), s')
        ∧ user_connections s' !! "ws1" = Some "u1".
Proof.
  intros s.
  destruct (connect_user_effects s 1 "u1" "ws1") as [_ Hknown].
  - exists 0%Z, [OpRegister 0 "u1" "ann" "Ann" USER]. reflexivity.
  - destruct (Hknown (mkChatUser "u1" "ann" "Ann" USER "" "online" 0 0 0 0))
      as (s' & conns & Heq & _ & _ & Hws & _); [vm_compute; reflexivity|].
    exists s'. split; [exact Heq | exact Hws].
Defined.

(** [disconnect_user]: an unknown socket is refused with nothing changed.
    For a known one the socket is forgotten and removed from every channel,
    and its user, when registered, is marked offline, while the user's
    other sockets stay mapped and joined. *)
Theorem disconnect_user_effects s now ws :
  (user_connections s !! ws = None →
   disconnect_user now ws s = (Err "Connection not found", s))
  ∧ (∀ uid, user_connections s !! ws = Some uid →
       let s' := (disconnect_user now ws s).2 in
       (disconnect_user now ws s).1 = Ok uid
       ∧ user_connections s' !! ws = None
       ∧ (∀ cid conns, active_connections s' !! cid = Some conns → ws ∉ conns)
       ∧ (∀ user, users s !! uid = Some user →
            status <$> users s' !! uid = Some "offline")
       ∧ (∀ ws', ws' ≠ ws →
            user_connections s' !! ws' = user_connections s !! ws'
            ∧ ∀ cid conns, active_connections s !! cid = Some conns →
                ws' ∈ conns →
                ∃ conns', active_connections s' !! cid = Some conns'
                          ∧ ws' ∈ conns')
       ∧ messages s' = messages s
       ∧ user_message_history s' = user_message_history s).
Proof.
  unfold disconnect_user. split; [by intros ->|].
  intros uid ->. cbn [fst snd]. unfold _broadcast.
  destruct (users s !! uid) as [user|] eqn:Hu; simpl.
  - rewrite lookup_delete_eq, lookup_insert_eq.
    split; [done|]. split; [done|]. split; [|split; [|split; [|done]]].
    + intros cid conns. rewrite lookup_fmap.
      destruct (active_connections s !! cid); simpl; [|done].
      intros [= <-]. set_solver.
    + by intros ? [= <-].
    + intros ws' Hne. rewrite lookup_delete_ne by done. split; [done|].
      intros cid conns Hc Hin. rewrite lookup_fmap, Hc. simpl.
      eexists. split; [done|]. set_solver.
  - rewrite lookup_delete_eq.
    split; [done|]. split; [done|]. split; [|split; [|split; [|done]]].
    + intros cid conns. rewrite lookup_fmap.
      destruct (active_connections s !! cid); simpl; [|done].
      intros [= <-]. set_solver.
    + done.
    + intros ws' Hne. rewrite lookup_delete_ne by done. split; [done|].
      intros cid conns Hc Hin. rewrite lookup_fmap, Hc. simpl.
      eexists. split; [done|]. set_solver.
Qed.

(** Joining and leaving: after a permitted [join_channel] the socket is in
    the channel's set; [leave_channel] takes it out again, touches no other
    channel, and is idempotent; on an unknown channel it changes nothing. *)
Theorem join_then_leave s uid cid ws user channel :
  reachable s →
  users s !! uid = Some user →
  channels s !! cid = Some channel →
  _can_user_join_channel user channel = true →
  let s1 := (join_channel uid cid ws s).2 in
  let s2 := (leave_channel uid cid ws s1).2 in
  (∃ conns, active_connections s1 !! cid = Some conns ∧ ws ∈ conns)
  ∧ (∃ conns, active_connections s2 !! cid = Some conns ∧ ws ∉ conns)
  ∧ (∀ cid', cid' ≠ cid →
       active_connections s2 !! cid' = active_connections s !! cid')
  ∧ (leave_channel uid cid ws s2).2 = s2
  ∧ messages s2 = messages s ∧ users s2 = users s
  ∧ (∀ c, active_connections s !! c = None → leave_channel uid c ws s = (c, s)).
Proof.
  intros Hreach Hu Hc Hjoin s1 s2.
  destruct (reachable_invariants s Hreach) as (Hwf & _ & _).
  destruct (wf_channels _ Hwf cid) as [[conns Hconns] [stored Hst]]; [eauto|].
  assert (Hs1 : s1 = set_active_connections (<[cid := {[ws]} ∪ conns]>) s).
  { subst s1. unfold join_channel. rewrite Hu, Hc, Hjoin. simpl.
    rewrite Hconns. simpl. by rewrite Hst. }
  assert (Hs2 : s2 = set_active_connections
                       (<[cid := ({[ws]} ∪ conns) ∖ {[ws]}]>) s1).
  { subst s2. unfold leave_channel. rewrite Hs1. simpl.
    by rewrite lookup_insert_eq. }
  split; [|split; [|split; [|split; [|split; [|split]]]]].
  - rewrite Hs1. simpl. rewrite lookup_insert_eq. eexists. split; [done|].
    set_solver.
  - rewrite Hs2. simpl. rewrite lookup_insert_eq. eexists. split; [done|].
    set_solver.
  - intros cid' Hne. rewrite Hs2, Hs1. simpl. by rewrite !lookup_insert_ne.
  - unfold leave_channel. rewrite Hs2. simpl. rewrite lookup_insert_eq.
    unfold set_active_connections. simpl. f_equal.
    rewrite insert_insert_eq. f_equal. set_solver.
  - by rewrite Hs2, Hs1.
  - by rewrite Hs2, Hs1.
  - intros c Hnone. unfold leave_channel. by rewrite Hnone.
Qed.

Lemma join_then_leave_witness :
  let s := run [OpRegister 0 "u1" "ann" "Ann" USER] (init 0) in
  let s1 := (join_channel "u1" "support" "ws1" s).2 in
  let s2 := (leave_channel "u1" "support" "ws1" s1).2 in
  (∃ conns, active_connections s1 !! "support" = Some conns ∧ "ws1" ∈ conns)
  ∧ (∃ conns, active_connections s2 !! "support" = Some conns ∧ "ws1" ∉ conns).
Proof.
  intros s s1 s2.
  destruct (join_then_leave s "u1" "support" "ws1"
              (mkChatUser "u1" "ann" "Ann" USER "" "online" 0 0 0 0)
              (mkChannel "support" "Support" "Get help with Valis AI"
                 "public" None "system" 0 0 0
                 [ "Ask questions about using Valis AI";
                   "Report bugs and issues";
                   "Get technical support" ]))
    as (H1 & H2 & _).
  - exists 0%Z, [OpRegister 0 "u1" "ann" "Ann" USER]. reflexivity.
  - vm_compute. reflexivity.
  - vm_compute. reflexivity.
  - reflexivity.
  - exact (conj H1 H2).
Defined.

End Connections.


(** ** Reading a channel back *)

Section History.
Import GlobalChat.

Lemma slice_from_positive n (l : list ChatMessage) :
  (0 < n)%Z → slice_from n l = slice_last (Z.to_nat n) l.
Proof.
  intros Hn. unfold slice_from, slice_last.
  destruct (Z.ltb_spec 0 n); [|lia].
  destruct (Z.to_nat n) eqn:E; [lia|done].
Qed.

(** [get_channel_messages]: an unknown channel gives the empty list.  With a
    positive limit and no bound the answer is the last [limit] stored
    messages, oldest first, which for the limit 50 is what [join_channel]
    hands out; a limit of 0 gives everything; a negative limit [-k] skips
    the first [k] messages instead of limiting.  A bound other than 0 keeps
    only messages strictly older than it, and a bound of 0 is ignored.
    Whatever the arguments, every entry comes from a stored message of that
    channel. *)
Theorem channel_history cid s stored :
  odict_get cid (messages s) = Some stored →
  (∀ limit, (0 < limit)%Z →
     get_channel_messages cid limit None s
     = _message_to_dict <$> slice_last (Z.to_nat limit) stored
     ∧ get_channel_messages cid limit (Some 0%Z) s
       = get_channel_messages cid limit None s
     ∧ ∀ before,
         List.length (get_channel_messages cid limit before s) ≤ Z.to_nat limit)
  ∧ get_channel_messages cid 0 None s = _message_to_dict <$> stored
  ∧ (∀ k, (0 < k)%Z →
       get_channel_messages cid (- k) None s
       = _message_to_dict <$> drop (Z.to_nat k) stored)
  ∧ (∀ limit b d, b ≠ 0%Z →
       d ∈ get_channel_messages cid limit (Some b) s → (md_timestamp d < b)%Z)
  ∧ (∀ limit before d,
       d ∈ get_channel_messages cid limit before s →
       ∃ m, m ∈ stored ∧ d = _message_to_dict m)
  ∧ (∀ uid ws r s1,
       join_channel uid cid ws s = (Return (Ok r), s1) →
       get_channel_messages cid 50 None s = _message_to_dict <$> r.2)
  ∧ (∀ cid' limit before,
       odict_get cid' (messages s) = None →
       get_channel_messages cid' limit before s = []).
Proof.
  intros Hst.
  assert (Hsel : ∀ limit before,
    ∃ selected, selected `sublist_of` stored
      ∧ (∀ b, before = Some b → b ≠ 0%Z →
           Forall (λ m, (timestamp m < b)%Z) selected)
      ∧ get_channel_messages cid limit before s
        = _message_to_dict <$>
            (if (limit =? 0)%Z then selected else slice_from limit selected)).
  { intros limit before. unfold get_channel_messages. rewrite Hst.
    destruct before as [b|]; [destruct (Z.eqb_spec b 0)|].
    - exists stored. split; [done|]. split; [|done]. intros ? [= <-]. done.
    - exists (filter (λ msg, (timestamp msg < b)%Z) stored).
      split; [apply sublist_filter|]. split; [|done].
      intros ? [= <-] _. apply Forall_forall. intros m Hm.
      by apply list_elem_of_filter in Hm as [? _].
    - exists stored. split; [done|]. split; [|done]. intros ? [=]. }
  assert (Hsub : ∀ limit (l : list ChatMessage),
    (if (limit =? 0)%Z then l else slice_from limit l) `sublist_of` l).
  { intros limit l. destruct (limit =? 0)%Z; [done|]. unfold slice_from.
    destruct (0 <? limit)%Z; apply sublist_drop. }
  split; [|split; [|split; [|split; [|split; [|split]]]]].
  - intros limit Hpos.
    assert (Hnone : get_channel_messages cid limit None s
                    = _message_to_dict <$> slice_last (Z.to_nat limit) stored).
    { unfold get_channel_messages. rewrite Hst.
      destruct (Z.eqb_spec limit 0); [lia|]. by rewrite slice_from_positive. }
    split; [exact Hnone|]. split.
    + unfold get_channel_messages. rewrite Hst. done.
    + intros before. destruct (Hsel limit before) as (sel & _ & _ & ->).
      rewrite length_fmap. destruct (Z.eqb_spec limit 0); [lia|].
      rewrite slice_from_positive by done. apply slice_last_length. lia.
  - unfold get_channel_messages. by rewrite Hst.
  - intros k Hk. unfold get_channel_messages, slice_from. rewrite Hst.
    destruct (Z.eqb_spec (- k) 0); [lia|].
    destruct (Z.ltb_spec 0 (- k)); [lia|]. by rewrite Z.opp_involutive.
  - intros limit b d Hb Hd.
    destruct (Hsel limit (Some b)) as (sel & _ & Hold & Heq).
    rewrite Heq in Hd. apply list_elem_of_fmap in Hd as (m & -> & Hm).
    specialize (Hold b eq_refl Hb). rewrite Forall_forall in Hold.
    apply Hold. eapply elem_of_sublist; [exact Hm | apply Hsub].
  - intros limit before d Hd.
    destruct (Hsel limit before) as (sel & Hss & _ & Heq).
    rewrite Heq in Hd. apply list_elem_of_fmap in Hd as (m & -> & Hm).
    exists m. split; [|done].
    eapply elem_of_sublist; [|exact Hss].
    eapply elem_of_sublist; [exact Hm | apply Hsub].
  - intros uid ws r s1 Hjoin. unfold join_channel in Hjoin.
    destruct (users s !! uid) as [user|]; [|discriminate].
    destruct (channels s !! cid) as [channel|]; [|discriminate].
    destruct (_can_user_join_channel user channel); [|discriminate].
    simpl in Hjoin.
    destruct (active_connections s !! cid) as [conns|]; [|discriminate].
    simpl in Hjoin. rewrite Hst in Hjoin. injection Hjoin as <- <-.
    unfold get_channel_messages. rewrite Hst. simpl.
    by rewrite slice_from_positive by lia.
  - intros cid' limit before Hnone. unfold get_channel_messages.
    by rewrite Hnone.
Qed.

Lemma channel_history_witness :
  let s := run [OpRegister 0 "u1" "ann" "Ann" USER;
                OpSend 1 "m1" "u1" "general" "one" TEXT None;
                OpSend 2 "m2" "u1" "general" "two" TEXT None;
                OpSend 3 "m3" "u1" "general" "three" TEXT None] (init 0) in
  md_message_id <$> get_channel_messages "general" 2 None s = ["m2"; "m3"]
  ∧ List.length (get_channel_messages "general" 2 (Some 3%Z) s) ≤ 2
  ∧ md_message_id <$> get_channel_messages "general" 0 None s = ["m1"; "m2"; "m3"].
Proof.
  intros s.
  destruct (odict_get "general" (messages s)) as [stored|] eqn:Hst;
    [|vm_compute in Hst; discriminate].
  destruct (channel_history "general" s stored Hst) as (Hpos & _).
  destruct (Hpos 2%Z eq_refl) as (_ & _ & Hlen).
  split; [vm_compute; reflexivity|].
  split; [apply (Hlen (Some 3%Z)) | vm_compute; reflexivity].
Defined.

End History.

(** ** Reactions change nothing else *)

Section ReactionFrame.
Import GlobalChat.

Lemma react_grows uid emoji r0 e reactors :
  default ∅ r0 !! e = Some reactors →
  ∃ reactors', react uid emoji r0 !! e = Some reactors'
               ∧ reactors `prefix_of` reactors'.
Proof.
  intros He. unfold react.
  destruct (default ∅ r0 !! emoji) as [us|] eqn:Hemoji; simpl.
  - rewrite Hemoji. simpl. case_bool_decide.
    + eauto.
    + destruct (decide (emoji = e)) as [<-|Hne].
      * rewrite lookup_insert_eq. rewrite Hemoji in He. injection He as <-.
        eexists. split; [done|]. by apply prefix_app_r.
      * rewrite lookup_insert_ne by done. eauto.
  - rewrite lookup_insert_eq. simpl. rewrite insert_insert_eq.
    destruct (decide (emoji = e)) as [<-|Hne]; [congruence|].
    rewrite lookup_insert_ne by done. eauto.
Qed.

(** [add_reaction] on a known message changes that message's reactions and
    nothing else: users, channels, windows and connections are untouched,
    every channel keeps its messages in place with their ids, authors,
    bodies and timestamps, and no reaction recorded before is lost or
    reordered. *)
Theorem add_reaction_frame uid mid emoji s c i m :
  _find_message mid s = Some (c, i, m) →
  let s' := (add_reaction uid mid emoji s).2 in
  users s' = users s ∧ channels s' = channels s
  ∧ user_message_history s' = user_message_history s
  ∧ active_connections s' = active_connections s
  ∧ user_connections s' = user_connections s
  ∧ ∀ c' k l, messages s !! c' = Some (k, l) →
      ∃ l', messages s' !! c' = Some (k, l')
        ∧ List.length l' = List.length l
        ∧ ∀ j x, l !! j = Some x →
            ∃ x', l' !! j = Some x'
              ∧ message_id x' = message_id x
              ∧ msg_user_id x' = msg_user_id x
              ∧ content x' = content x
              ∧ timestamp x' = timestamp x
              ∧ msg_channel_id x' = msg_channel_id x
              ∧ ((c', j) ≠ (c, i) → x' = x)
              ∧ ∀ e reactors,
                  default ∅ (reactions x) !! e = Some reactors →
                  ∃ reactors', default ∅ (reactions x') !! e = Some reactors'
                               ∧ reactors `prefix_of` reactors'.
Proof.
  intros Hfind s'. subst s'. unfold add_reaction. rewrite Hfind.
  cbn [snd]. unfold _broadcast. simpl.
  do 5 (split; [done|]).
  unfold _find_message in Hfind.
  destruct (find_in_channels_lookup _ _ _ _ _ Hfind) as (k0 & l0 & Hc & Hi & _).
  intros c' k l Hl. unfold store_message.
  destruct (decide (c = c')) as [<-|Hne].
  - rewrite Hc in Hl. injection Hl as <- <-.
    rewrite list_lookup_alter_eq, Hc. simpl.
    eexists. split; [done|]. split; [apply length_insert|].
    intros j x Hj. destruct (decide (i = j)) as [<-|Hij].
    + rewrite Hi in Hj. injection Hj as <-.
      rewrite list_lookup_insert_eq by (by eapply lookup_lt_Some).
      eexists. split; [done|]. simpl. do 5 (split; [done|]).
      split; [done|]. intros e reactors He. by apply react_grows.
    + rewrite list_lookup_insert_ne by done.
      exists x. do 6 (split; [done|]). split; [done|].
      intros e reactors He. eauto.
  - rewrite list_lookup_alter_ne by done.
    exists l. split; [done|]. split; [done|].
    intros j x Hj. exists x. do 6 (split; [done|]). split; [done|].
    intros e reactors He. eauto.
Qed.

Lemma add_reaction_frame_witness :
  let s := run [OpRegister 0 "u1" "ann" "Ann" USER;
                OpSend 1 "m1" "u1" "general" "hello" TEXT None;
                OpReact "u1" "m1" ":+1:"] (init 0) in
  users (add_reaction "u2" "m1" ":+1:" s).2 = users s.
Proof.
  intros s.
  assert (Hfind : ∃ m, _find_message "m1" s = Some (0, 0, m))
    by (vm_compute; eauto).
  destruct Hfind as [m Hfind].
  destruct (add_reaction_frame "u2" "m1" ":+1:" s 0 0 m Hfind) as (Hu & _).
  exact Hu.
Defined.

Example add_reaction_two_users :
  let s := run [OpRegister 0 "u1" "ann" "Ann" USER;
                OpSend 1 "m1" "u1" "general" "hello" TEXT None;
                OpReact "u1" "m1" ":+1:";
                OpReact "u2" "m1" ":+1:";
                OpReact "u1" "m1" ":+1:"] (init 0) in
  md_reactions <$> get_channel_messages "general" 50 None s
  = [{[":+1:" := ["u1"; "u2"]]}].
Proof. vm_compute. reflexivity. Qed.

End ReactionFrame.


(** * Further properties of core/autonomous_intelligence.py *)

Section TaskLifecycle.
Import Autonomous.

Lemma TaskType_of_value_cases v :
  (∃ ty, v = TaskType_value ty ∧ TaskType_of_value v = Return ty)
  ∨ ((∀ ty, v ≠ TaskType_value ty)
     ∧ TaskType_of_value v = Raise (ValueError v)).
Proof.
  unfold TaskType_of_value.
  destruct (String.eqb_spec v "website_creation") as [->|H1];
    [left; by exists WEBSITE_CREATION|].
  destruct (String.eqb_spec v "presentation") as [->|H2];
    [left; by exists PRESENTATION|].
  destruct (String.eqb_spec v "image_generation") as [->|H3];
    [left; by exists IMAGE_GENERATION|].
  destruct (String.eqb_spec v "video_creation") as [->|H4];
    [left; by exists VIDEO_CREATION|].
  destruct (String.eqb_spec v "api_development") as [->|H5];
    [left; by exists API_DEVELOPMENT|].
  destruct (String.eqb_spec v "full_stack_app") as [->|H6];
    [left; by exists FULL_STACK_APP|].
  destruct (String.eqb_spec v "data_analysis") as [->|H7];
    [left; by exists DATA_ANALYSIS|].
  destruct (String.eqb_spec v "automation") as [->|H8];
    [left; by exists AUTOMATION|].
  destruct (String.eqb_spec v "general_chat") as [->|H9];
    [left; by exists GENERAL_CHAT|].
  right. split; [|done]. by intros [].
Qed.

(** The values of the task types and [TaskType(...)] are inverse to each
    other; any other string is a [ValueError]. *)
Theorem task_type_round_trip :
  (∀ ty, TaskType_of_value (TaskType_value ty) = Return ty)
  ∧ (∀ v ty, TaskType_of_value v = Return ty → v = TaskType_value ty)
  ∧ (∀ v, (∀ ty, v ≠ TaskType_value ty) →
          TaskType_of_value v = Raise (ValueError v)).
Proof.
  split; [by intros []|]. split.
  - intros v ty Hv.
    destruct (TaskType_of_value_cases v) as [(ty' & -> & Hty)|[_ Hr]];
      congruence.
  - intros v Hv.
    destruct (TaskType_of_value_cases v) as [(ty' & -> & _)|[_ Hr]]; [|done].
    by destruct (Hv ty').
Qed.

(** [create_task] when the classifier call fails or answers with a complete
    analysis (a JSON object with every key of the prompt's layout, each of
    its type): a task type outside the enumeration raises [ValueError] and
    registers nothing; otherwise the task is registered under the new id
    with the description and the plan of the analysis, and
    [get_task_status] shows it in PLANNING at progress 0 and step 0, all
    other tasks and the memory being as before. *)
Theorem create_task_registers_or_raises now fresh_uuid reply user_input s :
  let analysis := analyze_intent reply user_input in
  ((∀ ty, task_type analysis ≠ TaskType_value ty) →
   create_task now fresh_uuid reply user_input s
   = (Raise (ValueError (task_type analysis)), s))
  ∧ (∀ ty, task_type analysis = TaskType_value ty →
       let s' := (create_task now fresh_uuid reply user_input s).2 in
       (create_task now fresh_uuid reply user_input s).1 = Return fresh_uuid
       ∧ get_task_status fresh_uuid s'
         = Ok (mkTaskStatus fresh_uuid ty (a_description analysis) PLANNING 0 0
                 (List.length (a_steps analysis))
                 (<["user_input" := VStr user_input]>
                    (<["analysis" := VAnalysis analysis]> ∅)))
       ∧ (∀ tid, tid ≠ fresh_uuid →
            get_task_status tid s' = get_task_status tid s)
       ∧ memory s' = memory s).
Proof.
  intros analysis. unfold create_task. fold analysis. split.
  - intros Hno.
    destruct (TaskType_of_value_cases (task_type analysis))
      as [(ty & Hty & _)|[_ ->]]; [by destruct (Hno ty)|done].
  - intros ty ->.
    assert (TaskType_of_value (TaskType_value ty) = Return ty) as ->
      by by destruct ty.
    simpl. split; [done|].
    unfold get_task_status. simpl. rewrite lookup_insert_eq.
    split; [done|]. split; [|done].
    intros tid Hne. by rewrite lookup_insert_ne.
Qed.

Lemma dispatch_keeps now c t :
  id (dispatch now c t).2 = id t
  ∧ type (dispatch now c t).2 = type t
  ∧ description (dispatch now c t).2 = description t
  ∧ steps (dispatch now c t).2 = steps t
  ∧ created_at (dispatch now c t).2 = created_at t.
Proof.
  unfold dispatch, _execute_general_response.
  destruct (type t) eqn:Hty, c as [e|e|text]; simpl;
    try destruct (results t !! "user_input"); simpl; by rewrite ?Hty.
Qed.

Lemma dispatch_at_rest now c t :
  (progress t = 0 ∨ progress t = 50 ∨ progress t = 100)%Z →
  at_rest (dispatch now c t).2 ∧ id (dispatch now c t).2 = id t
  ∧ description (dispatch now c t).2 = description t
  ∧ steps (dispatch now c t).2 = steps t
  ∧ created_at (dispatch now c t).2 = created_at t.
Proof.
  intros Hp. unfold dispatch, _execute_general_response, at_rest.
  destruct (type t), c as [e|e|text]; simpl;
    try destruct (results t !! "user_input"); simpl;
    (split; [|done]);
    first [ right; left; by split
          | right; right; split; [done|];
            rewrite lookup_insert_eq; split; [eauto|]; lia ].
Qed.

Lemma at_rest_progress t :
  at_rest t → (progress t = 0 ∨ progress t = 50 ∨ progress t = 100)%Z.
Proof. intros [(_ & -> & _)|[(_ & ->)|(_ & _ & H)]]; auto. Qed.

(** Between calls every task of a running registry is filed under its own
    id and is PLANNING (at progress 0, step 0), COMPLETED (at progress 100)
    or ERROR (with the message under "error"); EXECUTING, TESTING and
    DEPLOYING are never left behind. *)
Theorem tasks_at_rest s tid t :
  reachable s → active_tasks s !! tid = Some t →
  id t = tid ∧ at_rest t
  ∧ status t ≠ EXECUTING ∧ status t ≠ TESTING ∧ status t ≠ DEPLOYING.
Proof.
  intros Hreach Ht.
  assert (Hinv : id t = tid ∧ at_rest t).
  { revert tid t Ht. induction Hreach as [|o s Hreach IH Hen]; intros tid t.
    - simpl. by rewrite lookup_empty.
    - destruct o as [now u reply input|now c tid0|k v]; simpl.
      + unfold create_task. destruct (TaskType_of_value _); simpl; [|apply IH].
        destruct (decide (u = tid)) as [->|Hne].
        * rewrite lookup_insert_eq. intros [= <-]. split; [done|]. by left.
        * rewrite lookup_insert_ne by done. apply IH.
      + destruct (active_tasks s !! tid0) as [t0|] eqn:Ht0.
        * rewrite (execute_task_known _ _ _ _ _ Ht0). simpl.
          destruct (decide (tid0 = tid)) as [->|Hne].
          -- rewrite lookup_insert_eq. intros [= <-].
             destruct (IH _ _ Ht0) as [Hid Hrest].
             destruct (dispatch_at_rest now c
                         (set_updated_at now (set_status EXECUTING t0)))
               as (Hr & Hi & _); [exact (at_rest_progress _ Hrest)|].
             split; [by rewrite Hi|done].
          -- rewrite lookup_insert_ne by done. apply IH.
        * unfold execute_task. rewrite Ht0. apply IH.
      + apply IH. }
  destruct Hinv as [Hid Hrest]. split; [done|]. split; [done|].
  destruct Hrest as [(-> & _)|[(-> & _)|(-> & _)]]; done.
Qed.

Lemma tasks_at_rest_witness :
  let s := step (OpExecute 1 (Malformed "no choices") "t1")
             (step (OpCreate 0 "t1"
                      (IntentJson (mkAnalysis "website_creation" "medium" 0.9%float
                                     "a shop" [] ["Design"] "5 minutes" []))
                      "make a shop") init) in
  ∃ t, active_tasks s !! "t1" = Some t ∧ status t = ERROR ∧ progress t = 50%Z
       ∧ at_rest t.
Proof.
  intros s.
  destruct (active_tasks s !! "t1") as [t|] eqn:Ht;
    [|vm_compute in Ht; discriminate].
  exists t.
  destruct (tasks_at_rest s "t1" t) as (_ & Hrest & _).
  - apply reachable_step; [|exact I].
    apply reachable_step; [apply reachable_init | reflexivity].
  - exact Ht.
  - vm_compute in Ht. injection Ht as <-. split; [reflexivity|].
    split; [reflexivity|]. split; [reflexivity | exact Hrest].
Defined.

(** [execute_task] neither adds nor removes a task, leaves the other tasks
    and the memory alone, and keeps the id, type, description, plan and
    creation time of the task it runs. *)
Theorem execute_task_frame now c tid s :
  let s' := (execute_task now c tid s).2 in
  dom (active_tasks s') = dom (active_tasks s)
  ∧ memory s' = memory s
  ∧ (∀ tid', tid' ≠ tid → active_tasks s' !! tid' = active_tasks s !! tid')
  ∧ (∀ t, active_tasks s !! tid = Some t →
       ∃ t', active_tasks s' !! tid = Some t'
         ∧ id t' = id t ∧ type t' = type t ∧ description t' = description t
         ∧ steps t' = steps t ∧ created_at t' = created_at t).
Proof.
  destruct (active_tasks s !! tid) as [t|] eqn:Ht.
  - rewrite (execute_task_known _ _ _ _ _ Ht). simpl.
    split; [|split; [done|split]].
    + rewrite dom_insert_L. apply elem_of_dom_2 in Ht. set_solver.
    + intros tid' Hne. by rewrite lookup_insert_ne.
    + intros t0 [= <-]. eexists. rewrite lookup_insert_eq. split; [done|].
      destruct (dispatch_keeps now c
                  (set_updated_at now (set_status EXECUTING t)))
        as (? & ? & ? & ? & ?).
      by repeat split.
  - unfold execute_task. rewrite Ht. simpl.
    split; [done|]. split; [done|]. split; [done|]. by intros t.
Qed.

(** The shared memory holds, under each key, the value of the last
    [update_memory] for that key; creating and executing tasks never
    touches it. *)
Theorem memory_last_write k ops s :
  get_memory k (run ops s) = last_remembered k ops (get_memory k s).
Proof.
  unfold run, last_remembered. revert s.
  induction ops as [|o ops IH]; intros s; [done|].
  simpl. rewrite IH. f_equal.
  destruct o as [now u reply input|now c tid|k' v]; simpl.
  - unfold get_memory, create_task. by destruct (TaskType_of_value _).
  - unfold get_memory.
    destruct (active_tasks s !! tid) as [t|] eqn:Ht.
    + by rewrite (execute_task_known _ _ _ _ _ Ht).
    + unfold execute_task. by rewrite Ht.
  - unfold get_memory, update_memory. simpl.
    destruct (decide (k' = k)) as [->|Hne].
    + by rewrite lookup_insert_eq.
    + by rewrite lookup_insert_ne.
Qed.

End TaskLifecycle.

(** * Further properties of core/chat_modes.py *)

Section ChatSessions.
Import ChatModes.

(** [process_message] on a session that exists. *)
Lemma process_message_known c sid message m s session :
  active_sessions s !! sid = Some session →
  process_message c sid message m s
  = let session1 :=
      mkSession (session_id session) (user_id session)
                (default (mode session) m)
                (created_at session) (clock c) (S (message_count session))
                (context session) (workspace_id session)
                (task_history session) (preferences session) in
    let session2 :=
      append_context (mkContextEntry "user" message (clock c)
                                     (value (default (mode session) m))
                                     None None) session1 in
    let '(r, session3, ai') :=
      match default (mode session) m with
      | ADAPTIVE => _process_adaptive_mode c session2 message (autonomous_ai s)
      | AGENT => _process_agent_mode c session2 message (autonomous_ai s)
      | CHAT =>
          let '(result, x) := _process_chat_mode c session2 message in
          (Return result, x, autonomous_ai s)
      | CUSTOM =>
          let '(result, x) := _process_custom_mode c session2 message in
          (Return result, x, autonomous_ai s)
      end in
    (r, mkState (<[sid := session3]> (active_sessions s)) ai').
Proof.
  intros Hs. unfold process_message. rewrite Hs. cbv beta iota zeta.
  by rewrite Hs.
Qed.

Lemma generate_suggestions_length lower message :
  List.length (_generate_suggestions lower message) ≤ 3.
Proof. unfold _generate_suggestions. rewrite length_take. lia. Qed.

(** A message in CHAT or CUSTOM mode, to a session that exists: the call
    answers, with the completion (or the apology when the completion
    fails), under the mode "chat" also for a CUSTOM session, with at most
    three suggestions and with no task and no execution result.  The
    session has counted the message, is in the mode the message was sent
    in, and has logged exactly the user's message and the answer; its
    workspace and task history, the task registry and all other sessions
    are as before. *)
Theorem process_message_chat c sid message m s session :
  active_sessions s !! sid = Some session →
  default (mode session) m = CHAT ∨ default (mode session) m = CUSTOM →
  let out := process_message c sid message m s in
  ∃ reply session',
    out.1 = Return reply
    ∧ r_session_id reply = session_id session
    ∧ r_mode reply = "chat"
    ∧ r_message reply = _generate_chat_response (chat_completion c)
    ∧ List.length (r_suggestions reply) ≤ 3
    ∧ r_task_id reply = None
    ∧ r_execution_result reply = None
    ∧ adaptive_analysis reply = None
    ∧ active_sessions out.2 !! sid = Some session'
    ∧ mode session' = default (mode session) m
    ∧ message_count session' = S (message_count session)
    ∧ last_activity session' = clock c
    ∧ context session'
      = context session
        ++ [mkContextEntry "user" message (clock c)
                           (value (default (mode session) m)) None None;
            mkContextEntry "assistant" (r_message reply) (clock c) "chat"
                           None None]
    ∧ workspace_id session' = workspace_id session
    ∧ task_history session' = task_history session
    ∧ autonomous_ai out.2 = autonomous_ai s
    ∧ (∀ y, y ≠ sid → active_sessions out.2 !! y = active_sessions s !! y).
Proof.
  intros Hs Hmode out. subst out.
  rewrite (process_message_known _ _ _ _ _ _ Hs).
  assert (Hlen := generate_suggestions_length (lower c) message).
  destruct Hmode as [Hm|Hm]; rewrite Hm;
    unfold _process_custom_mode, _process_chat_mode; simpl;
    rewrite lookup_insert_eq;
    (eexists _, _; split; [reflexivity|]); simpl;
    do 7 (split; [first [reflexivity | assumption]|]);
    (split; [reflexivity|]); simpl;
    do 3 (split; [reflexivity|]);
    (split; [by rewrite <-app_assoc|]);
    do 3 (split; [reflexivity|]);
    intros y Hy; by rewrite lookup_insert_ne.
Qed.

Lemma process_message_chat_witness :
  let c := mkCollaborators str_lower 5 "s2" None None "w1" "t1"
             (Autonomous.IntentFails "down")
             (mkExecutionResult true "" "") in
  let s := (create_chat_session 1 "s1" CUSTOM None init).2 in
  ∃ reply, (process_message c "s1" "hi" None s).1 = Return reply
           ∧ r_mode reply = "chat".
Proof.
  intros c s.
  destruct (process_message_chat c "s1" "hi" None s
              (mkSession "s1" None CUSTOM 1 1 0 [] None []
                         (mkPreferences true true false true)))
    as (reply & session' & Hr & _ & Hm & _).
  - vm_compute. reflexivity.
  - right. reflexivity.
  - exists reply. split; [exact Hr | exact Hm].
Defined.

(** A message in ADAPTIVE mode whose classifier answers with a complete
    analysis (a JSON object with the four keys "intent", "recommended_mode",
    "confidence" and "reasoning", a string under the second and a number
    under the third) that recommends, with a confidence above 0.7, a mode
    that is not one of the four mode values: [process_message] raises
    [ValueError] with that value.  The message has been counted and logged
    all the same, without an answer; the session stays ADAPTIVE and no task
    is created. *)
Theorem adaptive_unknown_mode_raises c sid message m s session a :
  active_sessions s !! sid = Some session →
  default (mode session) m = ADAPTIVE →
  classifier c = Some a →
  PrimFloat.ltb 0.7 (confidence a) = true →
  recommended_mode a ∉ ["adaptive"; "agent"; "chat"; "custom"] →
  let out := process_message c sid message m s in
  out.1 = Raise (ValueError (recommended_mode a))
  ∧ autonomous_ai out.2 = autonomous_ai s
  ∧ ∃ session',
      active_sessions out.2 !! sid = Some session'
      ∧ mode session' = ADAPTIVE
      ∧ message_count session' = S (message_count session)
      ∧ context session'
        = context session
          ++ [mkContextEntry "user" message (clock c) "adaptive" None None]
      ∧ workspace_id session' = workspace_id session
      ∧ task_history session' = task_history session.
Proof.
  intros Hs Hmode Hc Hhigh Hnot out. subst out.
  rewrite (process_message_known _ _ _ _ _ _ Hs). rewrite Hmode.
  assert (Hv : ChatMode_of_value (recommended_mode a)
               = Raise (ValueError (recommended_mode a))).
  { unfold ChatMode_of_value.
    destruct (String.eqb_spec (recommended_mode a) "adaptive") as [E|_];
      [destruct Hnot; rewrite E; by repeat first [left | right]|].
    destruct (String.eqb_spec (recommended_mode a) "agent") as [E|_];
      [destruct Hnot; rewrite E; by repeat first [left | right]|].
    destruct (String.eqb_spec (recommended_mode a) "chat") as [E|_];
      [destruct Hnot; rewrite E; by repeat first [left | right]|].
    destruct (String.eqb_spec (recommended_mode a) "custom") as [E|_];
      [destruct Hnot; rewrite E; by repeat first [left | right]|].
    done. }
  unfold _process_adaptive_mode, _analyze_message_intent. rewrite Hc.
  rewrite Hhigh, Hv. simpl. rewrite lookup_insert_eq.
  split; [done|]. split; [done|]. eexists. split; [reflexivity|]. simpl.
  by repeat split.
Qed.

Lemma adaptive_unknown_mode_raises_witness :
  let c := mkCollaborators str_lower 5 "s2"
             (Some (mkIntentAnalysis "build" "Agent" 0.9%float "capitalised"))
             None "w1" "t1" (Autonomous.IntentFails "down")
             (mkExecutionResult true "" "") in
  let s := (create_chat_session 1 "s1" ADAPTIVE None init).2 in
  (process_message c "s1" "build it" None s).1 = Raise (ValueError "Agent").
Proof.
  intros c s.
  destruct (adaptive_unknown_mode_raises c "s1" "build it" None s
              (mkSession "s1" None ADAPTIVE 1 1 0 [] None []
                         (mkPreferences true true false true))
              (mkIntentAnalysis "build" "Agent" 0.9%float "capitalised"))
    as (Hr & _).
  - vm_compute. reflexivity.
  - reflexivity.
  - reflexivity.
  - vm_compute. reflexivity.
  - intros Hin. repeat (apply elem_of_cons in Hin as [Hin|Hin]; [discriminate|]).
    by apply elem_of_nil in Hin.
  - exact Hr.
Defined.

(** One call of [process_message] on a session that exists: whatever the
    mode and whether the call answers or raises, the session is still
    there, has counted the message and has logged it, followed by what the
    handler added. *)
Lemma process_message_counts c sid message m s session :
  active_sessions s !! sid = Some session →
  ∃ session' extra,
    active_sessions (process_message c sid message m s).2 !! sid = Some session'
    ∧ session_id session' = session_id session
    ∧ created_at session' = created_at session
    ∧ message_count session' = S (message_count session)
    ∧ context session'
      = context session
        ++ mkContextEntry "user" message (clock c)
                          (value (default (mode session) m)) None None
           :: extra.
Proof.
  intros Hs. rewrite (process_message_known _ _ _ _ _ _ Hs).
  cbv beta iota zeta.
  set (session1 := mkSession _ _ _ _ _ _ _ _ _ _).
  set (session2 := append_context _ session1).
  assert (Hgen : ∀ (r : outcome Reply) session3 ai',
    extends session2 session3 →
    ∃ session' extra,
      active_sessions
        (r, mkState (<[sid := session3]> (active_sessions s)) ai').2 !! sid
      = Some session'
      ∧ session_id session' = session_id session
      ∧ created_at session' = created_at session
      ∧ message_count session' = S (message_count session)
      ∧ context session'
        = context session
          ++ mkContextEntry "user" message (clock c)
                            (value (default (mode session) m)) None None
             :: extra).
  { intros r session3 ai' (Hid & Hcount & Hcr & extra & Hctx).
    exists session3, extra. simpl. rewrite lookup_insert_eq.
    split; [done|]. split; [by rewrite Hid|]. split; [by rewrite Hcr|].
    split; [by rewrite Hcount|].
    rewrite Hctx. subst session2 session1. simpl. by rewrite <-app_assoc. }
  destruct (default (mode session) m).
  - pose proof (process_adaptive_mode_extends c session2 message
                  (autonomous_ai s)) as [Hext _].
    destruct (_process_adaptive_mode c session2 message (autonomous_ai s))
      as [[r session3] ai']. by apply Hgen.
  - pose proof (process_agent_mode_extends c session2 message
                  (autonomous_ai s)) as [Hext _].
    destruct (_process_agent_mode c session2 message (autonomous_ai s))
      as [[r session3] ai']. by apply Hgen.
  - pose proof (process_chat_mode_extends c session2 message) as [Hext _].
    destruct (_process_chat_mode c session2 message) as [r session3].
    by apply Hgen.
  - unfold _process_custom_mode.
    pose proof (process_chat_mode_extends c session2 message) as [Hext _].
    destruct (_process_chat_mode c session2 message) as [r session3].
    by apply Hgen.
Qed.

(** [message_count] counts the calls of [process_message] on the session,
    the ones that raised included: after any series of calls on a session
    that exists, in whatever modes, the session is still registered under
    its id, its count has grown by the number of calls, and its context
    has only grown at the end, by at least one entry per call. *)
Theorem message_count_counts_calls sid calls s session :
  active_sessions s !! sid = Some session →
  ∃ session' extra,
    active_sessions (process_all sid calls s) !! sid = Some session'
    ∧ session_id session' = session_id session
    ∧ created_at session' = created_at session
    ∧ message_count session' = message_count session + List.length calls
    ∧ context session' = context session ++ extra
    ∧ List.length calls ≤ List.length extra.
Proof.
  revert s session. induction calls as [|[[c message] m] calls IH];
    intros s session Hs.
  - exists session, []. simpl. rewrite app_nil_r.
    split; [done|]. split; [done|]. split; [done|]. split; [lia|]. done.
  - destruct (process_message_counts c sid message m s session Hs)
      as (session1 & extra1 & Hs1 & Hid1 & Hcr1 & Hcount1 & Hctx1).
    destruct (IH _ _ Hs1)
      as (session' & extra & Hs' & Hid & Hcr & Hcount & Hctx & Hlen).
    exists session', (mkContextEntry "user" message (clock c)
                        (value (default (mode session) m)) None None
                      :: extra1 ++ extra).
    simpl. split; [done|]. split; [congruence|]. split; [congruence|].
    split; [lia|]. split.
    + rewrite Hctx, Hctx1, <-app_assoc. done.
    + rewrite length_app. lia.
Qed.

Lemma message_count_counts_calls_witness :
  let c := mkCollaborators str_lower 5 "s2"
             (Some (mkIntentAnalysis "build" "Agent" 0.9%float "capitalised"))
             None "w1" "t1" (Autonomous.IntentFails "down")
             (mkExecutionResult true "" "") in
  let s := (create_chat_session 1 "s1" ADAPTIVE None init).2 in
  ∃ session',
    active_sessions
      (process_all "s1" [(c, "build it", None); (c, "hello", Some CHAT)] s)
    !! "s1" = Some session'
    ∧ message_count session' = 0 + 2.
Proof.
  intros c s.
  destruct (message_count_counts_calls "s1"
              [(c, "build it", None); (c, "hello", Some CHAT)] s
              (mkSession "s1" None ADAPTIVE 1 1 0 [] None []
                         (mkPreferences true true false true)))
    as (session' & extra & Hs & _ & _ & Hcount & _).
  - vm_compute. reflexivity.
  - exists session'. split; [exact Hs | exact Hcount].
Defined.

(** [switch_mode] on an unknown session reports "Session not found" and
    changes nothing.  On a session that exists it reports the old and the
    new mode, and [get_session_info] then shows the new mode and the time
    of the switch as the last activity, everything else about the session
    being as before; no other session and no task is touched. *)
Theorem switch_mode_then_info now sid new_mode s :
  (active_sessions s !! sid = None →
   switch_mode now sid new_mode s = (Err "Session not found", s)
   ∧ get_session_info sid s = Err "Session not found")
  ∧ (∀ session, active_sessions s !! sid = Some session →
       (switch_mode now sid new_mode s).1
       = Ok (value (mode session), value new_mode)
       ∧ get_session_info sid (switch_mode now sid new_mode s).2
         = Ok (mkSessionInfo sid (value new_mode) (created_at session) now
                 (message_count session) (workspace_id session)
                 (List.length (task_history session)) (preferences session))
       ∧ (∀ y, y ≠ sid →
               active_sessions (switch_mode now sid new_mode s).2 !! y
               = active_sessions s !! y)
       ∧ autonomous_ai (switch_mode now sid new_mode s).2 = autonomous_ai s).
Proof.
  split.
  - intros Hs. unfold switch_mode, get_session_info. by rewrite Hs.
  - intros session Hs. unfold switch_mode, get_session_info. rewrite Hs.
    simpl. rewrite lookup_insert_eq. simpl.
    split; [done|]. split; [done|]. split; [|done].
    intros y Hy. by rewrite lookup_insert_ne.
Qed.

(** [cleanup_session] answers whether the session existed.  Afterwards the
    session is gone, and a second call answers [False] and changes
    nothing.  A workspace bound to the session is released from the code
    engine, and no other workspace is; the other chat sessions stay, and so
    do all tasks of the task registry, those of the removed session
    included. *)
Theorem cleanup_session_effects sid s engine :
  let out := cleanup_session sid s engine in
  out.1.1 = bool_decide (is_Some (active_sessions s !! sid))
  ∧ get_session_info sid out.1.2 = Err "Session not found"
  ∧ (∀ y, y ≠ sid → active_sessions out.1.2 !! y = active_sessions s !! y)
  ∧ autonomous_ai out.1.2 = autonomous_ai s
  ∧ cleanup_session sid out.1.2 out.2 = (false, out.1.2, out.2)
  ∧ (active_sessions s !! sid = None → out = (false, s, engine))
  ∧ (∀ session, active_sessions s !! sid = Some session →
       match workspace_id session with
       | None | Some "" => out.2 = engine
       | Some w =>
           CodeAct.get_session_info w out.2 = Err "Session not found"
           ∧ CodeAct.execution_history out.2 !! w = None
           ∧ (∀ y, y ≠ w →
                   CodeAct.sessions out.2 !! y = CodeAct.sessions engine !! y
                   ∧ CodeAct.execution_history out.2 !! y
                     = CodeAct.execution_history engine !! y)
       end).
Proof.
  intros out. subst out. unfold cleanup_session.
  destruct (active_sessions s !! sid) as [session|] eqn:Hs.
  - unfold get_session_info. simpl. rewrite !lookup_delete_eq.
    split; [done|]. split; [done|].
    split; [intros y Hy; by rewrite lookup_delete_ne|].
    split; [done|]. split; [done|]. split; [done|].
    intros session0 [= <-].
    destruct (workspace_id session) as [[|a w]|]; simpl; [done| |done].
    unfold CodeAct.get_session_info. simpl. rewrite !lookup_delete_eq.
    split; [done|]. split; [done|].
    intros y Hy. by rewrite !lookup_delete_ne.
  - unfold get_session_info. simpl. rewrite Hs.
    split; [done|]. split; [done|]. split; [done|]. split; [done|].
    split; [done|]. split; [done|]. by intros session.
Qed.

(** A message in AGENT mode, to a session that exists, when the classifier
    call of [create_task] fails or answers with a complete analysis (a JSON
    object with every key of the prompt's layout, each of its type).  The
    session gets a workspace if it has none and keeps the one it has,
    whatever happens next.  If the task type of the analysis is not one of
    the task type values, the call raises [ValueError]: the message has been
    counted and logged, but there is no answer, no task and no task-history
    entry.  Otherwise the call answers under the mode "agent" with the new
    task's id, the workspace and the execution result, the session logs the
    answer and files the task in its history, and the task sits in the
    registry in PLANNING at progress 0: its execution by the code engine
    never moves it. *)
Theorem process_message_agent c sid message m s session :
  active_sessions s !! sid = Some session →
  default (mode session) m = AGENT →
  let out := process_message c sid message m s in
  let ws := if CodeAct.falsy (workspace_id session)
            then Some (workspace_uuid c) else workspace_id session in
  let analysis := Autonomous.analyze_intent (task_classifier c) message in
  let user_entry := mkContextEntry "user" message (clock c) "agent" None None in
  ∃ session',
    active_sessions out.2 !! sid = Some session'
    ∧ workspace_id session' = ws
    ∧ mode session' = AGENT
    ∧ message_count session' = S (message_count session)
    ∧ (∀ y, y ≠ sid → active_sessions out.2 !! y = active_sessions s !! y)
    ∧ ((∀ ty, Autonomous.task_type analysis ≠ Autonomous.TaskType_value ty) →
       out.1 = Raise (ValueError (Autonomous.task_type analysis))
       ∧ context session' = context session ++ [user_entry]
       ∧ task_history session' = task_history session
       ∧ autonomous_ai out.2 = autonomous_ai s)
    ∧ (∀ ty, Autonomous.task_type analysis = Autonomous.TaskType_value ty →
       ∃ reply,
         out.1 = Return reply
         ∧ r_session_id reply = session_id session
         ∧ r_mode reply = "agent"
         ∧ r_message reply = _generate_agent_response message (execution c)
         ∧ r_task_id reply = Some (task_uuid c)
         ∧ r_workspace_id reply = ws
         ∧ r_execution_result reply = Some (execution c)
         ∧ context session'
           = context session
             ++ [user_entry;
                 mkContextEntry "assistant" (r_message reply) (clock c) "agent"
                                (Some (execution c)) (Some (task_uuid c))]
         ∧ task_history session'
           = task_history session
             ++ [mkHistoryEntry (task_uuid c) message (execution c) (clock c)]
         ∧ ∃ status,
             Autonomous.get_task_status (task_uuid c) (autonomous_ai out.2)
             = Ok status
             ∧ Autonomous.ts_type status = ty
             ∧ Autonomous.ts_status status = Autonomous.PLANNING
             ∧ Autonomous.ts_progress status = 0%Z).
Proof.
  intros Hs Hmode out ws analysis user_entry. subst out.
  rewrite (process_message_known _ _ _ _ _ _ Hs). rewrite Hmode.
  cbv beta iota zeta. unfold _process_agent_mode.
  cbn [workspace_id append_context].
  destruct (TaskType_of_value_cases (Autonomous.task_type analysis))
    as [(ty & Hty & Hret)|[Hno Hraise]].
  - unfold Autonomous.create_task. fold analysis. rewrite Hret. simpl.
    rewrite lookup_insert_eq. eexists. split; [reflexivity|]. simpl.
    split; [subst ws; by destruct (workspace_id session) as [[|]|]|].
    split; [by destruct (workspace_id session) as [[|]|]|].
    split; [by destruct (workspace_id session) as [[|]|]|].
    split; [intros y Hy; by rewrite lookup_insert_ne|].
    split; [intros Hbad; by destruct (Hbad ty)|].
    intros ty' Hty'. eexists. split; [reflexivity|]. simpl.
    split; [by destruct (workspace_id session) as [[|]|]|].
    split; [done|]. split; [done|]. split; [done|].
    split; [subst ws; by destruct (workspace_id session) as [[|]|]|].
    split; [done|].
    split; [destruct (workspace_id session) as [[|]|]; simpl;
            by rewrite <-app_assoc|].
    split; [by destruct (workspace_id session) as [[|]|]|].
    unfold Autonomous.get_task_status. simpl. rewrite lookup_insert_eq.
    eexists. split; [reflexivity|]. simpl. split; [|done].
    rewrite Hty in Hty'. by destruct ty, ty'.
  - unfold Autonomous.create_task. fold analysis. rewrite Hraise. simpl.
    rewrite lookup_insert_eq. eexists. split; [reflexivity|].
    split; [subst ws; by destruct (workspace_id session) as [[|]|]|].
    split; [by destruct (workspace_id session) as [[|]|]|].
    split; [by destruct (workspace_id session) as [[|]|]|].
    split; [intros y Hy; by rewrite lookup_insert_ne|].
    split.
    + intros _. split; [done|].
      by destruct (workspace_id session) as [[|]|].
    + intros ty Hty. by destruct (Hno ty).
Qed.

Lemma process_message_agent_witness :
  let c := mkCollaborators str_lower 5 "s2" None None "w1" "t1"
             (Autonomous.IntentFails "down")
             (mkExecutionResult false "" "boom") in
  let s := (create_chat_session 1 "s1" CHAT None init).2 in
  ∃ session',
    active_sessions (process_message c "s1" "build it" (Some AGENT) s).2 !! "s1"
    = Some session'
    ∧ workspace_id session' = Some "w1".
Proof.
  intros c s.
  destruct (process_message_agent c "s1" "build it" (Some AGENT) s
              (mkSession "s1" None CHAT 1 1 0 [] None []
                         (mkPreferences true true false true)))
    as (session' & Hs & Hw & _).
  - vm_compute. reflexivity.
  - reflexivity.
  - exists session'. split; [exact Hs | exact Hw].
Defined.

End ChatSessions.

(** * Properties of core/codeact_engine.py *)

Section CodeEngine.
Import CodeAct.

Lemma str_app_assoc (a b c : string) : (a +:+ b) +:+ c = a +:+ (b +:+ c).
Proof.
  induction a as [|x a IH]; [done|].
  change (String x ((a +:+ b) +:+ c) = String x (a +:+ (b +:+ c))).
  by rewrite IH.
Qed.

Lemma str_app_nil_r (a : string) : a +:+ "" = a.
Proof.
  induction a as [|x a IH]; [done|].
  change (String x (a +:+ "") = String x a). by rewrite IH.
Qed.

Lemma str_app_nil_l (a : string) : "" +:+ a = a.
Proof. done. Qed.

Lemma execute_code_known now fresh o sid code ctx s x h :
  sessions s !! sid = Some x → execution_history s !! sid = Some h →
  let x' := mkCodeSession (S (execution_count x)) (cs_created_at x) now in
  let record ok out err :=
    mkExecutionRecord sid (S (execution_count x)) code ctx ok out err now in
  let stored r :=
    mkState (<[sid := x']> (sessions s))
            (<[sid := h ++ [r]]> (execution_history s)) in
  execute_code now fresh o sid code ctx s
  = match o with
    | Ran out => (Finished (record true out ""), stored (record true out ""))
    | Failed err => (Finished (record false "" err), stored (record false "" err))
    | Exits what =>
        (Escaped (Uncaught what),
         mkState (<[sid := x']> (sessions s)) (execution_history s))
    end.
Proof.
  intros Hx Hh. unfold execute_code. rewrite Hx. simpl. rewrite Hx.
  destruct o; simpl; by rewrite ?Hh.
Qed.

Lemma falsy_nonempty sid : sid ≠ "" → falsy (Some sid) = false.
Proof. by destruct sid. Qed.

Lemma execute_code_unknown now fresh o sid code ctx s :
  sessions s !! sid = None → sid ≠ "" →
  execute_code now fresh o sid code ctx s
  = execute_code now fresh o sid code ctx
      (mkState (<[sid := mkCodeSession 0 now now]> (sessions s))
               (<[sid := []]> (execution_history s))).
Proof.
  intros Hx Hne. set (s1 := mkState _ _).
  assert (Hs1 : sessions s1 !! sid = Some (mkCodeSession 0 now now))
    by apply lookup_insert_eq.
  unfold execute_code. rewrite Hx, Hs1.
  unfold create_session. rewrite (falsy_nonempty _ Hne).
  change (default fresh (Some sid)) with sid. fold s1.
  cbv beta iota zeta. by rewrite Hs1.
Qed.

(** The loop on a session that exists, with its history. *)
Lemma attempts_known world now fresh sid max n :
  ∀ i desc results s x h,
    sessions s !! sid = Some x → execution_history s !! sid = Some h →
    match attempts world now fresh sid max n i desc results s with
    | (Finished (d, rs), s') =>
        ∃ new,
          rs = results ++ new
          ∧ List.length new ≤ n
          ∧ (new = [] → n = 0)
          ∧ (∀ j r, new !! j = Some r → S j < List.length new →
                    er_success r = false)
          ∧ (∀ r, last new = Some r → er_success r = false →
                  List.length new = n)
          ∧ (∀ r, r ∈ new →
                  er_session_id r = sid
                  ∧ (er_success r = true → er_error r = "")
                  ∧ (er_success r = false → er_output r = ""))
          ∧ d = desc +:+ notes max i new
          ∧ (∃ x', sessions s' !! sid = Some x'
                   ∧ execution_count x' = execution_count x + List.length new
                   ∧ cs_created_at x' = cs_created_at x)
          ∧ execution_history s' !! sid = Some (h ++ new)
          ∧ (∀ y, y ≠ sid →
                  sessions s' !! y = sessions s !! y
                  ∧ execution_history s' !! y = execution_history s !! y)
    | (Escaped e, _) =>
        ∃ j d what, (world j d).2 = Exits what ∧ e = Uncaught what
    end.
Proof.
  induction n as [|n IH]; intros i desc results s x h Hx Hh.
  - simpl. exists []. rewrite !app_nil_r. simpl. rewrite str_app_nil_r.
    split; [done|]. split; [done|]. split; [done|].
    split; [by intros j r|]. split; [by intros r|].
    split; [by intros r ?%elem_of_nil|]. split; [done|].
    split; [exists x; split; [done|split; [lia|done]]|].
    split; [done|]. by intros y.
  - simpl. destruct (world i desc) as [code o] eqn:Hw.
    rewrite (execute_code_known _ _ _ _ _ _ _ _ _ Hx Hh).
    destruct o as [out|err|what].
    + cbn [er_success er_error nonempty String.eqb negb andb].
      set (r := mkExecutionRecord _ _ _ _ _ _ _ _).
      exists [r]. cbn [notes er_error nonempty String.eqb negb andb].
      cbn [List.length sessions execution_history].
      rewrite !lookup_insert_eq.
      split; [done|]. split; [lia|]. split; [done|].
      split; [intros j r' _ Hj; simpl in Hj; lia|].
      split; [by intros r' [= <-]|].
      split; [by intros r' ->%list_elem_of_singleton|].
      split; [by rewrite str_app_nil_r|].
      split; [eexists; split; [done|]; simpl; split; [lia|done]|].
      split; [done|]. intros y Hy. by rewrite !lookup_insert_ne.
    + cbn [er_success andb].
      set (r := mkExecutionRecord _ _ _ _ _ _ _ _).
      set (s1 := mkState _ _).
      match goal with
      | |- context [attempts _ _ _ _ _ _ _ ?d _ _] => set (desc1 := d)
      end.
      specialize (IH (S i) desc1 (results ++ [r]) s1
                    (mkCodeSession (S (execution_count x)) (cs_created_at x) now)
                    (h ++ [r])).
      destruct (attempts world now fresh sid max n (S i) desc1
                  (results ++ [r]) s1) as [[[d rs]|e] s'].
      * destruct IH as (new & Hrs & Hlen & Hempty & Hfail & Hlast & Hall & Hd
                        & (x' & Hx' & Hc & Hcr) & Hh' & Hother);
          [subst s1; simpl; by rewrite lookup_insert_eq
          |subst s1; simpl; by rewrite lookup_insert_eq|].
        exists (r :: new).
        split; [by rewrite Hrs, <-app_assoc|].
        split; [simpl; lia|]. split; [done|].
        split.
        { intros [|j] r' Hj Hlt; simpl in Hj.
          - by injection Hj as <-.
          - apply (Hfail j r' Hj). simpl in Hlt. lia. }
        split.
        { intros r' Hl Hr'. destruct new as [|r0 new0].
          - rewrite (Hempty eq_refl). done.
          - simpl. f_equal. apply (Hlast r'); [|done].
            by rewrite last_cons_cons in Hl. }
        split.
        { intros r' [->|Hin]%elem_of_cons; [done|by apply Hall]. }
        split.
        { rewrite Hd. subst desc1. cbn [notes].
          change (er_error r) with err.
          destruct (nonempty err && (Z.of_nat i <? max - 1)%Z).
          - by rewrite str_app_assoc.
          - done. }
        split.
        { exists x'. split; [done|]. simpl in Hc, Hcr.
          split; [simpl; lia|done]. }
        split; [by rewrite Hh', <-app_assoc|].
        intros y Hy. destruct (Hother y Hy) as [-> ->]. subst s1. simpl.
        by rewrite !lookup_insert_ne.
      * apply IH; subst s1; simpl; by rewrite lookup_insert_eq.
    + exists i, desc, what. by rewrite Hw.
Qed.

(** A session that does not exist yet is created by the first attempt. *)
Lemma attempts_unknown world now fresh sid max n i desc results s :
  sessions s !! sid = None → sid ≠ "" →
  attempts world now fresh sid max (S n) i desc results s
  = attempts world now fresh sid max (S n) i desc results
      (mkState (<[sid := mkCodeSession 0 now now]> (sessions s))
               (<[sid := []]> (execution_history s))).
Proof.
  intros Hx Hne. cbn [attempts]. destruct (world i desc) as [code o].
  by rewrite (execute_code_unknown _ _ _ _ _ _ _ Hx Hne).
Qed.

(** What [execute_task_autonomously] answers, in a state where every
    session has its history list. *)
Lemma autonomous_outcome world now su eu desc sid_opt max s :
  paired s →
  match execute_task_autonomously world now su eu desc sid_opt max s with
  | (Finished r, _) =>
      ar_session_id r = (if falsy sid_opt then su else default su sid_opt)
      ∧ ar_iterations r = List.length (ar_results r)
      ∧ ar_iterations r ≤ Z.to_nat max
      ∧ (ar_results r = [] → Z.to_nat max = 0)
      ∧ (∀ j x, ar_results r !! j = Some x → S j < ar_iterations r →
                er_success x = false)
      ∧ (∀ x, last (ar_results r) = Some x → er_success x = false →
              ar_iterations r = Z.to_nat max)
      ∧ (∀ x, x ∈ ar_results r →
              er_session_id x = ar_session_id r
              ∧ (er_success x = true → er_error x = "")
              ∧ (er_success x = false → er_output x = ""))
      ∧ ar_task_description r = desc +:+ notes max 0 (ar_results r)
      ∧ ar_final_success r = default false (er_success <$> last (ar_results r))
      ∧ ar_final_output r = default "" (er_output <$> last (ar_results r))
      ∧ ar_final_error r = default "" (er_error <$> last (ar_results r))
  | (Escaped e, _) =>
      ∃ j d what, (world j d).2 = Exits what ∧ e = Uncaught what
  end.
Proof.
  intros Hp. unfold execute_task_autonomously.
  assert (Hknown : ∀ sid s1 x h,
    sessions s1 !! sid = Some x → execution_history s1 !! sid = Some h →
    match
      match attempts world now eu sid max (Z.to_nat max) 0 desc [] s1 with
      | (Escaped e, s2) => (Escaped e, s2)
      | (Finished (description, results), s2) =>
          (Finished (mkAutonomousResult sid description (List.length results)
                       results
                       (default false (er_success <$> last results))
                       (default "" (er_output <$> last results))
                       (default "" (er_error <$> last results))),
           s2)
      end
    with
    | (Finished r, _) =>
        ar_session_id r = sid
        ∧ ar_iterations r = List.length (ar_results r)
        ∧ ar_iterations r ≤ Z.to_nat max
        ∧ (ar_results r = [] → Z.to_nat max = 0)
        ∧ (∀ j x, ar_results r !! j = Some x → S j < ar_iterations r →
                  er_success x = false)
        ∧ (∀ x, last (ar_results r) = Some x → er_success x = false →
                ar_iterations r = Z.to_nat max)
        ∧ (∀ x, x ∈ ar_results r →
                er_session_id x = ar_session_id r
                ∧ (er_success x = true → er_error x = "")
                ∧ (er_success x = false → er_output x = ""))
        ∧ ar_task_description r = desc +:+ notes max 0 (ar_results r)
        ∧ ar_final_success r = default false (er_success <$> last (ar_results r))
        ∧ ar_final_output r = default "" (er_output <$> last (ar_results r))
        ∧ ar_final_error r = default "" (er_error <$> last (ar_results r))
    | (Escaped e, _) =>
        ∃ j d what, (world j d).2 = Exits what ∧ e = Uncaught what
    end).
  { intros sid s1 x h Hx Hh.
    pose proof (attempts_known world now eu sid max (Z.to_nat max) 0 desc []
                  s1 x h Hx Hh) as H.
    destruct (attempts world now eu sid max (Z.to_nat max) 0 desc [] s1)
      as [[[d rs]|e] s2]; [|exact H].
    destruct H as (new & -> & Hlen & Hempty & Hfail & Hlast & Hall & Hd & _).
    simpl. repeat (split; [assumption || reflexivity|]). reflexivity. }
  destruct (falsy sid_opt) eqn:Hf.
  - unfold create_session. cbn [falsy]. cbv beta iota zeta.
    eapply Hknown; simpl; by rewrite lookup_insert_eq.
  - destruct sid_opt as [sid|]; [|discriminate].
    assert (Hne : sid ≠ "") by (intros ->; discriminate).
    change (default su (Some sid)) with sid. cbv beta iota zeta.
    destruct (sessions s !! sid) as [x|] eqn:Hx.
    + destruct (Hp sid) as [h Hh]; [by rewrite Hx|]. by eapply Hknown.
    + destruct (Z.to_nat max) as [|n] eqn:Hn.
      * simpl. split; [done|]. split; [done|]. split; [done|]. split; [done|].
        split; [by intros j x|]. split; [by intros x|].
        split; [by intros x ?%elem_of_nil|].
        split; [by rewrite str_app_nil_r|]. done.
      * rewrite (attempts_unknown _ _ _ _ _ _ _ _ _ _ Hx Hne).
        eapply Hknown; simpl; by rewrite lookup_insert_eq.
Qed.

Lemma paired_init : paired init.
Proof. intros sid. unfold init. simpl. rewrite lookup_empty. by intros [? ?]. Qed.

Lemma paired_create now fresh sid_opt s :
  paired s → paired (create_session now fresh sid_opt s).2.
Proof.
  intros Hp y. unfold create_session. simpl.
  set (sid := if falsy sid_opt then fresh else default fresh sid_opt).
  destruct (decide (y = sid)) as [->|Hne].
  - rewrite !lookup_insert_eq. eauto.
  - rewrite !lookup_insert_ne by done. apply Hp.
Qed.



(** The answer of [execute_task_autonomously]: every attempt but the last
    one failed; a last attempt that failed too means that all
    [max_iterations] attempts were used; [final_success], [final_output]
    and [final_error] are those of the last attempt, a successful one
    carrying no error text and a failed one no output.  The task
    description that is returned is the one given followed by one note per
    failed attempt that left an error text, the last allowed attempt
    excepted. *)
Theorem autonomous_loop_results world now su eu desc sid_opt max s s' r :
  paired s →
  execute_task_autonomously world now su eu desc sid_opt max s
  = (Finished r, s') →
  ar_iterations r = List.length (ar_results r)
  ∧ (∀ j x, ar_results r !! j = Some x → S j < ar_iterations r →
            er_success x = false ∧ er_output x = "")
  ∧ (ar_final_success r = false → ar_iterations r = Z.to_nat max)
  ∧ (ar_final_success r = true →
     ar_final_error r = ""
     ∧ ∃ x, last (ar_results r) = Some x ∧ er_success x = true)
  ∧ (∀ x, x ∈ ar_results r → er_session_id x = ar_session_id r)
  ∧ ar_task_description r = desc +:+ notes max 0 (ar_results r).
Proof.
  intros Hp Heq.
  pose proof (autonomous_outcome world now su eu desc sid_opt max s Hp) as H.
  rewrite Heq in H.
  destruct H as (_ & Hit & Hle & Hempty & Hfail & Hlast & Hall & Hd
                 & Hs & Ho & He).
  split; [done|]. split.
  { intros j x Hj Hlt. pose proof (Hfail j x Hj Hlt) as Hx. split; [done|].
    apply (Hall x); [|done]. by eapply list_elem_of_lookup_2. }
  split.
  { intros Hfs. rewrite Hs in Hfs.
    destruct (last (ar_results r)) as [x|] eqn:Hl.
    - by apply (Hlast x).
    - apply last_None in Hl. rewrite Hit, Hl. simpl.
      by rewrite (Hempty Hl). }
  split.
  { intros Hfs. rewrite Hs in Hfs. rewrite He.
    destruct (last (ar_results r)) as [x|] eqn:Hl; [|done].
    simpl in *. split; [|by exists x].
    apply (Hall x); [|done]. apply last_Some in Hl as [l' ->].
    apply elem_of_app. right. by apply list_elem_of_singleton. }
  split; [|done].
  intros x Hx. by apply (Hall x).
Qed.

Lemma autonomous_loop_results_witness :
  let world := λ (i : nat) (d : string),
    if i <? 2 then ("1/0", Failed "division by zero") else ("print(1)", Ran "1") in
  ∃ r s',
    execute_task_autonomously world 7 "w1" "e1" "divide" None 3 init
    = (Finished r, s')
    ∧ ar_iterations r = List.length (ar_results r)
    ∧ ar_final_success r = true.
Proof.
  intros world.
  destruct (execute_task_autonomously world 7 "w1" "e1" "divide" None 3 init)
    as [[r|e] s'] eqn:Heq; [|vm_compute in Heq; discriminate].
  exists r, s'. split; [reflexivity|].
  destruct (autonomous_loop_results world 7 "w1" "e1" "divide" None 3 init s' r
              paired_init Heq) as (Hit & _).
  split; [exact Hit|]. vm_compute in Heq. by injection Heq as <- <-.
Defined.

(** After [execute_task_autonomously] on an existing session, the
    session's history is the old one followed by the attempts of this
    call, its execution count has grown by the number of attempts, which
    is what [get_session_info] then reports, and no other session has
    been touched. *)
Theorem autonomous_loop_history world now su eu desc sid max s x h r s' :
  sid ≠ "" →
  sessions s !! sid = Some x → execution_history s !! sid = Some h →
  execute_task_autonomously world now su eu desc (Some sid) max s
  = (Finished r, s') →
  execution_history s' !! sid = Some (h ++ ar_results r)
  ∧ (∃ info, get_session_info sid s' = Ok info
       ∧ sr_created_at info = cs_created_at x
       ∧ sr_execution_count info = execution_count x + ar_iterations r
       ∧ sr_execution_history_count info = List.length h + ar_iterations r)
  ∧ (∀ y, y ≠ sid →
          sessions s' !! y = sessions s !! y
          ∧ execution_history s' !! y = execution_history s !! y).
Proof.
  intros Hne Hx Hh. unfold execute_task_autonomously.
  rewrite (falsy_nonempty _ Hne). change (default su (Some sid)) with sid.
  pose proof (attempts_known world now eu sid max (Z.to_nat max) 0 desc []
                s x h Hx Hh) as H.
  destruct (attempts world now eu sid max (Z.to_nat max) 0 desc [] s)
    as [[[d rs]|e] s2]; [|discriminate].
  intros [= <- <-]. simpl.
  destruct H as (new & -> & _ & _ & _ & _ & _ & _ & (x' & Hx' & Hc & Hcr)
                 & Hh' & Hother).
  simpl. split; [done|]. split; [|done].
  unfold get_session_info. rewrite Hx', Hh'. simpl.
  eexists. split; [reflexivity|]. simpl. rewrite length_app.
  by repeat split.
Qed.

Lemma autonomous_loop_history_witness :
  let world := λ (i : nat) (d : string), ("print(1)", Ran "1") in
  let s := (create_session 1 "w1" (Some "ws") init).2 in
  ∃ r s',
    execute_task_autonomously world 7 "w2" "e1" "count" (Some "ws") 3 s
    = (Finished r, s')
    ∧ execution_history s' !! "ws" = Some ([] ++ ar_results r).
Proof.
  intros world s.
  destruct (execute_task_autonomously world 7 "w2" "e1" "count" (Some "ws") 3 s)
    as [[r|e] s'] eqn:Heq; [|vm_compute in Heq; discriminate].
  exists r, s'. split; [reflexivity|].
  destruct (autonomous_loop_history world 7 "w2" "e1" "count" "ws" 3 s
              (mkCodeSession 0 1 1) [] r s') as (Hh & _).
  - discriminate.
  - vm_compute. reflexivity.
  - vm_compute. reflexivity.
  - exact Heq.
  - exact Hh.
Defined.



(** [create_session] with an id that is already in use starts that
    session over: its execution count is 0 and its history empty
    again.  [cleanup_session] then removes the session and its history
    without touching any other session, and it answers [True] also for
    an id that was never registered, changing nothing. *)
Theorem create_then_cleanup now fresh sid s :
  sid ≠ "" →
  let s1 := (create_session now fresh (Some sid) s).2 in
  let s2 := (cleanup_session sid s1).2 in
  (create_session now fresh (Some sid) s).1 = sid
  ∧ get_session_info sid s1 = Ok (mkSessionReport sid now now 0 0 [])
  ∧ (cleanup_session sid s1).1 = true
  ∧ get_session_info sid s2 = Err "Session not found"
  ∧ execution_history s2 !! sid = None
  ∧ (∀ y, y ≠ sid →
          sessions s2 !! y = sessions s !! y
          ∧ execution_history s2 !! y = execution_history s !! y)
  ∧ cleanup_session sid s2 = (true, s2).
Proof.
  intros Hne s1 s2. subst s1 s2. unfold create_session.
  rewrite (falsy_nonempty _ Hne). change (default fresh (Some sid)) with sid.
  unfold get_session_info, cleanup_session. simpl.
  rewrite !lookup_insert_eq, !lookup_delete_eq. simpl.
  split; [done|]. split; [done|]. split; [done|]. split; [done|].
  split; [done|]. split.
  - intros y Hy. by rewrite !lookup_delete_ne, !lookup_insert_ne.
  - by rewrite !delete_delete_eq.
Qed.

Lemma create_then_cleanup_witness :
  get_session_info "ws"
    (create_session 9 "u2" (Some "ws")
       (execute_code 5 "u" (Ran "1") "ws" "print(1)" "" init).2).2
  = Ok (mkSessionReport "ws" 9 9 0 0 []).
Proof.
  destruct (create_then_cleanup 9 "u2" "ws"
              (execute_code 5 "u" (Ran "1") "ws" "print(1)" "" init).2)
    as (_ & H & _).
  - discriminate.
  - exact H.
Defined.

End CodeEngine.
